(** * xlsxwrite.js: a shallow embedding of the workbook writer

    The development follows the JavaScript source section by section:
    primitive codecs (column letters, cell references), the dynamic value
    model and [deepMerge], the [Format] class and the style registry, the
    workbook model (sheets, shared strings, cell processing), the XML
    generators for sheet data and charts, and the package assembler with
    [save] / [saveAs].

    Conventions.  JavaScript strings are modelled by [string]; integers that
    the code uses as indices, row and column numbers or identifiers are
    modelled exactly by [Z] (or [nat] for array lengths), i.e. in the range
    where doubles are exact; other numbers use the decimal model [JsNum].
    [Map] objects are [gmap]s, arrays are lists. *)

From Stdlib Require Import ZArith String Ascii DecimalString DecimalZ DecimalN.
From Stdlib Require HexadecimalString.
From stdpp Require Import gmap strings list fin_maps.
From Equations Require Import Equations.

Local Open Scope string_scope.
Local Open Scope Z_scope.

(** ** Characters and strings *)

Module Str.

Definition code (c : ascii) : Z := Z.of_N (N_of_ascii c).

(** [String.fromCharCode] on the code units the writer produces (0..255). *)
Definition fromCharCode (n : Z) : ascii := ascii_of_N (Z.to_N n).

Definition is_upper (c : ascii) : bool := (65 <=? code c) && (code c <=? 90).
Definition is_lower (c : ascii) : bool := (97 <=? code c) && (code c <=? 122).
Definition is_alpha (c : ascii) : bool := is_upper c || is_lower c.
Definition is_digit (c : ascii) : bool := (48 <=? code c) && (code c <=? 57).

Definition upper_char (c : ascii) : ascii :=
  if is_lower c then fromCharCode (code c - 32) else c.

Definition lower_char (c : ascii) : ascii :=
  if is_upper c then fromCharCode (code c + 32) else c.

Fixpoint map (f : ascii -> ascii) (s : string) : string :=
  match s with
  | EmptyString => EmptyString
  | String c s' => String (f c) (map f s')
  end.

(** [s.toUpperCase()] and [s.toLowerCase()] (ASCII). *)
Definition toUpperCase (s : string) : string := map upper_char s.
Definition toLowerCase (s : string) : string := map lower_char s.

Fixpoint forallb (p : ascii -> bool) (s : string) : bool :=
  match s with
  | EmptyString => true
  | String c s' => p c && forallb p s'
  end.

Fixpoint existsb (p : ascii -> bool) (s : string) : bool :=
  match s with
  | EmptyString => false
  | String c s' => p c || existsb p s'
  end.

(** Longest prefix whose characters satisfy [p], and the rest. *)
Fixpoint span (p : ascii -> bool) (s : string) : string * string :=
  match s with
  | EmptyString => (EmptyString, EmptyString)
  | String c s' =>
      if p c then let '(a, b) := span p s' in (String c a, b)
      else (EmptyString, s)
  end.

(** [s.startsWith(p)] *)
Fixpoint startsWith (p s : string) : bool :=
  match p, s with
  | EmptyString, _ => true
  | String a p', String b s' => if Ascii.eqb a b then startsWith p' s' else false
  | String _ _, EmptyString => false
  end.

(** [s.endsWith(p)] *)
Definition endsWith (p s : string) : bool :=
  let lp := String.length p in
  let ls := String.length s in
  (lp <=? ls)%nat && String.eqb (String.substring (ls - lp) lp s) p.

(** [s.includes(p)] *)
Fixpoint includes (p s : string) : bool :=
  startsWith p s ||
  match s with
  | EmptyString => false
  | String _ s' => includes p s'
  end.

(** A string is truthy when it is not empty. *)
Definition truthy (s : string) : bool :=
  match s with EmptyString => false | _ => true end.

(** Decimal text of an integer, as [String(n)] prints it. *)
Definition ofZ (z : Z) : string :=
  DecimalString.NilZero.string_of_int (Z.to_int z).
Definition ofNat (n : nat) : string := ofZ (Z.of_nat n).

(** [parseInt(s, 10)] on a string of decimal digits. *)
Definition parseDigits (s : string) : Z :=
  let fix go (acc : Z) (s : string) : Z :=
    match s with
    | EmptyString => acc
    | String c s' => go (acc * 10 + (code c - 48)) s'
    end in
  go 0 s.

End Str.

(** ** Primitive codecs: column letters and cell references *)

Module Codec.

(** The body of the [while (col > 0)] loop of [xlColumn]: [result] is the
    accumulator the loop prepends to. *)
Equations? xlColumn_loop (col : Z) (result : string) : string
  by wf (Z.to_nat col) lt :=
  xlColumn_loop col result with Z_gt_dec col 0 => {
    | left _ :=
        xlColumn_loop ((col - 1) / 26)
          (String (Str.fromCharCode (65 + (col - 1) mod 26)) result);
    | right _ := result }.
Proof.
  assert ((col - 1) / 26 <= col - 1) by (apply Z.div_le_upper_bound; lia).
  assert (0 <= (col - 1) / 26) by (apply Z.div_pos; lia).
  lia.
Qed.

(** [XL_COLUMN_CACHE]: a plain object keyed by column number. *)
Abbreviation Cache := (gmap Z string).

(** [xlColumn(column)]: returns the letters and the cache after the call.
    A cached entry is used only when it is truthy. *)
Definition xlColumn (cache : Cache) (column : Z) : string * Cache :=
  match cache !! column with
  | Some s =>
      if Str.truthy s then (s, cache)
      else
        let result := xlColumn_loop column "" in
        (result, if column <=? 702 then <[column := result]> cache else cache)
  | None =>
      let result := xlColumn_loop column "" in
      (result, if column <=? 702 then <[column := result]> cache else cache)
  end.

(** The caches the program can be in: the initial empty object, and
    whatever calls of [xlColumn] make of it. *)
Inductive cache_reachable : Cache -> Prop :=
| cache_initial : cache_reachable ∅
| cache_after_call c column :
    cache_reachable c -> cache_reachable (xlColumn c column).2.

Record CellInd := { row : Z; column : Z }.

(** The argument of [xlCell2Ind]: a string, an array of numbers, a number,
    or anything else. *)
Inductive CellRef :=
| RefString (s : string)
| RefArray (a : list Z)
| RefNumber (n : Z)
| RefOther.

(** [xlCell.match(/^([A-Z]+)(\d+)$/i)]: the two capture groups.  The letter
    and digit classes are disjoint, so the match is the longest run of
    letters followed by a run of digits that reaches the end. *)
Definition match_cell (s : string) : option (string * string) :=
  let '(letters, rest) := Str.span Str.is_alpha s in
  if Str.truthy letters && Str.truthy rest && Str.forallb Str.is_digit rest
  then Some (letters, rest) else None.

(** The [for] loop of [xlCell2Ind] that decodes the letters, started from
    [column]. *)
Fixpoint decode_letters (column : Z) (letters : string) : Z :=
  match letters with
  | EmptyString => column
  | String c rest => decode_letters (column * 26 + (Str.code c - 64)) rest
  end.

(** [a[i] || 1] *)
Definition index_or_1 (a : list Z) (i : nat) : Z :=
  match a !! i with
  | Some v => if v =? 0 then 1 else v
  | None => 1
  end.

Definition xlCell2Ind (xlCell : CellRef) : CellInd :=
  match xlCell with
  | RefString s =>
      match match_cell s with
      | None => {| row := 1; column := 1 |}
      | Some (m1, m2) =>
          let letters := Str.toUpperCase m1 in
          {| row := Str.parseDigits m2; column := decode_letters 0 letters |}
      end
  | RefArray a => {| row := index_or_1 a 0; column := index_or_1 a 1 |}
  | RefNumber n => {| row := n; column := 1 |}
  | RefOther => {| row := 1; column := 1 |}
  end.

End Codec.

(** ** JavaScript values *)

Module Js.

(** Numbers.  A finite non-zero double is identified by its sign and the
    shortest decimal digits [s] with which it prints, scaled by a power of
    ten: [Fin neg s e] is [(-1)^neg * s * 10^e] with [s] not a multiple of
    ten ([NumberToString], ECMA-262 6.1.6.1.20, works from these data).
    Negative zero is not distinguished from zero. *)
Inductive JsNum :=
| NaN
| Inf (neg : bool)
| Zero
| Fin (neg : bool) (s : positive) (e : Z).

#[export] Instance JsNum_eq_dec : EqDecision JsNum.
Proof. solve_decision. Defined.

Definition isNaN (x : JsNum) : bool :=
  match x with NaN => true | _ => false end.

Definition isFinite (x : JsNum) : bool :=
  match x with Zero | Fin _ _ _ => true | _ => false end.

(** [ToBoolean] of a number: [0] and [NaN] are falsy. *)
Definition num_truthy (x : JsNum) : bool :=
  match x with NaN | Zero => false | _ => true end.

(** The integer [z] as a number, in canonical form. *)
Fixpoint strip_zeros (fuel : nat) (s : positive) (e : Z) : positive * Z :=
  match fuel with
  | O => (s, e)
  | S fuel' =>
      if (Z.pos s mod 10 =? 0)
      then strip_zeros fuel' (Z.to_pos (Z.pos s / 10)) (e + 1)
      else (s, e)
  end.

Definition ofZ (z : Z) : JsNum :=
  match z with
  | Z0 => Zero
  | Zpos p => let '(s, e) := strip_zeros (Pos.to_nat p) p 0 in Fin false s e
  | Zneg p => let '(s, e) := strip_zeros (Pos.to_nat p) p 0 in Fin true s e
  end.

Definition digits (s : positive) : string :=
  DecimalString.NilEmpty.string_of_uint (Pos.to_uint s).

Fixpoint zeros (n : nat) : string :=
  match n with O => "" | S n' => String "0" (zeros n') end.

(** [NumberToString] for a positive finite number, steps 5 to 10. *)
Definition finToString (s : positive) (e : Z) : string :=
  let ds := digits s in
  let k := Z.of_nat (String.length ds) in
  let n := e + k in
  if (k <=? n) && (n <=? 21) then ds +:+ zeros (Z.to_nat (n - k))
  else if (0 <? n) && (n <=? 21) then
    String.substring 0 (Z.to_nat n) ds +:+ "." +:+
    String.substring (Z.to_nat n) (Z.to_nat (k - n)) ds
  else if (-6 <? n) && (n <=? 0) then "0." +:+ zeros (Z.to_nat (- n)) +:+ ds
  else
    let ex := n - 1 in
    let exs := (if ex <? 0 then "-" else "+") +:+ Str.ofZ (Z.abs ex) in
    if k =? 1 then ds +:+ "e" +:+ exs
    else String.substring 0 1 ds +:+ "." +:+
         String.substring 1 (Z.to_nat (k - 1)) ds +:+ "e" +:+ exs.

(** [String(x)], the text a template literal inserts for a number. *)
Definition numToString (x : JsNum) : string :=
  match x with
  | NaN => "NaN"
  | Inf false => "Infinity"
  | Inf true => "-Infinity"
  | Zero => "0"
  | Fin neg s e => (if neg then "-" else "") +:+ finToString s e
  end.

(** [x > z] for an integer [z]. *)
Definition gtZ (x : JsNum) (z : Z) : bool :=
  match x with
  | NaN => false
  | Inf neg => negb neg
  | Zero => 0 >? z
  | Fin neg s e =>
      let m := if neg then Z.neg s else Z.pos s in
      if 0 <=? e then m * 10 ^ e >? z else m >? z * 10 ^ (- e)
  end.

(** The literals [9.99999999999999E+307] and [-9.99999999999999E+307]. *)
Definition max_sentinel : JsNum := Fin false 999999999999999 293.
Definition min_sentinel : JsNum := Fin true 999999999999999 293.

(** Scalar values: [null], booleans, numbers and strings. *)
Inductive Scalar :=
| SNull
| SBool (b : bool)
| SNum (n : JsNum)
| SStr (s : string).

#[export] Instance Scalar_eq_dec : EqDecision Scalar.
Proof. solve_decision. Defined.

Definition scalar_truthy (v : Scalar) : bool :=
  match v with
  | SNull => false
  | SBool b => b
  | SNum n => num_truthy n
  | SStr s => Str.truthy s
  end.

(** [String(v)], which is also the property key that [o[v]] uses. *)
Definition scalar_to_string (v : Scalar) : string :=
  match v with
  | SNull => "null"
  | SBool true => "true"
  | SBool false => "false"
  | SNum n => numToString n
  | SStr s => s
  end.

(** [a || b] where [a] may be [undefined] (an absent property). *)
Definition or_else (a : option Scalar) (b : Scalar) : Scalar :=
  match a with
  | Some v => if scalar_truthy v then v else b
  | None => b
  end.

(** [a || b] for two values. *)
Definition scalar_or (a b : Scalar) : Scalar :=
  if scalar_truthy a then a else b.

(** [a || b] where both may be [undefined]. *)
Definition or_prop (a b : option Scalar) : option Scalar :=
  match a with
  | Some v => if scalar_truthy v then a else b
  | None => b
  end.

(** What [JSON.stringify] writes for a scalar: numbers that are not finite
    are written as [null]. *)
Inductive Json :=
| JNull
| JBool (b : bool)
| JNum (n : JsNum)
| JStr (s : string).

#[export] Instance Json_eq_dec : EqDecision Json.
Proof. solve_decision. Defined.

Definition to_json (v : Scalar) : Json :=
  match v with
  | SNull => JNull
  | SBool b => JBool b
  | SNum n => if isFinite n then JNum n else JNull
  | SStr s => JStr s
  end.

Definition JsNum_code (x : JsNum) : unit + bool + unit + (bool * positive * Z) :=
  match x with
  | NaN => inl (inl (inl tt))
  | Inf neg => inl (inl (inr neg))
  | Zero => inl (inr tt)
  | Fin neg s e => inr (neg, s, e)
  end.

Definition JsNum_decode (y : unit + bool + unit + (bool * positive * Z)) : JsNum :=
  match y with
  | inl (inl (inl _)) => NaN
  | inl (inl (inr neg)) => Inf neg
  | inl (inr _) => Zero
  | inr (neg, s, e) => Fin neg s e
  end.

Lemma JsNum_decode_code x : JsNum_decode (JsNum_code x) = x.
Proof. destruct x; reflexivity. Qed.

#[export] Instance JsNum_countable : Countable JsNum :=
  inj_countable' JsNum_code JsNum_decode JsNum_decode_code.

Definition Scalar_code (v : Scalar) : unit + bool + JsNum + string :=
  match v with
  | SNull => inl (inl (inl tt))
  | SBool b => inl (inl (inr b))
  | SNum n => inl (inr n)
  | SStr s => inr s
  end.

Definition Scalar_decode (y : unit + bool + JsNum + string) : Scalar :=
  match y with
  | inl (inl (inl _)) => SNull
  | inl (inl (inr b)) => SBool b
  | inl (inr n) => SNum n
  | inr s => SStr s
  end.

Lemma Scalar_decode_code v : Scalar_decode (Scalar_code v) = v.
Proof. destruct v; reflexivity. Qed.

#[export] Instance Scalar_countable : Countable Scalar :=
  inj_countable' Scalar_code Scalar_decode Scalar_decode_code.

Definition Json_code (v : Json) : unit + bool + JsNum + string :=
  match v with
  | JNull => inl (inl (inl tt))
  | JBool b => inl (inl (inr b))
  | JNum n => inl (inr n)
  | JStr s => inr s
  end.

Definition Json_decode (y : unit + bool + JsNum + string) : Json :=
  match y with
  | inl (inl (inl _)) => JNull
  | inl (inl (inr b)) => JBool b
  | inl (inr n) => JNum n
  | inr s => JStr s
  end.

Lemma Json_decode_code v : Json_decode (Json_code v) = v.
Proof. destruct v; reflexivity. Qed.

#[export] Instance Json_countable : Countable Json :=
  inj_countable' Json_code Json_decode Json_decode_code.

(** Values.  Objects are association lists in insertion order; [VFun] is a
    function object, named for reference only. *)
#[warnings="-register-all"]
Inductive JsVal :=
| VUndefined
| VNull
| VBool (b : bool)
| VNum (n : JsNum)
| VStr (s : string)
| VArr (a : list JsVal)
| VObj (o : list (string * JsVal))
| VFun (name : string).

Abbreviation Obj := (list (string * JsVal)).

Definition of_scalar (v : Scalar) : JsVal :=
  match v with
  | SNull => VNull
  | SBool b => VBool b
  | SNum n => VNum n
  | SStr s => VStr s
  end.

(** [ToBoolean] *)
Definition truthy (v : JsVal) : bool :=
  match v with
  | VUndefined | VNull => false
  | VBool b => b
  | VNum n => num_truthy n
  | VStr s => Str.truthy s
  | VArr _ | VObj _ | VFun _ => true
  end.

(** The names every plain object inherits from [Object.prototype]. *)
Definition object_prototype_names : list string :=
  [ "constructor"; "__defineGetter__"; "__defineSetter__"; "hasOwnProperty";
    "__lookupGetter__"; "__lookupSetter__"; "isPrototypeOf";
    "propertyIsEnumerable"; "toString"; "valueOf"; "__proto__";
    "toLocaleString" ].

Definition inherited (key : string) : bool :=
  bool_decide (key ∈ object_prototype_names).

Fixpoint own (o : Obj) (key : string) : option JsVal :=
  match o with
  | [] => None
  | (k, v) :: rest => if String.eqb k key then Some v else own rest key
  end.

(** [o[key]] on a plain object: the own property, else what the prototype
    chain gives ([Object.prototype] itself for ["__proto__"], a built-in
    function for the other inherited names), else [undefined]. *)
Definition get (o : Obj) (key : string) : JsVal :=
  match own o key with
  | Some v => v
  | None =>
      if inherited key
      then (if String.eqb key "__proto__" then VObj [] else VFun key)
      else VUndefined
  end.

(** [o[key] = v] for an ordinary key: an own property keeps its place, a
    new one goes last. *)
Fixpoint set (o : Obj) (key : string) (v : JsVal) : Obj :=
  match o with
  | [] => [(key, v)]
  | (k, w) :: rest =>
      if String.eqb k key then (k, v) :: rest else (k, w) :: set rest key v
  end.

Fixpoint indexed_from (i : nat) (a : list JsVal) : Obj :=
  match a with
  | [] => []
  | v :: rest => (Str.ofNat i, v) :: indexed_from (S i) rest
  end.

Fixpoint chars_from (i : nat) (s : string) : Obj :=
  match s with
  | EmptyString => []
  | String c rest => (Str.ofNat i, VStr (String c "")) :: chars_from (S i) rest
  end.

(** [{ ...v }]: the own enumerable properties of [v], copied. *)
Definition spread (v : JsVal) : Obj :=
  match v with
  | VObj o => o
  | VArr a => indexed_from 0 a
  | VStr s => chars_from 0 s
  | _ => []
  end.

(** [v && typeof v === 'object' && !Array.isArray(v)] *)
Definition is_plain_object (v : JsVal) : bool :=
  match v with VObj _ => true | _ => false end.

(** What the generators need from the JavaScript runtime and is not fixed
    by the program: the product and rounding of doubles, whether a string
    converts to [NaN], and the text of a built-in function. *)
Record Runtime := {
  js_mul : JsNum -> JsNum -> JsNum;
  js_round : JsNum -> JsNum;
  isNaN_text : string -> bool;
  function_text : string -> string
}.

(** Exact product and [Math.round] on the decimal model; they agree with
    the operations on doubles whenever the exact result is a double. *)
Definition normalize (neg : bool) (m : positive) (e : Z) : JsNum :=
  let '(s, e') := strip_zeros (Pos.to_nat m) m e in Fin neg s e'.

Definition exact_mul (x y : JsNum) : JsNum :=
  match x, y with
  | NaN, _ | _, NaN => NaN
  | Inf a, Inf b => Inf (xorb a b)
  | Inf _, Zero | Zero, Inf _ => NaN
  | Inf a, Fin b _ _ | Fin a _ _, Inf b => Inf (xorb a b)
  | Zero, _ | _, Zero => Zero
  | Fin a s1 e1, Fin b s2 e2 => normalize (xorb a b) (s1 * s2) (e1 + e2)
  end.

Definition exact_round (x : JsNum) : JsNum :=
  match x with
  | Fin neg s e =>
      if 0 <=? e then x
      else
        let d := 10 ^ (- e) in
        let m := if neg then Z.neg s else Z.pos s in
        ofZ ((2 * m + d) / (2 * d))
  | _ => x
  end.

(** A runtime to evaluate the generators with: exact decimal arithmetic,
    strings of digits as the strings that are numbers, and the text V8
    gives a built-in function. *)
Definition decimal_runtime : Runtime :=
  {| js_mul := exact_mul;
     js_round := exact_round;
     isNaN_text :=
       fun s => negb (Str.truthy s && Str.forallb Str.is_digit s);
     function_text :=
       fun name => "function " +:+ name +:+ "() { [native code] }" |}.

(** [a.join(',')] given the text of each element. *)
Fixpoint join_with (text : JsVal -> string) (a : list JsVal) : string :=
  match a with
  | [] => ""
  | [v] => text v
  | v :: rest => text v +:+ "," +:+ join_with text rest
  end.

(** [String(v)], the text a template literal inserts for [v]. *)
Fixpoint toStringVal (rt : Runtime) (v : JsVal) : string :=
  match v with
  | VUndefined => "undefined"
  | VNull => "null"
  | VBool true => "true"
  | VBool false => "false"
  | VNum n => numToString n
  | VStr s => s
  | VArr a =>
      join_with
        (fun x => match x with
                  | VUndefined | VNull => ""
                  | _ => toStringVal rt x
                  end) a
  | VObj _ => "[object Object]"
  | VFun name => function_text rt name
  end.

End Js.

(** ** Deep merge of defaults and overrides *)

Module Merge.
Import Js.

Definition guarded (key : string) : bool :=
  String.eqb key "__proto__" || String.eqb key "constructor" ||
  String.eqb key "prototype".

(** [a || {}] *)
Definition or_empty (v : JsVal) : JsVal := if truthy v then v else VObj [].

(** The [for (const key of Object.keys(source))] loop of [deepMerge]: [v] is
    [source[key]], and [merge] is the recursive call. *)
Fixpoint merge_loop (merge : JsVal -> JsVal -> Obj) (result entries : Obj) : Obj :=
  match entries with
  | [] => result
  | (key, v) :: rest =>
      if guarded key then merge_loop merge result rest
      else if is_plain_object v
      then merge_loop merge
             (set result key (VObj (merge (or_empty (get result key)) v)))
             rest
      else merge_loop merge (set result key v) rest
  end.

(** [deepMerge(target, source)].  The recursion is on the source value.  A
    source that is not a plain object only occurs at the outermost call and
    has no keys to copy in this model. *)
Fixpoint deepMerge_value (target : JsVal) (source : JsVal) {struct source} : Obj :=
  match source with
  | VObj entries => merge_loop deepMerge_value (spread target) entries
  | _ => spread target
  end.

Definition deepMerge (target : JsVal) (source : Obj) : Obj :=
  deepMerge_value target (VObj source).

(** Removing the guarded keys from an object, at every level of nesting that
    [deepMerge] descends into (plain objects, not arrays). *)
Fixpoint strip_entries (strip : JsVal -> JsVal) (entries : Obj) : Obj :=
  match entries with
  | [] => []
  | (key, w) :: rest =>
      if guarded key then strip_entries strip rest
      else (key, strip w) :: strip_entries strip rest
  end.

Fixpoint strip_guarded_value (v : JsVal) : JsVal :=
  match v with
  | VObj entries => VObj (strip_entries strip_guarded_value entries)
  | _ => v
  end.

Definition strip_guarded (o : Obj) : Obj :=
  strip_entries strip_guarded_value o.

(** Removing the guarded keys at the top level only. *)
Definition strip_top (o : Obj) : Obj :=
  filter (fun kv => negb (guarded kv.1) = true) o.

End Merge.

(** ** The [Format] class *)

Module Fmt.
Import Js.

(** The [properties] argument: a plain object whose values are scalars.
    [prop p k] is [p[k]], with [None] for [undefined]; the constructor only
    reads names that [Object.prototype] does not define. *)
Abbreviation Properties := (list (string * Scalar)).

Fixpoint prop (p : Properties) (k : string) : option Scalar :=
  match p with
  | [] => None
  | (k', v) :: rest => if String.eqb k' k then Some v else prop rest k
  end.

(** The structured form of the text [JSON.stringify] produces for the key
    object: its members in order.  Two such objects have the same text
    exactly when they have the same members. *)
Abbreviation Key := (list (string * Json)).

Record Format := {
  fontName : Scalar; fontSize : Scalar; fontColor : Scalar;
  bold : Scalar; italic : Scalar; underline : Scalar;
  fontStrikeout : Scalar; fontScript : Scalar;
  numFormat : Scalar; numFormatIndex : JsVal;
  align : Scalar; valign : Scalar; rotation : Scalar;
  textWrap : Scalar; shrink : Scalar; indent : Scalar;
  border : Scalar; borderColor : Scalar;
  left : Scalar; leftColor : Scalar;
  right : Scalar; rightColor : Scalar;
  top : Scalar; topColor : Scalar;
  bottom : Scalar; bottomColor : Scalar;
  diagonalType : Scalar; diagonalBorder : Scalar; diagonalColor : Scalar;
  pattern : Scalar; bgColor : Scalar; fgColor : Scalar;
  locked : Scalar; hidden : Scalar;
  xfIndex : option nat;
  _cachedKey : option Key
}.

(** [new Format(properties)].  The fields [fontIndex], [fillIndex] and
    [borderIndex] are set to [null] and never used again; they are left out. *)
Definition new_Format (properties : Properties) : Format :=
  let p := prop properties in
  let border := or_else (p "border") (SNum Zero) in
  let borderColor := or_else (or_prop (p "border_color") (p "borderColor")) SNull in
  let left := or_else (p "left") (SNum Zero) in
  let leftColor := or_else (or_prop (p "left_color") (p "leftColor")) SNull in
  let right := or_else (p "right") (SNum Zero) in
  let rightColor := or_else (or_prop (p "right_color") (p "rightColor")) SNull in
  let top := or_else (p "top") (SNum Zero) in
  let topColor := or_else (or_prop (p "top_color") (p "topColor")) SNull in
  let bottom := or_else (p "bottom") (SNum Zero) in
  let bottomColor := or_else (or_prop (p "bottom_color") (p "bottomColor")) SNull in
  (* Apply border shorthand *)
  let side s := if scalar_truthy border then scalar_or s border else s in
  let side_color c :=
    if scalar_truthy borderColor then scalar_or c borderColor else c in
  {| fontName := or_else (or_prop (p "font_name") (p "fontName")) (SStr "Calibri");
     fontSize := or_else (or_prop (p "font_size") (p "fontSize")) (SNum (ofZ 11));
     fontColor := or_else (or_prop (p "font_color") (p "fontColor")) SNull;
     bold := or_else (p "bold") (SBool false);
     italic := or_else (p "italic") (SBool false);
     underline := or_else (p "underline") (SNum Zero);
     fontStrikeout :=
       or_else (or_prop (p "font_strikeout") (p "fontStrikeout")) (SBool false);
     fontScript := or_else (or_prop (p "font_script") (p "fontScript")) (SNum Zero);
     numFormat := or_else (or_prop (p "num_format") (p "numFormat")) (SStr "General");
     numFormatIndex :=
       of_scalar
         (or_else (or_prop (p "num_format_index") (p "numFormatIndex")) (SNum Zero));
     align := or_else (p "align") SNull;
     valign := or_else (p "valign") SNull;
     rotation := or_else (p "rotation") (SNum Zero);
     textWrap := or_else (or_prop (p "text_wrap") (p "textWrap")) (SBool false);
     shrink := or_else (p "shrink") (SBool false);
     indent := or_else (p "indent") (SNum Zero);
     border := border;
     borderColor := borderColor;
     left := side left; leftColor := side_color leftColor;
     right := side right; rightColor := side_color rightColor;
     top := side top; topColor := side_color topColor;
     bottom := side bottom; bottomColor := side_color bottomColor;
     diagonalType :=
       or_else (or_prop (p "diagonal_type") (p "diagonalType")) (SNum Zero);
     diagonalBorder :=
       or_else (or_prop (p "diagonal_border") (p "diagonalBorder")) (SNum Zero);
     diagonalColor :=
       or_else (or_prop (p "diagonal_color") (p "diagonalColor")) SNull;
     pattern := or_else (p "pattern") (SNum Zero);
     bgColor := or_else (or_prop (p "bg_color") (p "bgColor")) SNull;
     fgColor := or_else (or_prop (p "fg_color") (p "fgColor")) SNull;
     locked := match p "locked" with Some v => v | None => SBool true end;
     hidden := or_else (p "hidden") (SBool false);
     xfIndex := None;
     _cachedKey := None |}.

(** The object literal handed to [JSON.stringify] in [getKey]. *)
Definition key_of (f : Format) : Key :=
  [ ("fn", to_json (fontName f)); ("fs", to_json (fontSize f));
    ("fc", to_json (fontColor f));
    ("b", to_json (bold f)); ("i", to_json (italic f));
    ("u", to_json (underline f)); ("st", to_json (fontStrikeout f));
    ("sc", to_json (fontScript f));
    ("nf", to_json (numFormat f));
    ("al", to_json (align f)); ("va", to_json (valign f));
    ("r", to_json (rotation f)); ("tw", to_json (textWrap f));
    ("sh", to_json (shrink f)); ("in", to_json (indent f));
    ("l", to_json (left f)); ("lc", to_json (leftColor f));
    ("ri", to_json (right f)); ("rc", to_json (rightColor f));
    ("t", to_json (top f)); ("tc", to_json (topColor f));
    ("bo", to_json (bottom f)); ("bc", to_json (bottomColor f));
    ("p", to_json (pattern f)); ("bg", to_json (bgColor f));
    ("fg", to_json (fgColor f));
    ("lo", to_json (locked f)); ("hi", to_json (hidden f)) ].

Definition set_cachedKey (f : Format) (k : option Key) : Format :=
  {| fontName := fontName f; fontSize := fontSize f; fontColor := fontColor f;
     bold := bold f; italic := italic f; underline := underline f;
     fontStrikeout := fontStrikeout f; fontScript := fontScript f;
     numFormat := numFormat f; numFormatIndex := numFormatIndex f;
     align := align f; valign := valign f; rotation := rotation f;
     textWrap := textWrap f; shrink := shrink f; indent := indent f;
     border := border f; borderColor := borderColor f;
     left := left f; leftColor := leftColor f;
     right := right f; rightColor := rightColor f;
     top := top f; topColor := topColor f;
     bottom := bottom f; bottomColor := bottomColor f;
     diagonalType := diagonalType f; diagonalBorder := diagonalBorder f;
     diagonalColor := diagonalColor f;
     pattern := pattern f; bgColor := bgColor f; fgColor := fgColor f;
     locked := locked f; hidden := hidden f;
     xfIndex := xfIndex f;
     _cachedKey := k |}.

Definition set_xfIndex (f : Format) (i : option nat) : Format :=
  {| fontName := fontName f; fontSize := fontSize f; fontColor := fontColor f;
     bold := bold f; italic := italic f; underline := underline f;
     fontStrikeout := fontStrikeout f; fontScript := fontScript f;
     numFormat := numFormat f; numFormatIndex := numFormatIndex f;
     align := align f; valign := valign f; rotation := rotation f;
     textWrap := textWrap f; shrink := shrink f; indent := indent f;
     border := border f; borderColor := borderColor f;
     left := left f; leftColor := leftColor f;
     right := right f; rightColor := rightColor f;
     top := top f; topColor := topColor f;
     bottom := bottom f; bottomColor := bottomColor f;
     diagonalType := diagonalType f; diagonalBorder := diagonalBorder f;
     diagonalColor := diagonalColor f;
     pattern := pattern f; bgColor := bgColor f; fgColor := fgColor f;
     locked := locked f; hidden := hidden f;
     xfIndex := i;
     _cachedKey := _cachedKey f |}.

Definition set_numFormatIndex (f : Format) (v : JsVal) : Format :=
  {| fontName := fontName f; fontSize := fontSize f; fontColor := fontColor f;
     bold := bold f; italic := italic f; underline := underline f;
     fontStrikeout := fontStrikeout f; fontScript := fontScript f;
     numFormat := numFormat f; numFormatIndex := v;
     align := align f; valign := valign f; rotation := rotation f;
     textWrap := textWrap f; shrink := shrink f; indent := indent f;
     border := border f; borderColor := borderColor f;
     left := left f; leftColor := leftColor f;
     right := right f; rightColor := rightColor f;
     top := top f; topColor := topColor f;
     bottom := bottom f; bottomColor := bottomColor f;
     diagonalType := diagonalType f; diagonalBorder := diagonalBorder f;
     diagonalColor := diagonalColor f;
     pattern := pattern f; bgColor := bgColor f; fgColor := fgColor f;
     locked := locked f; hidden := hidden f;
     xfIndex := xfIndex f;
     _cachedKey := _cachedKey f |}.

(** [format.getKey()]: the key, and the object with its cache filled. *)
Definition getKey (f : Format) : Key * Format :=
  match _cachedKey f with
  | Some k => (k, f)
  | None => let k := key_of f in (k, set_cachedKey f (Some k))
  end.

(** [NUM_FORMATS]: the built-in number format codes. *)
Definition NUM_FORMATS : Obj :=
  List.map (fun kv : string * Z => (kv.1, VNum (ofZ kv.2)))
    [ ("General", 0); ("0", 1); ("0.00", 2); ("#,##0", 3); ("#,##0.00", 4);
      ("0%", 9); ("0.00%", 10); ("0.00E+00", 11); ("# ?/?", 12);
      ("# ??/??", 13); ("mm-dd-yy", 14); ("d-mmm-yy", 15); ("d-mmm", 16);
      ("mmm-yy", 17); ("h:mm AM/PM", 18); ("h:mm:ss AM/PM", 19);
      ("h:mm", 20); ("h:mm:ss", 21); ("m/d/yy h:mm", 22);
      ("#,##0 ;(#,##0)", 37); ("#,##0 ;[Red](#,##0)", 38);
      ("#,##0.00;(#,##0.00)", 39); ("#,##0.00;[Red](#,##0.00)", 40);
      ("mm:ss", 45); ("[h]:mm:ss", 46); ("mmss.0", 47); ("##0.0E+0", 48);
      ("@", 49) ].

End Fmt.

(** ** XML text *)

Module Xml.

(** The generators build their output by concatenating element templates.
    A [Node] is one such template; [render] gives the text the JavaScript
    code produces.  [Elem] is an element written with an opening and a
    closing tag, [Empty] one written [<tag .../>], and [Raw] is text that
    is inserted as it is. *)
#[warnings="-register-all"]
Inductive Node :=
| Raw (text : string)
| Elem (tag : string) (attrs : list (string * string)) (children : list Node)
| Empty (tag : string) (attrs : list (string * string)).

Definition dquote : string := String "034"%char "".

Fixpoint render_attrs (attrs : list (string * string)) : string :=
  match attrs with
  | [] => ""
  | (name, value) :: rest =>
      " " +:+ name +:+ "=" +:+ dquote +:+ value +:+ dquote +:+ render_attrs rest
  end.

Fixpoint concat_map {A} (f : A -> string) (l : list A) : string :=
  match l with
  | [] => ""
  | x :: rest => f x +:+ concat_map f rest
  end.

Fixpoint render (n : Node) : string :=
  match n with
  | Raw text => text
  | Elem tag attrs children =>
      "<" +:+ tag +:+ render_attrs attrs +:+ ">" +:+
      concat_map render children +:+
      "</" +:+ tag +:+ ">"
  | Empty tag attrs => "<" +:+ tag +:+ render_attrs attrs +:+ "/>"
  end.

Definition render_all (nodes : list Node) : string := concat_map render nodes.

(** The elements of a forest, at any depth, in document order. *)
Fixpoint elements (n : Node) : list Node :=
  match n with
  | Raw _ => []
  | Elem _ _ children => n :: flat_map elements children
  | Empty _ _ => [n]
  end.

(** The pieces of text a node is made of, besides the markup characters:
    tags, attribute names and values, and raw text. *)
Definition attr_strings (attrs : list (string * string)) : list string :=
  flat_map (fun kv : string * string => [kv.1; kv.2]) attrs.

Fixpoint strings_of (n : Node) : list string :=
  match n with
  | Raw text => [text]
  | Elem tag attrs children =>
      tag :: attr_strings attrs ++ flat_map strings_of children
  | Empty tag attrs => tag :: attr_strings attrs
  end.

Definition tag_of (n : Node) : string :=
  match n with Raw _ => "" | Elem t _ _ | Empty t _ => t end.

Definition attrs_of (n : Node) : list (string * string) :=
  match n with Raw _ => [] | Elem _ a _ | Empty _ a => a end.

Definition children_of (n : Node) : list Node :=
  match n with Elem _ _ c => c | _ => [] end.

Fixpoint attr (attrs : list (string * string)) (name : string) : option string :=
  match attrs with
  | [] => None
  | (k, v) :: rest => if String.eqb k name then Some v else attr rest name
  end.



Definition one_of (names : list string) (t : string) : bool :=
  List.existsb (String.eqb t) names.

Definition select (wanted : list string) (nodes : list Node) : list Node :=
  List.filter (fun n => one_of wanted (tag_of n)) (flat_map elements nodes).




(** [XML_ESCAPE_MAP] *)
Definition escape_char (c : ascii) : string :=
  if Ascii.eqb c "&" then "&amp;"
  else if Ascii.eqb c "<" then "&lt;"
  else if Ascii.eqb c ">" then "&gt;"
  else if Ascii.eqb c "034" then "&quot;"
  else if Ascii.eqb c "'" then "&apos;"
  else String c "".

Fixpoint replace_chars (f : ascii -> string) (s : string) : string :=
  match s with
  | EmptyString => ""
  | String c rest => f c +:+ replace_chars f rest
  end.

(** [escapeXml(str)] for a string. *)
Definition escapeXml (str : string) : string := replace_chars escape_char str.

(** [XML_ATTR_ESCAPE_MAP] *)
Definition escape_attr_char (c : ascii) : string :=
  if Ascii.eqb c "&" then "&amp;"
  else if Ascii.eqb c "<" then "&lt;"
  else if Ascii.eqb c "034" then "&quot;"
  else String c "".

(** [escapeXmlAttr(str)] for a string. *)
Definition escapeXmlAttr (str : string) : string :=
  replace_chars escape_attr_char str.

Definition is_word_char (c : ascii) : bool :=
  Str.is_alpha c || Str.is_digit c || Ascii.eqb c "_".

Definition starts_with_digit (s : string) : bool :=
  match s with String c _ => Str.is_digit c | EmptyString => false end.

(** [escapeSheetName(name)] *)
Definition escapeSheetName (name : string) : string :=
  if negb (Str.truthy name) then "Sheet1"
  else if Str.existsb (fun c => negb (is_word_char c)) name || starts_with_digit name
  then "'" +:+
       replace_chars (fun c => if Ascii.eqb c "'" then "''" else String c "") name
       +:+ "'"
  else name.

End Xml.

(** ** Charts: configuration objects *)

Module Charts.
Import Js Xml.

(** A colour value: nothing, an [[r, g, b]] array, a string, or a packed
    number. *)
Inductive ColorValue :=
| CVNone
| CVArray (rgb : list Z)
| CVString (s : string)
| CVNumber (n : Z).

Definition color_truthy (v : ColorValue) : bool :=
  match v with
  | CVNone => false
  | CVArray _ => true
  | CVString s => Str.truthy s
  | CVNumber n => negb (n =? 0)
  end.

Record Color := { color_option : option string; color_value : ColorValue }.

Record Line := {
  line_color : option Color;
  line_width : option JsNum;
  line_dashType : option string
}.

Record Marker := {
  marker_option : option string;
  marker_type : option string;
  marker_size : option JsNum;
  marker_fillColor : option Color;
  marker_line : option Line
}.

Record DataLabels := {
  showValue : bool; showCatName : bool; showSerName : bool; showPercent : bool
}.

Record Trendline := {
  trend_type : option string;
  trend_order : option JsNum;
  trend_period : option JsNum;
  trend_forward : option JsNum;
  trend_backward : option JsNum;
  displayEquation : bool;
  displayRSquared : bool
}.

(** [series_name_text] is [series.name?.text], [series_x_values] is
    [series.x?.values], and the same for [y]. *)
Record Series := {
  series_name_text : option string;
  series_line : option Line;
  series_marker : option Marker;
  series_dataLabels : option DataLabels;
  series_trendline : option Trendline;
  series_x_values : option (list Scalar);
  series_y_values : option (list Scalar);
  series_smooth : bool
}.

(** [axis.majorGridlines] / [axis.minorGridlines]: absent, a boolean, or an
    object with [color] and [width]. *)
Inductive GridSpec :=
| GridAbsent
| GridBool (b : bool)
| GridStyle (color : option string) (width : option JsNum).

Record Axis := {
  axis_id : Z;
  axis_visible : bool;
  axis_logBase : option JsNum;
  axis_maximum : option JsNum;
  axis_minimum : option JsNum;
  axis_majorGridlines : GridSpec;
  axis_minorGridlines : GridSpec;
  axis_title_text : option string;
  axis_numberFormat : option string;
  axis_numberFormatCode : option string;
  axis_numberLinkedToSource : option bool;
  axis_minorTickMark : option string;
  axis_tickLabelFontSize : option JsNum;
  axis_fontSize : option JsNum
}.

Record Chart := {
  chart_type : option string;
  chart_subtype : option string;
  chart_title_text : option string;
  chart_xAxis : Axis;
  chart_yAxis : Axis;
  chart_x2Axis : Axis;
  chart_y2Axis : option Axis;
  chart_legend_position : option string;
  chart_legend_fontSize : option JsNum;
  chart_backgroundColor : option string;
  chart_showBorder : option bool;
  chart_scatterStyle : option string;
  chart_grouping : option string;
  chart_gapWidth : option JsNum;
  chart_overlap : option JsNum;
  chart_holeSize : option JsNum;
  chart_series : list Series;
  chart_x : Z;
  chart_y : Z;
  chart_width : option JsNum;
  chart_height : option JsNum
}.

(** The data block of the sheet that owns the chart, as [_addWorksheets]
    records it. *)
Record DataInfo := {
  startRow : Z;
  startCol : Z;
  numRows : nat;
  numCols : nat
}.

(** [a || d] for a string and for a number that may be [undefined]. *)
Definition str_or (a : option string) (d : string) : string :=
  match a with Some s => if Str.truthy s then s else d | None => d end.

Definition num_or (a : option JsNum) (d : JsNum) : JsNum :=
  match a with Some n => if num_truthy n then n else d | None => d end.

Definition opt_truthy_str (a : option string) : bool :=
  match a with Some s => Str.truthy s | None => false end.

Definition opt_truthy_num (a : option JsNum) : bool :=
  match a with Some n => num_truthy n | None => false end.

Definition PT_TO_EMU : JsNum := ofZ 12700.

(** [MARKER_TYPES] *)
Definition MARKER_TYPES : Obj :=
  List.map (fun kv : string * string => (kv.1, VStr kv.2))
    [ ("automatic", "auto"); ("none", "none"); ("circle", "circle");
      ("diamond", "diamond"); ("square", "square"); ("triangle", "triangle");
      ("x", "x"); ("star", "star"); ("plus", "plus"); ("dot", "dot");
      ("dash", "dash"); ("short_dash", "dash"); ("long_dash", "dash");
      ("picture", "picture") ].

(** [n.toString(16)] for an integer. *)
Definition toString16 (n : Z) : string :=
  let hex (m : Z) :=
    HexadecimalString.NilZero.string_of_uint (N.to_hex_uint (Z.to_N m)) in
  if n <? 0 then "-" +:+ hex (- n) else hex n.

(** [s.padStart(2, '0')] *)
Definition padStart2 (s : string) : string :=
  zeros (2 - String.length s) +:+ s.

Definition hex2 (n : Z) : string := padStart2 (toString16 n).

(** [getHexColor(colorValue)] on the arguments [toHexColor] hands over:
    [null]/[undefined] or a packed number. *)
Definition getHexColor (colorValue : option Z) : string :=
  match colorValue with
  | None => "000000"
  | Some n =>
      let r := Z.land n 255 in
      let g := Z.land (Z.shiftr n 8) 255 in
      let b := Z.land (Z.shiftr n 16) 255 in
      Str.toUpperCase (concat_map hex2 [r; g; b])
  end.

(** [toHexColor(color)]; the components of an array are integers, which
    [Math.round] leaves alone. *)
Definition toHexColor (color : ColorValue) : string :=
  match color with
  | CVArray rgb => Str.toUpperCase (concat_map hex2 rgb)
  | CVString s =>
      Str.toUpperCase (match s with String "#" rest => rest | _ => s end)
  | CVNumber n => getHexColor (Some n)
  | CVNone => getHexColor None
  end.

(** [String(v)] for what a table lookup can return. *)
Definition lookup_text (rt : Runtime) (v : JsVal) : string :=
  match v with
  | VStr s => s
  | VFun name => function_text rt name
  | _ => "[object Object]"
  end.







Section Generators.
Variable rt : Runtime.

Definition val_elem (tag value : string) : Node := Empty tag [("val", value)].

(** [_generateSolidFillXML(color)] *)
Definition _generateSolidFillXML (color : ColorValue) : list Node :=
  if negb (color_truthy color) then []
  else [Elem "a:solidFill" [] [val_elem "a:srgbClr" (toHexColor color)]].

(** [_generateLineXML(line)] *)
Definition _generateLineXML (line : option Line) : list Node :=
  match line with
  | None => []
  | Some l =>
      match line_color l with
      | None => []
      | Some color =>
          let width := match line_width l with Some w => w | None => ofZ 2 end in
          let dashType :=
            match line_dashType l with Some d => d | None => "solid" end in
          if bool_decide (color_option color = Some "None")
          then [Elem "a:ln" [] [Empty "a:noFill" []]]
          else if bool_decide (color_option color = Some "Solid")
                  && color_truthy (color_value color)
          then
            let hexColor := toHexColor (color_value color) in
            let lineWidth := js_mul rt width PT_TO_EMU in
            [Elem "a:ln" [("w", numToString lineWidth)]
               [Elem "a:solidFill" [] [val_elem "a:srgbClr" hexColor];
                val_elem "a:prstDash" dashType]]
          else []
      end
  end.

(** [_generateSeriesSpPr(series, chart)] *)
Definition _generateSeriesSpPr (series : Series) : list Node :=
  [Elem "c:spPr" [] (_generateLineXML (series_line series))].

(** [_generateBarSpPr(series)] *)
Definition _generateBarSpPr (series : Series) : list Node :=
  let fill :=
    match series_line series with
    | Some l =>
        match line_color l with
        | Some c =>
            if color_truthy (color_value c)
            then _generateSolidFillXML (color_value c) else []
        | None => []
        end
    | None => []
    end in
  [Elem "c:spPr" [] fill].

(** [_generateMarkerXML(marker, series, chart)] *)
Definition _generateMarkerXML (marker : option Marker) : list Node :=
  match marker with
  | None => [Elem "c:marker" [] [val_elem "c:symbol" "none"]]
  | Some m =>
      if bool_decide (marker_option m = Some "NoMarker")
         || bool_decide (marker_option m = Some "none")
      then [Elem "c:marker" [] [val_elem "c:symbol" "none"]]
      else if bool_decide (marker_option m = Some "Automatic")
              || bool_decide (marker_option m = Some "auto")
      then []
      else
        let looked :=
          get MARKER_TYPES
            (match marker_type m with Some t => t | None => "undefined" end) in
        let markerType :=
          if truthy looked then lookup_text rt looked
          else str_or (marker_type m) "circle" in
        let markerSize := num_or (marker_size m) (ofZ 5) in
        let fill :=
          match marker_fillColor m with
          | Some fc =>
              if bool_decide (color_option fc = Some "Solid")
                 && color_truthy (color_value fc)
              then _generateSolidFillXML (color_value fc) else []
          | None => []
          end in
        let ln :=
          match marker_line m with
          | Some l =>
              match line_color l with
              | Some c =>
                  if bool_decide (color_option c = Some "Solid")
                     && color_truthy (color_value c)
                  then
                    let hexColor := toHexColor (color_value c) in
                    let lineWidth :=
                      js_mul rt (num_or (line_width l) (Fin false 75 (-2)))
                        PT_TO_EMU in
                    [Elem "a:ln" [("w", numToString lineWidth)]
                       [Elem "a:solidFill" [] [val_elem "a:srgbClr" hexColor]]]
                  else []
              | None => []
              end
          | None => []
          end in
        let spPr :=
          match marker_fillColor m, marker_line m with
          | None, None => []
          | _, _ => [Elem "c:spPr" [] (fill ++ ln)]
          end in
        [Elem "c:marker" []
           ([val_elem "c:symbol" markerType;
             val_elem "c:size" (numToString markerSize)] ++ spPr)]
  end.

(** The test [val !== null && val !== undefined && !isNaN(val)]. *)
Definition is_point (val : Scalar) : bool :=
  match val with
  | SNull => false
  | SBool _ => true
  | SNum n => negb (isNaN n)
  | SStr s => negb (isNaN_text rt s)
  end.

Fixpoint numeric_points (idx : nat) (values : list Scalar) : list Node :=
  match values with
  | [] => []
  | val :: rest =>
      (if is_point val
       then [Elem "c:pt" [("idx", Str.ofNat idx)]
               [Elem "c:v" [] [Raw (scalar_to_string val)]]]
       else []) ++ numeric_points (S idx) rest
  end.

(** [_generateNumericPointsXML(values)] *)
Definition _generateNumericPointsXML (values : list Scalar) : list Node :=
  [Elem "c:formatCode" [] [Raw "General"];
   val_elem "c:ptCount" (Str.ofNat (length values))]
  ++ numeric_points 0 values.

(** [xlColumn(col)]: the letters, whatever the column cache holds (see
    [xlColumn_value] below). *)
Definition xlColumn (col : Z) : string := Codec.xlColumn_loop col "".

(** [_generateCellRange(sheetName, col, startRow, endRow)] *)
Definition _generateCellRange (sheetName : string) (col startRow endRow : Z)
  : string :=
  let colLetter := xlColumn col in
  let safeSheetName := escapeSheetName sheetName in
  safeSheetName +:+ "!$" +:+ colLetter +:+ "$" +:+ Str.ofZ startRow +:+
  ":$" +:+ colLetter +:+ "$" +:+ Str.ofZ endRow.

(** [dataInfo?.numRows > 1] *)
Definition has_rows (dataInfo : option DataInfo) : option DataInfo :=
  match dataInfo with
  | Some d => if (1 <? numRows d)%nat then Some d else None
  | None => None
  end.

Definition nonempty_values (v : option (list Scalar)) : option (list Scalar) :=
  match v with
  | Some (x :: l) => Some (x :: l)
  | _ => None
  end.

(** [_generateXValXML(series, index, sheetName, dataInfo)] *)
Definition _generateXValXML (series : Series) (index : nat)
    (sheetName : string) (dataInfo : option DataInfo) : list Node :=
  match has_rows dataInfo with
  | Some d =>
      let startRow' := startRow d + 1 in
      let endRow := startRow d + Z.of_nat (numRows d) - 1 in
      let range := _generateCellRange sheetName (startCol d) startRow' endRow in
      [Elem "c:xVal" [] [Elem "c:numRef" [] [Elem "c:f" [] [Raw range]]]]
  | None =>
      match nonempty_values (series_x_values series) with
      | Some values =>
          [Elem "c:xVal" []
             [Elem "c:numLit" [] (_generateNumericPointsXML values)]]
      | None => []
      end
  end.

(** [_generateYValXML(series, index, sheetName, dataInfo)] *)
Definition _generateYValXML (series : Series) (index : nat)
    (sheetName : string) (dataInfo : option DataInfo) : list Node :=
  match has_rows dataInfo with
  | Some d =>
      let startRow' := startRow d + 1 in
      let endRow := startRow d + Z.of_nat (numRows d) - 1 in
      let range :=
        _generateCellRange sheetName (startCol d + Z.of_nat index + 1)
          startRow' endRow in
      [Elem "c:yVal" [] [Elem "c:numRef" [] [Elem "c:f" [] [Raw range]]]]
  | None =>
      match nonempty_values (series_y_values series) with
      | Some values =>
          [Elem "c:yVal" []
             [Elem "c:numLit" [] (_generateNumericPointsXML values)]]
      | None => []
      end
  end.

Fixpoint cat_points (isString : bool) (idx : nat) (values : list Scalar)
  : list Node :=
  match values with
  | [] => []
  | val :: rest =>
      Elem "c:pt" [("idx", Str.ofNat idx)]
        [Elem "c:v" []
           [Raw (if isString then escapeXml (scalar_to_string val)
                 else scalar_to_string val)]]
      :: cat_points isString (S idx) rest
  end.

(** [_generateCatXML(series, index, sheetName, dataInfo)] *)
Definition _generateCatXML (series : Series) : list Node :=
  match nonempty_values (series_x_values series) with
  | None => []
  | Some values =>
      let isString :=
        match values with SStr _ :: _ => true | _ => false end in
      let points := cat_points isString 0 values in
      if isString
      then [Elem "c:cat" []
              [Elem "c:strLit" []
                 (val_elem "c:ptCount" (Str.ofNat (length values)) :: points)]]
      else [Elem "c:cat" []
              [Elem "c:numLit" []
                 (Elem "c:formatCode" [] [Raw "General"]
                  :: val_elem "c:ptCount" (Str.ofNat (length values))
                  :: points)]]
  end.

(** [_generateValXML(series, index, sheetName, dataInfo)] *)
Definition _generateValXML (series : Series) : list Node :=
  match nonempty_values (series_y_values series) with
  | None => []
  | Some values =>
      [Elem "c:val" [] [Elem "c:numLit" [] (_generateNumericPointsXML values)]]
  end.

(** [_generateDataLabelsXML(dataLabels)] *)
Definition _generateDataLabelsXML (dataLabels : DataLabels) : list Node :=
  [Elem "c:dLbls" []
     ((if showValue dataLabels then [val_elem "c:showVal" "1"] else []) ++
      (if showCatName dataLabels then [val_elem "c:showCatName" "1"] else []) ++
      (if showSerName dataLabels then [val_elem "c:showSerName" "1"] else []) ++
      (if showPercent dataLabels then [val_elem "c:showPercent" "1"] else []) ++
      [val_elem "c:showLegendKey" "0"])].

(** [_generateTrendlineXML(trendline)] *)
Definition _generateTrendlineXML (trendline : Trendline) : list Node :=
  let type := str_or (trend_type trendline) "linear" in
  let when_num (tag : string) (v : option JsNum) : list Node :=
    match v with
    | Some n => if num_truthy n then [val_elem tag (numToString n)] else []
    | None => []
    end in
  [Elem "c:trendline" []
     ([val_elem "c:trendlineType" type] ++
      (if String.eqb type "poly"
       then when_num "c:order" (trend_order trendline) else []) ++
      (if String.eqb type "movingAvg"
       then when_num "c:period" (trend_period trendline) else []) ++
      when_num "c:forward" (trend_forward trendline) ++
      when_num "c:backward" (trend_backward trendline) ++
      (if displayEquation trendline then [val_elem "c:dispEq" "1"] else []) ++
      (if displayRSquared trendline then [val_elem "c:dispRSqr" "1"] else []))].

(** [_generateSeriesNameXML(series, index, sheetName, dataInfo)] *)
Definition _generateSeriesNameXML (series : Series) (index : nat)
    (sheetName : string) (dataInfo : option DataInfo) : list Node :=
  match series_name_text series with
  | None => []
  | Some text =>
      if negb (Str.truthy text) then []
      else
        match has_rows dataInfo with
        | Some d =>
            let headerCol := xlColumn (startCol d + Z.of_nat index + 1) in
            let headerRow := startRow d in
            let safeSheetName := escapeSheetName sheetName in
            [Elem "c:tx" []
               [Elem "c:strRef" []
                  [Elem "c:f" []
                     [Raw (safeSheetName +:+ "!$" +:+ headerCol +:+ "$" +:+
                           Str.ofZ headerRow)]]]]
        | None => [Elem "c:tx" [] [Elem "c:v" [] [Raw (escapeXml text)]]]
        end
  end.

(** [_generateSeriesHeader(series, index, sheetName, dataInfo)]: what
    follows the opening [<c:ser>] tag. *)
Definition _generateSeriesHeader (series : Series) (index : nat)
    (sheetName : string) (dataInfo : option DataInfo) : list Node :=
  [val_elem "c:idx" (Str.ofNat index); val_elem "c:order" (Str.ofNat index)]
  ++ _generateSeriesNameXML series index sheetName dataInfo.

Definition smooth_elem (series : Series) : Node :=
  val_elem "c:smooth" (if series_smooth series then "1" else "0").

(** [_generateScatterSeriesXML(series, index, sheetName, dataInfo, chart)] *)
Definition _generateScatterSeriesXML (series : Series) (index : nat)
    (sheetName : string) (dataInfo : option DataInfo) : Node :=
  Elem "c:ser" []
    (_generateSeriesHeader series index sheetName dataInfo ++
     _generateSeriesSpPr series ++
     _generateMarkerXML (series_marker series) ++
     match series_dataLabels series with
     | Some d => _generateDataLabelsXML d | None => [] end ++
     match series_trendline series with
     | Some t => _generateTrendlineXML t | None => [] end ++
     _generateXValXML series index sheetName dataInfo ++
     _generateYValXML series index sheetName dataInfo ++
     [smooth_elem series]).

(** [_generateLineSeriesXML(series, index, sheetName, dataInfo, chart)] *)
Definition _generateLineSeriesXML (series : Series) (index : nat)
    (sheetName : string) (dataInfo : option DataInfo) : Node :=
  Elem "c:ser" []
    (_generateSeriesHeader series index sheetName dataInfo ++
     _generateSeriesSpPr series ++
     _generateMarkerXML (series_marker series) ++
     _generateCatXML series ++
     _generateValXML series ++
     [smooth_elem series]).

(** [_generateBarSeriesXML] and [_generateAreaSeriesXML], which have the
    same body. *)
Definition _generateBarSeriesXML (series : Series) (index : nat)
    (sheetName : string) (dataInfo : option DataInfo) : Node :=
  Elem "c:ser" []
    (_generateSeriesHeader series index sheetName dataInfo ++
     _generateBarSpPr series ++
     _generateCatXML series ++
     _generateValXML series).

Definition _generateAreaSeriesXML := _generateBarSeriesXML.

(** [_generatePieSeriesXML(series, index, sheetName, dataInfo)] *)
Definition _generatePieSeriesXML (series : Series) (index : nat)
    (sheetName : string) (dataInfo : option DataInfo) : Node :=
  Elem "c:ser" []
    (_generateSeriesHeader series index sheetName dataInfo ++
     _generateCatXML series ++
     _generateValXML series).

(** The [for (let i = 0; i < chart.series.length; i++)] loops. *)
Fixpoint each_series (gen : Series -> nat -> Node) (i : nat)
    (series : list Series) : list Node :=
  match series with
  | [] => []
  | s :: rest => gen s i :: each_series gen (S i) rest
  end.

Definition axis_refs (chart : Chart) : list Node :=
  [val_elem "c:axId" (Str.ofZ (axis_id (chart_xAxis chart)));
   val_elem "c:axId" (Str.ofZ (axis_id (chart_yAxis chart)))].

(** [_generateScatterChartXML(chart, sheetName, dataInfo)] *)
Definition _generateScatterChartXML (chart : Chart) (sheetName : string)
    (dataInfo : option DataInfo) : list Node :=
  let scatterStyle := str_or (chart_scatterStyle chart) "lineMarker" in
  [Elem "c:scatterChart" []
     ([val_elem "c:scatterStyle" scatterStyle; val_elem "c:varyColors" "0"] ++
      each_series
        (fun s i => _generateScatterSeriesXML s i sheetName dataInfo) 0
        (chart_series chart) ++
      axis_refs chart)].

(** [_generateLineChartXML(chart, sheetName, dataInfo)] *)
Definition _generateLineChartXML (chart : Chart) (sheetName : string)
    (dataInfo : option DataInfo) : list Node :=
  let grouping := str_or (chart_grouping chart) "standard" in
  [Elem "c:lineChart" []
     ([val_elem "c:grouping" grouping; val_elem "c:varyColors" "0"] ++
      each_series
        (fun s i => _generateLineSeriesXML s i sheetName dataInfo) 0
        (chart_series chart) ++
      [val_elem "c:marker" "1"] ++
      axis_refs chart)].

(** [_generateBarChartXML(chart, sheetName, dataInfo, chartType)] *)
Definition _generateBarChartXML (chart : Chart) (sheetName : string)
    (dataInfo : option DataInfo) (chartType : string) : list Node :=
  let barDir := if String.eqb chartType "bar" then "bar" else "col" in
  let grouping := str_or (chart_grouping chart) "clustered" in
  [Elem "c:barChart" []
     ([val_elem "c:barDir" barDir; val_elem "c:grouping" grouping;
       val_elem "c:varyColors" "0"] ++
      each_series
        (fun s i => _generateBarSeriesXML s i sheetName dataInfo) 0
        (chart_series chart) ++
      [val_elem "c:gapWidth"
         (numToString (num_or (chart_gapWidth chart) (ofZ 150)))] ++
      (if String.eqb grouping "clustered" || String.eqb grouping "stacked"
          || String.eqb grouping "percentStacked"
       then [val_elem "c:overlap"
               (numToString (num_or (chart_overlap chart) Zero))]
       else []) ++
      axis_refs chart)].

(** [_generateAreaChartXML(chart, sheetName, dataInfo)] *)
Definition _generateAreaChartXML (chart : Chart) (sheetName : string)
    (dataInfo : option DataInfo) : list Node :=
  let grouping := str_or (chart_grouping chart) "standard" in
  [Elem "c:areaChart" []
     ([val_elem "c:grouping" grouping; val_elem "c:varyColors" "0"] ++
      each_series
        (fun s i => _generateAreaSeriesXML s i sheetName dataInfo) 0
        (chart_series chart) ++
      axis_refs chart)].

(** [_generatePieChartXML(chart, sheetName, dataInfo)] *)
Definition _generatePieChartXML (chart : Chart) (sheetName : string)
    (dataInfo : option DataInfo) : list Node :=
  [Elem "c:pieChart" []
     ([val_elem "c:varyColors" "1"] ++
      each_series
        (fun s i => _generatePieSeriesXML s i sheetName dataInfo) 0
        (chart_series chart) ++
      [val_elem "c:firstSliceAng" "0"])].

(** [_generateDoughnutChartXML(chart, sheetName, dataInfo)] *)
Definition _generateDoughnutChartXML (chart : Chart) (sheetName : string)
    (dataInfo : option DataInfo) : list Node :=
  [Elem "c:doughnutChart" []
     ([val_elem "c:varyColors" "1"] ++
      each_series
        (fun s i => _generatePieSeriesXML s i sheetName dataInfo) 0
        (chart_series chart) ++
      [val_elem "c:firstSliceAng" "0";
       val_elem "c:holeSize"
         (numToString (num_or (chart_holeSize chart) (ofZ 50)))])].

(** [_generateChartTypeXML(chart, chartType, sheetName, dataInfo)] *)
Definition _generateChartTypeXML (chart : Chart) (chartType : string)
    (sheetName : string) (dataInfo : option DataInfo) : list Node :=
  if String.eqb chartType "scatter"
  then _generateScatterChartXML chart sheetName dataInfo
  else if String.eqb chartType "line"
  then _generateLineChartXML chart sheetName dataInfo
  else if String.eqb chartType "column" || String.eqb chartType "bar"
  then _generateBarChartXML chart sheetName dataInfo chartType
  else if String.eqb chartType "area"
  then _generateAreaChartXML chart sheetName dataInfo
  else if String.eqb chartType "pie"
  then _generatePieChartXML chart sheetName dataInfo
  else if String.eqb chartType "doughnut"
  then _generateDoughnutChartXML chart sheetName dataInfo
  else _generateScatterChartXML chart sheetName dataInfo.

(** The three [replace] calls that escape a number format code. *)
Definition escape_format_code (code : string) : string :=
  let pass (c : ascii) (r : string) (s : string) :=
    replace_chars (fun x => if Ascii.eqb x c then r else String x "") s in
  pass "034"%char "&quot;" (pass "<"%char "&lt;" (pass "&"%char "&amp;" code)).

Definition isLogScale (axis : Axis) : bool :=
  match axis_logBase axis with
  | Some b => num_truthy b && negb (isNaN b) && gtZ b 1
  | None => false
  end.

(** [position === 'b' || position === 't'], and the choice of a category
    axis. *)
Definition isXAxis (position : string) : bool :=
  String.eqb position "b" || String.eqb position "t".

Definition useCategoryAxis (position chartType : string) : bool :=
  isXAxis position && negb (String.eqb chartType "scatter").

Definition scaling_children (axis : Axis) (category : bool) : list Node :=
  (if isLogScale axis && negb category
   then match axis_logBase axis with
        | Some b => [val_elem "c:logBase" (numToString b)]
        | None => []
        end
   else []) ++
  [val_elem "c:orientation" "minMax"] ++
  (if negb category
   then
     match axis_maximum axis with
     | Some m => if negb (isNaN m) then [val_elem "c:max" (numToString m)] else []
     | None => []
     end ++
     match axis_minimum axis with
     | Some m => if negb (isNaN m) then [val_elem "c:min" (numToString m)] else []
     | None => []
     end
   else []).

Definition gridline_style (g : GridSpec) (defaultColor : string)
    (defaultWidth : JsNum) : list Node :=
  match g with
  | GridStyle color width =>
      if opt_truthy_str color || opt_truthy_num width
      then
        let color' := str_or color defaultColor in
        let width' := js_round rt (js_mul rt (num_or width defaultWidth) (ofZ 12700)) in
        [Elem "c:spPr" []
           [Elem "a:ln" [("w", numToString width')]
              [Elem "a:solidFill" [] [val_elem "a:srgbClr" color']]]]
      else []
  | _ => []
  end.

(** [g !== false] *)
Definition grid_not_false (g : GridSpec) : bool :=
  match g with GridBool false => false | _ => true end.

Definition grid_truthy (g : GridSpec) : bool :=
  match g with
  | GridAbsent => false
  | GridBool b => b
  | GridStyle _ _ => true
  end.

Definition title_nodes (text : option string) : list Node :=
  match text with
  | Some t =>
      if Str.truthy t
      then [Elem "c:title" []
              [Elem "c:tx" []
                 [Elem "c:rich" []
                    [Empty "a:bodyPr" []; Empty "a:lstStyle" [];
                     Elem "a:p" []
                       [Elem "a:pPr" [] [Empty "a:defRPr" []];
                        Elem "a:r" []
                          [Empty "a:rPr" [("lang", "en-US")];
                           Elem "a:t" [] [Raw (escapeXml t)]]]]];
               Empty "c:layout" []; val_elem "c:overlay" "0"]]
      else []
  | None => []
  end.

Definition text_properties (size : JsNum) : Node :=
  Elem "c:txPr" []
    [Empty "a:bodyPr" []; Empty "a:lstStyle" [];
     Elem "a:p" []
       [Elem "a:pPr" []
          [Empty "a:defRPr" [("sz", numToString (js_mul rt size (ofZ 100)))]];
        Empty "a:endParaRPr" [("lang", "en-US")]]].

(** [_generateAxisXML(axis, position, crossAxisId, chartType, isSecondary)] *)
Definition _generateAxisXML (axis : Axis) (position : string)
    (crossAxisId : Z) (chartType : string) (isSecondary : bool) : Node :=
  let category := useCategoryAxis position chartType in
  let numFmtCode :=
    str_or (axis_numberFormat axis)
      (str_or (axis_numberFormatCode axis) "General") in
  let sourceLinked :=
    if opt_truthy_str (axis_numberFormat axis)
       || bool_decide (axis_numberLinkedToSource axis = Some false)
    then "0" else "1" in
  let minorTickMark := str_or (axis_minorTickMark axis) "none" in
  let tickLblFontSize :=
    num_or (axis_tickLabelFontSize axis) (num_or (axis_fontSize axis) (ofZ 10)) in
  Elem (if category then "c:catAx" else "c:valAx") []
    ([val_elem "c:axId" (Str.ofZ (axis_id axis));
      Elem "c:scaling" [] (scaling_children axis category);
      val_elem "c:delete" "0";
      val_elem "c:axPos" position] ++
     (if negb category && grid_not_false (axis_majorGridlines axis)
      then [Elem "c:majorGridlines" []
              (gridline_style (axis_majorGridlines axis) "D9D9D9"
                 (Fin false 75 (-2)))]
      else []) ++
     (if negb category && grid_truthy (axis_minorGridlines axis)
      then [Elem "c:minorGridlines" []
              (gridline_style (axis_minorGridlines axis) "E5E5E5"
                 (Fin false 5 (-1)))]
      else []) ++
     title_nodes (axis_title_text axis) ++
     [Empty "c:numFmt"
        [("formatCode", escape_format_code numFmtCode);
         ("sourceLinked", sourceLinked)];
      val_elem "c:majorTickMark" "out";
      val_elem "c:minorTickMark" minorTickMark;
      val_elem "c:tickLblPos" "nextTo";
      text_properties tickLblFontSize;
      val_elem "c:crossAx" (Str.ofZ crossAxisId);
      val_elem "c:crosses" "autoZero"] ++
     (if category
      then [val_elem "c:auto" "1"; val_elem "c:lblAlgn" "ctr";
            val_elem "c:lblOffset" "100"]
      else [val_elem "c:crossBetween" "midCat"])).

Definition chart_type_or_scatter (chart : Chart) : string :=
  str_or (chart_type chart) "scatter".

Definition secondary_visible (chart : Chart) : option Axis :=
  match chart_y2Axis chart with
  | Some y2 => if axis_visible y2 then Some y2 else None
  | None => None
  end.

(** [_generateChartXML(chart, sheetName, dataInfo)] *)
Definition _generateChartXML (chart : Chart) (sheetName : string)
    (dataInfo : option DataInfo) : list Node :=
  let chartType := chart_type_or_scatter chart in
  let legendPos := str_or (chart_legend_position chart) "r" in
  let bgColor := str_or (chart_backgroundColor chart) "FFFFFF" in
  [Raw ("<?xml version=" +:+ dquote +:+ "1.0" +:+ dquote +:+ " encoding=" +:+
        dquote +:+ "UTF-8" +:+ dquote +:+ " standalone=" +:+ dquote +:+ "yes"
        +:+ dquote +:+ "?>" +:+ String "010"%char "");
   Elem "c:chartSpace"
     [("xmlns:c", "http://schemas.openxmlformats.org/drawingml/2006/chart");
      ("xmlns:a", "http://schemas.openxmlformats.org/drawingml/2006/main");
      ("xmlns:r",
       "http://schemas.openxmlformats.org/officeDocument/2006/relationships")]
     [val_elem "c:date1904" "0";
      val_elem "c:lang" "en-US";
      val_elem "c:roundedCorners" "0";
      Elem "c:chart" []
        ((if opt_truthy_str (chart_title_text chart)
          then title_nodes (chart_title_text chart) ++
               [val_elem "c:autoTitleDeleted" "0"]
          else [val_elem "c:autoTitleDeleted" "1"]) ++
         [Elem "c:plotArea" []
            ([Empty "c:layout" []] ++
             _generateChartTypeXML chart chartType sheetName dataInfo ++
             [_generateAxisXML (chart_xAxis chart) "b"
                (axis_id (chart_yAxis chart)) chartType false;
              _generateAxisXML (chart_yAxis chart) "l"
                (axis_id (chart_xAxis chart)) chartType false] ++
             match secondary_visible chart with
             | Some y2 =>
                 [_generateAxisXML (chart_x2Axis chart) "t" (axis_id y2)
                    chartType true;
                  _generateAxisXML y2 "r" (axis_id (chart_x2Axis chart))
                    chartType true]
             | None => []
             end)] ++
         (if negb (String.eqb legendPos "none")
          then [Elem "c:legend" []
                  [val_elem "c:legendPos" legendPos;
                   Empty "c:layout" [];
                   val_elem "c:overlay" "0";
                   text_properties
                     (num_or (chart_legend_fontSize chart) (ofZ 10))]]
          else []) ++
         [val_elem "c:plotVisOnly" "1";
          val_elem "c:dispBlanksAs" "gap";
          val_elem "c:showDLblsOverMax" "0"]);
      Elem "c:spPr" []
        ([Elem "a:solidFill" [] [val_elem "a:srgbClr" bgColor]] ++
         (if bool_decide (chart_showBorder chart = Some false)
          then [Elem "a:ln" [] [Empty "a:noFill" []]] else []));
      Elem "c:printSettings" []
        [Empty "c:headerFooter" [];
         Empty "c:pageMargins"
           [("b", "0.75"); ("l", "0.7"); ("r", "0.7"); ("t", "0.75");
            ("header", "0.3"); ("footer", "0.3")];
         Empty "c:pageSetup" []]]].

End Generators.
End Charts.

(** ** The workbook: [class XlsxWriter] *)

Module Workbook.
Import Js.

(** An argument of a public method: a plain value, or a [Format] object
    (given by its [xfIndex], which never changes once the object exists). *)
Inductive Arg :=
| AVal (v : JsVal)
| AFormat (xfIndex : option nat).

Definition arg_truthy (a : Arg) : bool :=
  match a with AVal v => truthy v | AFormat _ => true end.

(** [typeof a === 'string'] and [typeof a === 'object'] *)
Definition is_string (a : Arg) : bool :=
  match a with AVal (VStr _) => true | _ => false end.

Definition is_object (a : Arg) : bool :=
  match a with
  | AVal (VNull | VArr _ | VObj _) => true
  | AFormat _ => true
  | _ => false
  end.

(** [a instanceof Format] *)
Definition is_Format (a : Arg) : bool :=
  match a with AFormat _ => true | _ => false end.

Definition undefined : Arg := AVal VUndefined.

(** [a.xfIndex], for an [a] that is truthy. *)
Definition arg_xfIndex (a : Arg) : JsVal :=
  match a with
  | AFormat (Some i) => VNum (ofZ (Z.of_nat i))
  | AFormat None => VNull
  | AVal (VObj o) => get o "xfIndex"
  | AVal _ => VUndefined
  end.

(** A cell of the grid: [{ value, type, format }] and, for formulas,
    [isFormula: true]. *)
Record Cell := {
  cell_value : Arg;
  cell_type : string;
  cell_isFormula : bool;
  cell_format : Arg
}.

Record Sheet := {
  name : string;
  data : list (list (option Cell));
  startRow : Z;
  startCol : Z;
  chart : option Charts.Chart
}.

(** An entry of [this.charts], pushed by [_addWorksheets]. *)
Record ChartInfo := {
  ci_chart : Charts.Chart;
  ci_sheetIndex : nat;
  ci_sheetName : string;
  ci_dataInfo : Charts.DataInfo
}.

Record ColumnInfo := {
  col_width : option JsNum; col_format : Arg; col_hidden : bool
}.

Record RowInfo := {
  row_height : option JsNum; row_format : Arg; row_hidden : bool
}.

Record MergeCell := {
  merge_startRow : Z; merge_startCol : Z; merge_endRow : Z; merge_endCol : Z
}.

(** The fields of an [XlsxWriter].  [zip] holds the names of the archive
    entries added with [zip.file(name, body)], in order; the bodies are not
    part of the state.  [comments], [currentSheetId] and [images] are never
    read by the methods modelled here and are left out. *)
Record Writer := {
  filename : string;
  zip : list string;
  sheets : list Sheet;
  sheetMap : gmap string nat;
  sharedStrings : list string;
  sharedStringsMap : gmap string nat;
  charts : list ChartInfo;
  formats : list Fmt.Format;
  formatMap : gmap (list (string * Json)) nat;
  customNumFormats : gmap Scalar Z;
  nextNumFormatId : Z;
  _defaultFormat : option nat;
  columnInfo : gmap nat (gmap Z ColumnInfo);
  rowInfo : gmap nat (gmap Z RowInfo);
  mergeCells : gmap nat (list MergeCell)
}.

Definition with_zip (w : Writer) (v : list string) : Writer :=
  {| filename := filename w; zip := v; sheets := sheets w;
     sheetMap := sheetMap w; sharedStrings := sharedStrings w;
     sharedStringsMap := sharedStringsMap w; charts := charts w;
     formats := formats w; formatMap := formatMap w;
     customNumFormats := customNumFormats w;
     nextNumFormatId := nextNumFormatId w;
     _defaultFormat := _defaultFormat w; columnInfo := columnInfo w;
     rowInfo := rowInfo w; mergeCells := mergeCells w |}.

Definition with_sheets (w : Writer) (v : list Sheet) : Writer :=
  {| filename := filename w; zip := zip w; sheets := v;
     sheetMap := sheetMap w; sharedStrings := sharedStrings w;
     sharedStringsMap := sharedStringsMap w; charts := charts w;
     formats := formats w; formatMap := formatMap w;
     customNumFormats := customNumFormats w;
     nextNumFormatId := nextNumFormatId w;
     _defaultFormat := _defaultFormat w; columnInfo := columnInfo w;
     rowInfo := rowInfo w; mergeCells := mergeCells w |}.

Definition with_sheetMap (w : Writer) (v : gmap string nat) : Writer :=
  {| filename := filename w; zip := zip w; sheets := sheets w;
     sheetMap := v; sharedStrings := sharedStrings w;
     sharedStringsMap := sharedStringsMap w; charts := charts w;
     formats := formats w; formatMap := formatMap w;
     customNumFormats := customNumFormats w;
     nextNumFormatId := nextNumFormatId w;
     _defaultFormat := _defaultFormat w; columnInfo := columnInfo w;
     rowInfo := rowInfo w; mergeCells := mergeCells w |}.

Definition with_sharedStrings (w : Writer) (l : list string)
    (m : gmap string nat) : Writer :=
  {| filename := filename w; zip := zip w; sheets := sheets w;
     sheetMap := sheetMap w; sharedStrings := l;
     sharedStringsMap := m; charts := charts w;
     formats := formats w; formatMap := formatMap w;
     customNumFormats := customNumFormats w;
     nextNumFormatId := nextNumFormatId w;
     _defaultFormat := _defaultFormat w; columnInfo := columnInfo w;
     rowInfo := rowInfo w; mergeCells := mergeCells w |}.

Definition with_charts (w : Writer) (v : list ChartInfo) : Writer :=
  {| filename := filename w; zip := zip w; sheets := sheets w;
     sheetMap := sheetMap w; sharedStrings := sharedStrings w;
     sharedStringsMap := sharedStringsMap w; charts := v;
     formats := formats w; formatMap := formatMap w;
     customNumFormats := customNumFormats w;
     nextNumFormatId := nextNumFormatId w;
     _defaultFormat := _defaultFormat w; columnInfo := columnInfo w;
     rowInfo := rowInfo w; mergeCells := mergeCells w |}.

Definition with_formats (w : Writer) (l : list Fmt.Format)
    (m : gmap (list (string * Json)) nat) : Writer :=
  {| filename := filename w; zip := zip w; sheets := sheets w;
     sheetMap := sheetMap w; sharedStrings := sharedStrings w;
     sharedStringsMap := sharedStringsMap w; charts := charts w;
     formats := l; formatMap := m;
     customNumFormats := customNumFormats w;
     nextNumFormatId := nextNumFormatId w;
     _defaultFormat := _defaultFormat w; columnInfo := columnInfo w;
     rowInfo := rowInfo w; mergeCells := mergeCells w |}.

Definition with_numFormats (w : Writer) (m : gmap Scalar Z) (next : Z)
  : Writer :=
  {| filename := filename w; zip := zip w; sheets := sheets w;
     sheetMap := sheetMap w; sharedStrings := sharedStrings w;
     sharedStringsMap := sharedStringsMap w; charts := charts w;
     formats := formats w; formatMap := formatMap w;
     customNumFormats := m;
     nextNumFormatId := next;
     _defaultFormat := _defaultFormat w; columnInfo := columnInfo w;
     rowInfo := rowInfo w; mergeCells := mergeCells w |}.

Definition with_defaultFormat (w : Writer) (v : option nat) : Writer :=
  {| filename := filename w; zip := zip w; sheets := sheets w;
     sheetMap := sheetMap w; sharedStrings := sharedStrings w;
     sharedStringsMap := sharedStringsMap w; charts := charts w;
     formats := formats w; formatMap := formatMap w;
     customNumFormats := customNumFormats w;
     nextNumFormatId := nextNumFormatId w;
     _defaultFormat := v; columnInfo := columnInfo w;
     rowInfo := rowInfo w; mergeCells := mergeCells w |}.

Definition with_columnInfo (w : Writer) (v : gmap nat (gmap Z ColumnInfo))
  : Writer :=
  {| filename := filename w; zip := zip w; sheets := sheets w;
     sheetMap := sheetMap w; sharedStrings := sharedStrings w;
     sharedStringsMap := sharedStringsMap w; charts := charts w;
     formats := formats w; formatMap := formatMap w;
     customNumFormats := customNumFormats w;
     nextNumFormatId := nextNumFormatId w;
     _defaultFormat := _defaultFormat w; columnInfo := v;
     rowInfo := rowInfo w; mergeCells := mergeCells w |}.

Definition with_rowInfo (w : Writer) (v : gmap nat (gmap Z RowInfo))
  : Writer :=
  {| filename := filename w; zip := zip w; sheets := sheets w;
     sheetMap := sheetMap w; sharedStrings := sharedStrings w;
     sharedStringsMap := sharedStringsMap w; charts := charts w;
     formats := formats w; formatMap := formatMap w;
     customNumFormats := customNumFormats w;
     nextNumFormatId := nextNumFormatId w;
     _defaultFormat := _defaultFormat w; columnInfo := columnInfo w;
     rowInfo := v; mergeCells := mergeCells w |}.

Definition with_mergeCells (w : Writer) (v : gmap nat (list MergeCell))
  : Writer :=
  {| filename := filename w; zip := zip w; sheets := sheets w;
     sheetMap := sheetMap w; sharedStrings := sharedStrings w;
     sharedStringsMap := sharedStringsMap w; charts := charts w;
     formats := formats w; formatMap := formatMap w;
     customNumFormats := customNumFormats w;
     nextNumFormatId := nextNumFormatId w;
     _defaultFormat := _defaultFormat w; columnInfo := columnInfo w;
     rowInfo := rowInfo w; mergeCells := v |}.

(** *** Format registration *)

(** The part of [addFormat] headed [// Handle custom number format]: the
    format with its [numFormatIndex], the custom formats and the next id. *)
Definition assign_numFormatIndex (w : Writer) (format : Fmt.Format)
  : Fmt.Format * gmap Scalar Z * Z :=
  let nf := Fmt.numFormat format in
  if scalar_truthy nf && negb (bool_decide (nf = SStr "General"))
  then
    match get Fmt.NUM_FORMATS (scalar_to_string nf) with
    | VUndefined =>
        match customNumFormats w !! nf with
        | None =>
            (Fmt.set_numFormatIndex format (VNum (ofZ (nextNumFormatId w))),
             <[nf := nextNumFormatId w]> (customNumFormats w),
             nextNumFormatId w + 1)
        | Some id =>
            (Fmt.set_numFormatIndex format (VNum (ofZ id)),
             customNumFormats w, nextNumFormatId w)
        end
    | builtin =>
        (Fmt.set_numFormatIndex format builtin,
         customNumFormats w, nextNumFormatId w)
    end
  else (format, customNumFormats w, nextNumFormatId w).

(** [addFormat(properties)]: the handle returned is the position of the
    [Format] object in [this.formats]; the object itself is
    [this.formats[handle]].  The object pushed onto [formats] is the one
    whose [numFormatIndex] is then assigned. *)
Definition addFormat (w : Writer) (properties : Fmt.Properties)
  : nat * Writer :=
  let format := Fmt.new_Format properties in
  let '(key, format) := Fmt.getKey format in
  match formatMap w !! key with
  | Some index => (index, w)
  | None =>
      let index := length (formats w) in
      let format := Fmt.set_xfIndex format (Some index) in
      let '(format, customs, next) := assign_numFormatIndex w format in
      (index,
       with_numFormats
         (with_formats w (formats w ++ [format]) (<[key := index]> (formatMap w)))
         customs next)
  end.

(** [new XlsxWriter(filename)], with JSZip available. *)
Definition new_XlsxWriter (file : string) : Writer :=
  let w :=
    {| filename := if Str.endsWith ".xlsx" file then file else file +:+ ".xlsx";
       zip := []; sheets := []; sheetMap := ∅;
       sharedStrings := []; sharedStringsMap := ∅; charts := [];
       formats := []; formatMap := ∅; customNumFormats := ∅;
       nextNumFormatId := 164; _defaultFormat := None;
       columnInfo := ∅; rowInfo := ∅; mergeCells := ∅ |} in
  let '(h, w) := addFormat w [] in
  with_defaultFormat w (Some h).

(** *** Sheets and cells *)

(** A method either returns or throws; either way the writer keeps the
    changes made so far. *)
Inductive Outcome (A : Type) :=
| Return (a : A)
| Throw (error : string).
Arguments Return {A} a.
Arguments Throw {A} error.

(** The [sheet] argument: a name or a number. *)
Inductive SheetArg :=
| SheetName (s : string)
| SheetNumber (n : JsNum).

(** [typeof sheet === 'number' ? `Sheet${sheet}` : sheet] *)
Definition sheet_name_of (sheet : SheetArg) : string :=
  match sheet with
  | SheetName s => s
  | SheetNumber n => "Sheet" +:+ numToString n
  end.

(** The default [sheet = 'Sheet1'] of the public methods. *)
Definition sheet_or_default (sheet : option SheetArg) : SheetArg :=
  match sheet with Some s => s | None => SheetName "Sheet1" end.

(** [_getOrCreateSheet(sheet)] *)
Definition _getOrCreateSheet (w : Writer) (sheet : SheetArg)
  : (nat * string) * Writer :=
  let sheetName := sheet_name_of sheet in
  match sheetMap w !! sheetName with
  | Some sheetIndex => ((sheetIndex, sheetName), w)
  | None =>
      let sheetIndex := length (sheets w) in
      let new_sheet :=
        {| name := sheetName; data := []; startRow := 1; startCol := 1;
           chart := None |} in
      ((sheetIndex, sheetName),
       with_sheetMap (with_sheets w (sheets w ++ [new_sheet]))
         (<[sheetName := sheetIndex]> (sheetMap w)))
  end.

(** [_processCell(value, format)] *)
Definition _processCell (w : Writer) (value : Arg) (format : Arg)
  : Cell * Writer :=
  let cellData v t f :=
    {| cell_value := v; cell_type := t; cell_isFormula := f;
       cell_format := format |} in
  match value with
  | AVal VNull | AVal VUndefined => (cellData (AVal (VStr "")) "n" false, w)
  | AVal (VStr s) =>
      if Str.startsWith "=" s
      then (cellData (AVal (VStr (String.substring 1 (String.length s - 1) s)))
              "str" true, w)
      else if String.eqb s ""
      then (cellData (AVal (VStr "")) "n" false, w)
      else
        match sharedStringsMap w !! s with
        | Some idx => (cellData (AVal (VNum (ofZ (Z.of_nat idx)))) "s" false, w)
        | None =>
            let idx := length (sharedStrings w) in
            (cellData (AVal (VNum (ofZ (Z.of_nat idx)))) "s" false,
             with_sharedStrings w (sharedStrings w ++ [s])
               (<[s := idx]> (sharedStringsMap w)))
        end
  | AVal (VBool b) =>
      (cellData (AVal (VNum (if b then ofZ 1 else Zero))) "b" false, w)
  | AVal (VNum n) =>
      match n with
      | Inf false => (cellData (AVal (VNum max_sentinel)) "n" false, w)
      | Inf true => (cellData (AVal (VNum min_sentinel)) "n" false, w)
      | NaN => (cellData (AVal (VStr "")) "n" false, w)
      | _ => (cellData value "n" false, w)
      end
  | _ => (cellData value "n" false, w)
  end.

(** [while (a.length <= i) a.push(x)] *)
Definition grow {A} (a : list A) (i : Z) (x : A) : list A :=
  a ++ replicate (Z.to_nat (i + 1) - length a) x.

(** [a || 1] for a bound. *)
Definition or_num (a d : Z) : Z := if a =? 0 then d else a.

Definition set_sheet (w : Writer) (i : nat) (sh : Sheet) : Writer :=
  with_sheets w (<[i := sh]> (sheets w)).

Definition with_data (sh : Sheet) (d : list (list (option Cell))) : Sheet :=
  {| name := name sh; data := d; startRow := startRow sh;
     startCol := startCol sh; chart := chart sh |}.

Definition with_bounds (sh : Sheet) (r c : Z) : Sheet :=
  {| name := name sh; data := data sh; startRow := r; startCol := c;
     chart := chart sh |}.

Definition with_chart (sh : Sheet) (c : option Charts.Chart) : Sheet :=
  {| name := name sh; data := data sh; startRow := startRow sh;
     startCol := startCol sh; chart := c |}.

(** [d[row][col] = cell] once row [row] exists and is long enough; a
    negative [col] names a property, not an element, and leaves the
    elements alone. *)
Definition put_cell (d : list (list (option Cell))) (row col : Z)
    (cell : Cell) : list (list (option Cell)) :=
  if col <? 0 then d
  else alter (fun r => <[Z.to_nat col := Some cell]> r) (Z.to_nat row) d.

Definition type_error : string := "TypeError".

(** The body of [write] once [row] and [col] are numbers. *)
Definition write_at (w : Writer) (row col : Z) (value format : Arg)
    (sheet : SheetArg) : Outcome unit * Writer :=
  let '((sheetIndex, _), w) := _getOrCreateSheet w sheet in
  match sheets w !! sheetIndex with
  | None => (Throw type_error, w)
  | Some sheetObj =>
      let d := grow (data sheetObj) row [] in
      let w := set_sheet w sheetIndex (with_data sheetObj d) in
      if row <? 0 then (Throw type_error, w)
      else
        let d := alter (fun r => grow r col None) (Z.to_nat row) d in
        let '(cellData, w) := _processCell w value format in
        let d := put_cell d row col cellData in
        let sheetObj := with_data sheetObj d in
        let sheetObj :=
          with_bounds sheetObj
            (Z.min (or_num (startRow sheetObj) 1) (row + 1))
            (Z.min (or_num (startCol sheetObj) 1) (col + 1)) in
        (Return tt, set_sheet w sheetIndex sheetObj)
  end.

(** The first arguments of a method that takes either zero-based numbers
    or a cell reference followed by shifted arguments. *)
Inductive Position :=
| ByIndex (row col : Z)
| ByRef (ref : string) (col : Arg).

(** [write(row, col, value, format, sheet)] *)
Definition write (w : Writer) (pos : Position) (value format : Arg)
    (sheet : option SheetArg) : Outcome unit * Writer :=
  match pos with
  | ByIndex row col =>
      write_at w row col value format (sheet_or_default sheet)
  | ByRef ref col =>
      let cellInfo := Codec.xlCell2Ind (Codec.RefString ref) in
      let sheet' :=
        match col with
        | AVal (VStr s) => SheetName s
        | _ => sheet_or_default sheet
        end in
      let format' :=
        if is_object col then col
        else if is_object value && negb (is_Format value) then value
        else format in
      let value' :=
        if negb (is_string col) && negb (is_object col) then col else value in
      write_at w (Codec.row cellInfo - 1) (Codec.column cellInfo - 1)
        value' format' sheet'
  end.

(** The [for] loops of [writeRow] and [writeColumn]. *)
Fixpoint write_each (w : Writer) (row col : Z) (drow dcol : Z)
    (values : list JsVal) (format : Arg) (sheet : option SheetArg)
  : Outcome unit * Writer :=
  match values with
  | [] => (Return tt, w)
  | v :: rest =>
      match write w (ByIndex row col) (AVal v) format sheet with
      | (Return _, w) =>
          write_each w (row + drow) (col + dcol) drow dcol rest format sheet
      | (Throw e, w) => (Throw e, w)
      end
  end.

Definition is_array (a : Arg) : bool :=
  match a with AVal (VArr _) => true | _ => false end.

(** The argument shuffle shared by [writeRow] and [writeColumn]. *)
Definition row_arguments (pos : Position) (values : list JsVal)
    (format : Arg) (sheet : option SheetArg)
  : Z * Z * list JsVal * Arg * option SheetArg :=
  match pos with
  | ByIndex row col => (row, col, values, format, sheet)
  | ByRef ref col =>
      let cellInfo := Codec.xlCell2Ind (Codec.RefString ref) in
      let sheet' :=
        match format with
        | AVal (VStr s) => Some (SheetName s)
        | _ => sheet
        end in
      let format' :=
        if is_object col && negb (is_Format col) && negb (is_array col)
        then col else format in
      let values' := match col with AVal (VArr a) => a | _ => values end in
      (Codec.row cellInfo - 1, Codec.column cellInfo - 1,
       values', format', sheet')
  end.

(** [writeRow(row, col, data, format, sheet)] *)
Definition writeRow (w : Writer) (pos : Position) (values : list JsVal)
    (format : Arg) (sheet : option SheetArg) : Outcome unit * Writer :=
  let '(row, col, values, format, sheet) :=
    row_arguments pos values format sheet in
  write_each w row col 0 1 values format sheet.

(** [writeColumn(row, col, data, format, sheet)] *)
Definition writeColumn (w : Writer) (pos : Position) (values : list JsVal)
    (format : Arg) (sheet : option SheetArg) : Outcome unit * Writer :=
  let '(row, col, values, format, sheet) :=
    row_arguments pos values format sheet in
  write_each w row col 1 0 values format sheet.

(** A column given by its letters or by its zero-based number. *)
Inductive ColArg :=
| ColLetters (s : string)
| ColNumber (n : Z).

Definition column_number (c : ColArg) : Z :=
  match c with
  | ColLetters s => Codec.column (Codec.xlCell2Ind (Codec.RefString (s +:+ "1")))
  | ColNumber n => n + 1
  end.

(** The integers [lo], [lo + 1], ..., [hi]. *)
Definition range (lo hi : Z) : list Z :=
  List.map (fun i => lo + Z.of_nat i) (seq 0 (Z.to_nat (hi - lo + 1))).

(** [setColumn(firstCol, lastCol, width, format, options, sheet)]; a number
    in the place of [lastCol] with no [width] is the width. *)
Definition setColumn (w : Writer) (firstCol : ColArg) (lastCol : option ColArg)
    (width : option JsNum) (format : Arg) (hidden : bool)
    (sheet : option SheetArg) : Writer :=
  let '(lastCol, width) :=
    match lastCol, width with
    | Some (ColNumber n), None => (Some firstCol, Some (ofZ n))
    | _, _ => (lastCol, width)
    end in
  let startCol := column_number firstCol in
  let endCol :=
    match lastCol with Some c => column_number c | None => startCol end in
  let '((sheetIndex, _), w) := _getOrCreateSheet w (sheet_or_default sheet) in
  let info :=
    {| col_width := width; col_format := format; col_hidden := hidden |} in
  let cols : gmap Z ColumnInfo := default ∅ (columnInfo w !! sheetIndex) in
  let cols := foldl (fun m col => <[col := info]> m) cols (range startCol endCol) in
  with_columnInfo w (<[sheetIndex := cols]> (columnInfo w)).

(** [setRow(row, height, format, options, sheet)] *)
Definition setRow (w : Writer) (row : Z) (height : option JsNum)
    (format : Arg) (hidden : bool) (sheet : option SheetArg) : Writer :=
  let '((sheetIndex, _), w) := _getOrCreateSheet w (sheet_or_default sheet) in
  let info :=
    {| row_height := height; row_format := format; row_hidden := hidden |} in
  let rows : gmap Z RowInfo := default ∅ (rowInfo w !! sheetIndex) in
  with_rowInfo w (<[sheetIndex := <[row + 1 := info]> rows]> (rowInfo w)).

(** [s.split(':')], first and second part. *)
Fixpoint until_colon (s : string) : string * option string :=
  match s with
  | EmptyString => ("", None)
  | String c rest =>
      if Ascii.eqb c ":" then ("", Some rest)
      else let '(a, b) := until_colon rest in (String c a, b)
  end.

Definition split_colon (s : string) : string * option string :=
  let '(first, rest) := until_colon s in
  (first, option_map (fun r => (until_colon r).1) rest).

(** The first arguments of [mergeRange]: four zero-based numbers, or a
    range [first:last] followed by shifted arguments. *)
Inductive MergePosition :=
| MergeIndex (firstRow firstCol lastRow lastCol : Z) (value : Arg)
| MergeRange (first last : string) (firstCol lastRow lastCol : Arg).

(** [mergeRange(firstRow, firstCol, lastRow, lastCol, data, format, sheet)] *)
Definition mergeRange (w : Writer) (pos : MergePosition) (format : Arg)
    (sheet : option SheetArg) : Outcome unit * Writer :=
  let '(firstRow, firstCol, lastRow, lastCol, value, format, sheet) :=
    match pos with
    | MergeIndex r1 c1 r2 c2 value => (r1, c1, r2, c2, value, format, sheet)
    | MergeRange first last arg2 arg3 arg4 =>
        let '(p0, p1) := split_colon (first +:+ ":" +:+ last) in
        let start := Codec.xlCell2Ind (Codec.RefString p0) in
        let end_ :=
          Codec.xlCell2Ind
            (match p1 with Some p => Codec.RefString p | None => Codec.RefOther end) in
        let sheet' :=
          match arg3 with AVal (VStr s) => Some (SheetName s) | _ => sheet end in
        let format' := if is_object arg4 then arg4 else format in
        (Codec.row start - 1, Codec.column start - 1,
         Codec.row end_ - 1, Codec.column end_ - 1, arg2, format', sheet')
    end in
  let '((sheetIndex, _), w) := _getOrCreateSheet w (sheet_or_default sheet) in
  let merges : list MergeCell := default [] (mergeCells w !! sheetIndex) in
  let w :=
    with_mergeCells w
      (<[sheetIndex :=
           (merges ++ [{| merge_startRow := firstRow + 1;
                          merge_startCol := firstCol + 1;
                          merge_endRow := lastRow + 1;
                          merge_endCol := lastCol + 1 |}])%list]>
         (mergeCells w)) in
  match value with
  | AVal VUndefined => (Return tt, w)
  | _ => write w (ByIndex firstRow firstCol) value format sheet
  end.

Record ChartOptions := { x_offset : Z; y_offset : Z }.

(** The first arguments of [insertChart]: zero-based numbers, the chart and
    its options; or a cell reference, the chart, and then optionally an
    options object and a sheet name. *)
Inductive ChartPosition :=
| ChartAt (row col : Z) (chart : Charts.Chart) (options : option ChartOptions)
| ChartAtRef (ref : string) (chart : Charts.Chart)
    (options : option ChartOptions) (sheetName : option string).

Definition place_chart (c : Charts.Chart) (x y : Z) : Charts.Chart :=
  {| Charts.chart_type := Charts.chart_type c;
     Charts.chart_subtype := Charts.chart_subtype c;
     Charts.chart_title_text := Charts.chart_title_text c;
     Charts.chart_xAxis := Charts.chart_xAxis c;
     Charts.chart_yAxis := Charts.chart_yAxis c;
     Charts.chart_x2Axis := Charts.chart_x2Axis c;
     Charts.chart_y2Axis := Charts.chart_y2Axis c;
     Charts.chart_legend_position := Charts.chart_legend_position c;
     Charts.chart_legend_fontSize := Charts.chart_legend_fontSize c;
     Charts.chart_backgroundColor := Charts.chart_backgroundColor c;
     Charts.chart_showBorder := Charts.chart_showBorder c;
     Charts.chart_scatterStyle := Charts.chart_scatterStyle c;
     Charts.chart_grouping := Charts.chart_grouping c;
     Charts.chart_gapWidth := Charts.chart_gapWidth c;
     Charts.chart_overlap := Charts.chart_overlap c;
     Charts.chart_holeSize := Charts.chart_holeSize c;
     Charts.chart_series := Charts.chart_series c;
     Charts.chart_x := x;
     Charts.chart_y := y;
     Charts.chart_width := Charts.chart_width c;
     Charts.chart_height := Charts.chart_height c |}.

(** [insertChart(row, col, chart, options, sheet)] *)
Definition insertChart (w : Writer) (pos : ChartPosition)
    (sheet : option SheetArg) : Outcome unit * Writer :=
  let '(row, col, chart', options, sheet) :=
    match pos with
    | ChartAt row col c options => (row, col, c, options, sheet)
    | ChartAtRef ref c options sheetName =>
        let cellInfo := Codec.xlCell2Ind (Codec.RefString ref) in
        (Codec.row cellInfo - 1, Codec.column cellInfo - 1, c, options,
         match sheetName with Some s => Some (SheetName s) | None => sheet end)
    end in
  let '((sheetIndex, _), w) := _getOrCreateSheet w (sheet_or_default sheet) in
  let xo := match options with Some o => x_offset o | None => 0 end in
  let yo := match options with Some o => y_offset o | None => 0 end in
  let placed := place_chart chart' (xo + col * 64) (yo + row * 20) in
  match sheets w !! sheetIndex with
  | None => (Throw type_error, w)
  | Some sheetObj =>
      (Return tt, set_sheet w sheetIndex (with_chart sheetObj (Some placed)))
  end.

Record DataOptions := {
  xlPos : option string;
  header : option (list JsVal);
  opt_chart : option Charts.Chart
}.

(** [sheets.findIndex(s => s.name === sheetName)] *)
Fixpoint findIndex_from (i : nat) (l : list Sheet) (sheetName : string)
  : option nat :=
  match l with
  | [] => None
  | sh :: rest =>
      if String.eqb (name sh) sheetName then Some i
      else findIndex_from (S i) rest sheetName
  end.

(** The inner loop of [writeData] over the cells of one row. *)
Fixpoint writeData_cells (w : Writer) (sheetIndex : nat) (rowIdx colIdx : Z)
    (row : list JsVal) : Outcome unit * Writer :=
  match row with
  | [] => (Return tt, w)
  | cell :: rest =>
      match sheets w !! sheetIndex with
      | None => (Throw type_error, w)
      | Some sheetObj =>
          if rowIdx <? 0 then (Throw type_error, w)
          else
            let d :=
              alter (fun r => grow r colIdx None) (Z.to_nat rowIdx)
                (data sheetObj) in
            let w := set_sheet w sheetIndex (with_data sheetObj d) in
            let '(cellData, w) := _processCell w (AVal cell) (AVal VNull) in
            let d := put_cell d rowIdx colIdx cellData in
            let w := set_sheet w sheetIndex (with_data sheetObj d) in
            writeData_cells w sheetIndex rowIdx (colIdx + 1) rest
      end
  end.

(** The outer loop of [writeData] over the rows. *)
Fixpoint writeData_rows (w : Writer) (sheetIndex : nat) (rowIdx startCol : Z)
    (rows : list (list JsVal)) : Outcome unit * Writer :=
  match rows with
  | [] => (Return tt, w)
  | row :: rest =>
      match sheets w !! sheetIndex with
      | None => (Throw type_error, w)
      | Some sheetObj =>
          let w :=
            set_sheet w sheetIndex
              (with_data sheetObj (grow (data sheetObj) rowIdx [])) in
          match writeData_cells w sheetIndex rowIdx (startCol - 1) row with
          | (Return _, w) =>
              writeData_rows w sheetIndex (rowIdx + 1) startCol rest
          | (Throw e, w) => (Throw e, w)
          end
      end
  end.

(** [writeData(data, sheet, options)] *)
Definition writeData (w : Writer) (rows : list (list JsVal))
    (sheet : option SheetArg) (options : DataOptions)
  : Outcome unit * Writer :=
  let sheetName := sheet_name_of (sheet_or_default sheet) in
  let origin :=
    Codec.xlCell2Ind (Codec.RefString (Charts.str_or (xlPos options) "A1")) in
  let startRow' := Codec.row origin in
  let startCol' := Codec.column origin in
  let fullData :=
    match header options with Some h => h :: rows | None => rows end in
  let '(existingSheetIndex, w) :=
    match findIndex_from 0 (sheets w) sheetName with
    | Some i => (i, w)
    | None =>
        let sheetObj :=
          {| name := sheetName; data := []; startRow := startRow';
             startCol := startCol'; chart := opt_chart options |} in
        (length (sheets w), with_sheets w (sheets w ++ [sheetObj]))
    end in
  match writeData_rows w existingSheetIndex (startRow' - 1) startCol' fullData with
  | (Throw e, w) => (Throw e, w)
  | (Return _, w) =>
      match sheets w !! existingSheetIndex with
      | None => (Throw type_error, w)
      | Some sheetObj =>
          let sheetObj :=
            with_bounds sheetObj
              (Z.min (or_num (startRow sheetObj) startRow') startRow')
              (Z.min (or_num (startCol sheetObj) startCol') startCol') in
          let sheetObj :=
            match opt_chart options with
            | Some c => with_chart sheetObj (Some c)
            | None => sheetObj
            end in
          (Return tt, set_sheet w existingSheetIndex sheetObj)
      end
  end.

(** *** Sheet data XML *)

Section SheetData.
Variable rt : Runtime.
Import Xml.

Definition arg_to_string (a : Arg) : string :=
  match a with
  | AVal v => toStringVal rt v
  | AFormat _ => "[object Object]"
  end.

(** [v === '' || v === null || v === undefined] *)
Definition is_blank (a : Arg) : bool :=
  match a with
  | AVal (VStr "") | AVal VNull | AVal VUndefined => true
  | _ => false
  end.

(** [row.some(cell => cell && (cell.value !== '' && ...))] *)
Definition hasContent (row : list (option Cell)) : bool :=
  existsb
    (fun cell => match cell with
                 | Some c => negb (is_blank (cell_value c))
                 | None => false
                 end) row.

(** The [s] attribute of a cell: present when the cell has a format whose
    [xfIndex] is neither [null] nor [undefined]. *)
Definition styleAttr (cell : Cell) : list (string * string) :=
  if arg_truthy (cell_format cell)
  then match arg_xfIndex (cell_format cell) with
       | VNull | VUndefined => []
       | xf => [("s", toStringVal rt xf)]
       end
  else [].

(** One pass of the inner loop of [_generateSheetDataXML]. *)
Definition cell_xml (cell : Cell) (colNum rowNum : Z) : list Node :=
  let cellRef := Charts.xlColumn colNum +:+ Str.ofZ rowNum in
  let style := styleAttr cell in
  if cell_isFormula cell
  then [Elem "c" (("r", cellRef) :: style)
          [Elem "f" [] [Raw (escapeXml (arg_to_string (cell_value cell)))]]]
  else if is_blank (cell_value cell)
  then match style with
       | [] => []
       | _ => [Empty "c" (("r", cellRef) :: style)]
       end
  else if String.eqb (cell_type cell) "n"
  then [Elem "c" (("r", cellRef) :: style)
          [Elem "v" [] [Raw (arg_to_string (cell_value cell))]]]
  else [Elem "c" (("r", cellRef) :: ("t", cell_type cell) :: style)
          [Elem "v" [] [Raw (arg_to_string (cell_value cell))]]].

Fixpoint cells_xml (row : list (option Cell)) (c : Z) (rowNum : Z)
  : list Node :=
  match row with
  | [] => []
  | cell :: rest =>
      match cell with
      | Some cl => cell_xml cl (c + 1) rowNum
      | None => []
      end ++ cells_xml rest (c + 1) rowNum
  end.

Definition row_attrs (rowNum : Z) (maxCol : nat) (info : option RowInfo)
  : list (string * string) :=
  [("r", Str.ofZ rowNum); ("spans", "1:" +:+ Str.ofNat maxCol)] ++
  match info with
  | None => []
  | Some ri =>
      (match row_height ri with
       | Some h =>
           if num_truthy h
           then [("ht", numToString h); ("customHeight", "1")] else []
       | None => []
       end) ++
      (if row_hidden ri then [("hidden", "1")] else []) ++
      (if arg_truthy (row_format ri) && truthy (arg_xfIndex (row_format ri))
       then [("s", toStringVal rt (arg_xfIndex (row_format ri)));
             ("customFormat", "1")]
       else [])
  end.

Fixpoint rows_xml (rows : list (list (option Cell))) (r : Z)
    (rowInfoObj : gmap Z RowInfo) : list Node :=
  match rows with
  | [] => []
  | row :: rest =>
      let info := rowInfoObj !! (r + 1) in
      (if (length row =? 0)%nat then []
       else if negb (hasContent row) && negb (bool_decide (is_Some info))
       then []
       else [Elem "row" (row_attrs (r + 1) (length row) info)
               (cells_xml row 0 (r + 1))])
      ++ rows_xml rest (r + 1) rowInfoObj
  end.

(** [_generateSheetDataXML(sheet, sheetIndex)] *)
Definition _generateSheetDataXML (w : Writer) (sheet : Sheet)
    (sheetIndex : nat) : list Node :=
  let rowInfoObj : gmap Z RowInfo := default ∅ (rowInfo w !! sheetIndex) in
  rows_xml (data sheet) 0 rowInfoObj.

End SheetData.

(** *** The package: [save] and [saveAs] *)










(** The body of [xl/charts/chart(i+1).xml]. *)
Definition chart_body (rt : Runtime) (info : ChartInfo) : string :=
  Xml.render_all
    (Charts._generateChartXML rt (ci_chart info) (ci_sheetName info)
       (Some (ci_dataInfo info))).









End Workbook.

(** * Properties *)

(** ** Strings *)

Lemma str_app_nil_l (s : string) : "" +:+ s = s.
Proof. reflexivity. Qed.

Lemma str_app_cons (c : ascii) (s t : string) :
  String c s +:+ t = String c (s +:+ t).
Proof. reflexivity. Qed.

Lemma str_app_nil_r (s : string) : s +:+ "" = s.
Proof.
  induction s as [|c s IH]; [reflexivity|].
  rewrite str_app_cons, IH. reflexivity.
Qed.

Lemma str_app_assoc (s t u : string) : (s +:+ t) +:+ u = s +:+ (t +:+ u).
Proof.
  induction s as [|c s IH]; [reflexivity|].
  rewrite !str_app_cons, IH. reflexivity.
Qed.

(** ** Primitive codecs *)

Section CodecFacts.
Import Codec.

Lemma xlColumn_loop_unfold col result :
  xlColumn_loop col result =
  if Z_gt_dec col 0
  then xlColumn_loop ((col - 1) / 26)
         (String (Str.fromCharCode (65 + (col - 1) mod 26)) result)
  else result.
Proof.
  rewrite xlColumn_loop_equation_1.
  destruct (Z_gt_dec col 0); reflexivity.
Qed.

Lemma code_fromCharCode n : 0 <= n < 256 -> Str.code (Str.fromCharCode n) = n.
Proof.
  intros Hn. unfold Str.code, Str.fromCharCode.
  rewrite N_ascii_embedding by lia. lia.
Qed.

Lemma fromCharCode_code c : Str.fromCharCode (Str.code c) = c.
Proof.
  unfold Str.code, Str.fromCharCode.
  rewrite N2Z.id. apply ascii_N_embedding.
Qed.

Lemma code_range c : 0 <= Str.code c < 256.
Proof.
  unfold Str.code. pose proof (N_ascii_bounded c). lia.
Qed.

(** Decoding what the loop produced gives back the loop's input. *)
Lemma decode_xlColumn_loop col :
  0 <= col ->
  forall result,
    decode_letters 0 (xlColumn_loop col result) = decode_letters col result.
Proof.
  intros Hcol. generalize Hcol. pattern col.
  apply Z_lt_induction; [|exact Hcol].
  clear col Hcol. intros col IH Hcol result.
  rewrite xlColumn_loop_unfold. destruct (Z_gt_dec col 0) as [Hpos|Hnpos].
  - assert (Hq : 0 <= (col - 1) / 26 < col).
    { split; [apply Z.div_pos; lia|].
      assert ((col - 1) / 26 <= col - 1) by (apply Z.div_le_upper_bound; lia).
      lia. }
    rewrite IH by (exact Hq || lia). cbn [decode_letters].
    pose proof (Z.mod_pos_bound (col - 1) 26 ltac:(lia)) as Hm.
    rewrite code_fromCharCode by lia.
    f_equal. pose proof (Z.div_mod (col - 1) 26 ltac:(lia)). lia.
  - replace col with 0 by lia. reflexivity.
Qed.

(** The loop only prepends capital letters. *)
Lemma xlColumn_loop_upper col :
  0 <= col ->
  forall result,
    Str.forallb Str.is_upper result = true ->
    Str.forallb Str.is_upper (xlColumn_loop col result) = true.
Proof.
  intros Hcol. generalize Hcol. pattern col.
  apply Z_lt_induction; [|exact Hcol].
  clear col Hcol. intros col IH Hcol result Hres.
  rewrite xlColumn_loop_unfold. destruct (Z_gt_dec col 0) as [Hpos|Hnpos];
    [|exact Hres].
  assert (Hq : 0 <= (col - 1) / 26 < col).
  { split; [apply Z.div_pos; lia|].
    assert ((col - 1) / 26 <= col - 1) by (apply Z.div_le_upper_bound; lia).
    lia. }
  apply IH; [exact Hq|lia|].
  cbn [Str.forallb]. rewrite Hres, andb_true_r.
  pose proof (Z.mod_pos_bound (col - 1) 26 ltac:(lia)) as Hm.
  unfold Str.is_upper. rewrite code_fromCharCode by lia.
  apply andb_true_intro; split; lia.
Qed.

(** The accumulator is kept as a suffix. *)
Lemma xlColumn_loop_app col :
  0 <= col ->
  forall result,
    xlColumn_loop col result = xlColumn_loop col "" +:+ result.
Proof.
  intros Hcol. generalize Hcol. pattern col.
  apply Z_lt_induction; [|exact Hcol].
  clear col Hcol. intros col IH Hcol result.
  rewrite (xlColumn_loop_unfold col result), (xlColumn_loop_unfold col "").
  destruct (Z_gt_dec col 0) as [Hpos|Hnpos]; [|reflexivity].
  assert (Hq : 0 <= (col - 1) / 26 < col).
  { split; [apply Z.div_pos; lia|].
    assert ((col - 1) / 26 <= col - 1) by (apply Z.div_le_upper_bound; lia).
    lia. }
  rewrite (IH _ Hq ltac:(lia) (String _ result)).
  rewrite (IH _ Hq ltac:(lia) (String _ "")).
  rewrite str_app_assoc. reflexivity.
Qed.

Lemma xlColumn_loop_truthy col result :
  1 <= col -> Str.truthy (xlColumn_loop col result) = true.
Proof.
  intros Hcol. rewrite xlColumn_loop_unfold.
  destruct (Z_gt_dec col 0) as [_|]; [|lia].
  rewrite xlColumn_loop_app by (apply Z.div_pos; lia).
  destruct (xlColumn_loop ((col - 1) / 26) ""); reflexivity.
Qed.

(** Encoding what the decoder read gives back the letters: the other half
    of the bijection. *)
Lemma xlColumn_loop_decode letters :
  Str.forallb Str.is_upper letters = true ->
  forall c result,
    0 <= c ->
    xlColumn_loop (decode_letters c letters) result =
    xlColumn_loop c (letters +:+ result).
Proof.
  induction letters as [|ch rest IH]; intros Hup c result Hc; [reflexivity|].
  cbn [Str.forallb] in Hup. apply andb_prop in Hup as [Hch Hrest].
  unfold Str.is_upper in Hch. apply andb_prop in Hch as [Hlo Hhi].
  cbn [decode_letters]. rewrite IH by (assumption || lia).
  rewrite (xlColumn_loop_unfold (c * 26 + _)).
  destruct (Z_gt_dec (c * 26 + (Str.code ch - 64)) 0) as [_|]; [|lia].
  replace (c * 26 + (Str.code ch - 64) - 1) with ((Str.code ch - 65) + c * 26)
    by lia.
  rewrite Z.div_add, Z.mod_add by lia.
  rewrite Z.div_small, Z.mod_small by lia.
  replace (65 + (Str.code ch - 65)) with (Str.code ch) by lia.
  rewrite fromCharCode_code. reflexivity.
Qed.

Lemma xlColumn_loop_0 result : xlColumn_loop 0 result = result.
Proof. rewrite xlColumn_loop_unfold. reflexivity. Qed.

Lemma decode_letters_pos letters :
  Str.forallb Str.is_upper letters = true ->
  forall c, 0 <= c -> c <= decode_letters c letters.
Proof.
  induction letters as [|ch rest IH]; intros Hup c Hc; [cbn; lia|].
  cbn [Str.forallb] in Hup. apply andb_prop in Hup as [Hch Hrest].
  unfold Str.is_upper in Hch. apply andb_prop in Hch as [Hlo Hhi].
  cbn [decode_letters]. specialize (IH Hrest (c * 26 + (Str.code ch - 64))).
  lia.
Qed.

(** Every cached entry is what the loop computes for its key. *)
Lemma cache_reachable_sound c :
  cache_reachable c ->
  forall k s, c !! k = Some s -> s = xlColumn_loop k "".
Proof.
  induction 1 as [|c col Hc IH]; intros k s Hk.
  - rewrite lookup_empty in Hk. discriminate.
  - unfold xlColumn in Hk.
    assert (Hins : forall c' : Cache,
      c' = (if col <=? 702 then <[col := xlColumn_loop col ""]> c else c) ->
      c' !! k = Some s -> s = xlColumn_loop k "").
    { intros c' -> Hk'. destruct (col <=? 702); [|eauto].
      destruct (decide (col = k)) as [->|Hne].
      - rewrite lookup_insert_eq in Hk'. congruence.
      - rewrite lookup_insert_ne in Hk' by exact Hne. eauto. }
    destruct (c !! col) as [s0|] eqn:Hlook.
    + destruct (Str.truthy s0); cbn in Hk; eauto.
    + cbn in Hk. eauto.
Qed.

Lemma xlColumn_value c col :
  cache_reachable c -> (xlColumn c col).1 = xlColumn_loop col "".
Proof.
  intros Hc. unfold xlColumn.
  destruct (c !! col) as [s|] eqn:Hlook; [|reflexivity].
  destruct (Str.truthy s); [|reflexivity].
  cbn. eapply cache_reachable_sound; eauto.
Qed.

Lemma span_alpha_upper_digit letters rest :
  Str.forallb Str.is_upper letters = true ->
  Str.forallb Str.is_digit rest = true ->
  Str.span Str.is_alpha (letters +:+ rest) = (letters, rest).
Proof.
  intros Hup Hdig. induction letters as [|ch l IH].
  - rewrite str_app_nil_l. destruct rest as [|d r]; [reflexivity|].
    cbn [Str.forallb] in Hdig. apply andb_prop in Hdig as [Hd _].
    cbn [Str.span].
    assert (Hna : Str.is_alpha d = false).
    { unfold Str.is_digit in Hd. apply andb_prop in Hd as [? ?].
      unfold Str.is_alpha, Str.is_upper, Str.is_lower.
      apply orb_false_intro; apply andb_false_intro1; lia. }
    rewrite Hna. reflexivity.
  - cbn [Str.forallb] in Hup. apply andb_prop in Hup as [Hch Hl].
    rewrite str_app_cons. cbn [Str.span].
    unfold Str.is_alpha at 1. rewrite Hch. cbn [orb].
    rewrite (IH Hl). reflexivity.
Qed.

Lemma toUpperCase_upper letters :
  Str.forallb Str.is_upper letters = true -> Str.toUpperCase letters = letters.
Proof.
  induction letters as [|ch l IH]; intros Hup; [reflexivity|].
  cbn [Str.forallb] in Hup. apply andb_prop in Hup as [Hch Hl].
  unfold Str.toUpperCase in *. cbn [Str.map]. rewrite (IH Hl). f_equal.
  unfold Str.upper_char.
  assert (Str.is_lower ch = false) as ->; [|reflexivity].
  unfold Str.is_upper in Hch. apply andb_prop in Hch as [? ?].
  unfold Str.is_lower. apply andb_false_intro1. lia.
Qed.

(** Parsing a reference made of capital letters and a row number. *)
Lemma xlCell2Ind_letters_digits letters digits :
  Str.truthy letters = true -> Str.forallb Str.is_upper letters = true ->
  Str.truthy digits = true -> Str.forallb Str.is_digit digits = true ->
  xlCell2Ind (RefString (letters +:+ digits)) =
  {| row := Str.parseDigits digits; column := decode_letters 0 letters |}.
Proof.
  intros Hl Hup Hd Hdig. unfold xlCell2Ind, match_cell.
  rewrite span_alpha_upper_digit by assumption.
  rewrite Hl, Hd, Hdig. cbn [andb].
  rewrite toUpperCase_upper by assumption. reflexivity.
Qed.

End CodecFacts.

(** C1. For every column number [n] from 1 to 16384, and in whatever state
    the column cache is, parsing the reference made of the letters of column
    [n] followed by row 1 gives row 1 and column [n]; the letters are a
    non-empty word over A..Z (base 26 with digits 1..26 and no zero digit),
    and encoding is the exact inverse of the letter decoding of
    [xlCell2Ind] in both directions. *)
Theorem xlColumn_xlCell2Ind_roundtrip (cache : gmap Z string) (n : Z) :
  Codec.cache_reachable cache ->
  1 <= n <= 16384 ->
  let letters := (Codec.xlColumn cache n).1 in
  Codec.xlCell2Ind (Codec.RefString (letters +:+ "1")) =
    {| Codec.row := 1; Codec.column := n |} /\
  Str.truthy letters = true /\
  Str.forallb Str.is_upper letters = true /\
  Codec.decode_letters 0 letters = n /\
  (forall w, Str.forallb Str.is_upper w = true ->
     Codec.decode_letters 0 w = n -> w = letters).
Proof.
  intros Hc Hn letters. subst letters. rewrite xlColumn_value by exact Hc.
  assert (Hup : Str.forallb Str.is_upper (Codec.xlColumn_loop n "") = true)
    by (apply xlColumn_loop_upper; [lia|reflexivity]).
  assert (Hdec : Codec.decode_letters 0 (Codec.xlColumn_loop n "") = n)
    by (rewrite decode_xlColumn_loop by lia; reflexivity).
  assert (Htr : Str.truthy (Codec.xlColumn_loop n "") = true)
    by (apply xlColumn_loop_truthy; lia).
  repeat split; try assumption.
  - rewrite xlCell2Ind_letters_digits by (assumption || reflexivity).
    rewrite Hdec. reflexivity.
  - intros w Hw Hwn. rewrite <- Hwn.
    rewrite xlColumn_loop_decode by (assumption || lia).
    rewrite xlColumn_loop_0. symmetry. apply str_app_nil_r.
Qed.

Lemma xlColumn_xlCell2Ind_roundtrip_witness :
  Codec.xlCell2Ind
    (Codec.RefString ((Codec.xlColumn ∅ 16384).1 +:+ "1")) =
  {| Codec.row := 1; Codec.column := 16384 |}.
Proof.
  apply (xlColumn_xlCell2Ind_roundtrip ∅ 16384 Codec.cache_initial).
  lia.
Defined.

(** ** Deep merge *)

Section JsVal_induction.
Import Js.
Variable P : JsVal -> Prop.
Hypothesis P_obj : forall o, Forall (fun kv => P kv.2) o -> P (VObj o).
Hypothesis P_other : forall v, is_plain_object v = false -> P v.

Fixpoint JsVal_obj_ind (v : JsVal) : P v :=
  match v with
  | VObj o =>
      P_obj o
        ((fix all (o : Obj) : Forall (fun kv => P kv.2) o :=
            match o with
            | [] => @List.Forall_nil _ _
            | (k, w) :: rest =>
                @List.Forall_cons _ _ (k, w) rest (JsVal_obj_ind w) (all rest)
            end) o)
  | VUndefined => P_other VUndefined eq_refl
  | VNull => P_other VNull eq_refl
  | VBool b => P_other (VBool b) eq_refl
  | VNum n => P_other (VNum n) eq_refl
  | VStr s => P_other (VStr s) eq_refl
  | VArr a => P_other (VArr a) eq_refl
  | VFun f => P_other (VFun f) eq_refl
  end.
End JsVal_induction.

Section MergeFacts.
Import Js Merge.

Lemma strip_guarded_plain v :
  is_plain_object (strip_guarded_value v) = is_plain_object v.
Proof. destruct v; reflexivity. Qed.

Lemma strip_guarded_other v :
  is_plain_object v = false -> strip_guarded_value v = v.
Proof. destruct v; try reflexivity. discriminate. Qed.

(** The loop does not see guarded entries, at any depth. *)
Lemma merge_loop_strip entries :
  Forall (fun kv => forall target,
            deepMerge_value target kv.2 =
            deepMerge_value target (strip_guarded_value kv.2)) entries ->
  forall result,
    merge_loop deepMerge_value result entries =
    merge_loop deepMerge_value result (strip_entries strip_guarded_value entries).
Proof.
  induction 1 as [|[key v] rest Hv _ IH]; intros result; [reflexivity|].
  cbn [merge_loop strip_entries]. destruct (guarded key) eqn:Hg; [apply IH|].
  cbn [merge_loop]. rewrite Hg, strip_guarded_plain.
  destruct (is_plain_object v) eqn:Hplain.
  - cbn [snd] in Hv. rewrite <- Hv. apply IH.
  - rewrite (strip_guarded_other v Hplain). apply IH.
Qed.

Lemma deepMerge_value_strip source :
  forall target,
    deepMerge_value target source =
    deepMerge_value target (strip_guarded_value source).
Proof.
  induction source as [o IH|v Hv] using JsVal_obj_ind; intros target.
  - cbn [deepMerge_value strip_guarded_value]. apply merge_loop_strip, IH.
  - rewrite (strip_guarded_other v Hv). reflexivity.
Qed.

Lemma own_set_ne o key k v :
  key <> k -> own (set o key v) k = own o k.
Proof.
  intros Hne. induction o as [|[k0 w] rest IH]; cbn [set own].
  - destruct (String.eqb_spec key k); [contradiction|reflexivity].
  - destruct (String.eqb_spec k0 key) as [->|Hk0]; cbn [own].
    + destruct (String.eqb_spec key k); [contradiction|reflexivity].
    + rewrite IH. reflexivity.
Qed.

(** No guarded key is ever written into the result. *)
Lemma merge_loop_guarded_untouched merge entries k :
  guarded k = true ->
  forall result, own (merge_loop merge result entries) k = own result k.
Proof.
  intros Hk. induction entries as [|[key v] rest IH]; intros result;
    [reflexivity|].
  cbn [merge_loop]. destruct (guarded key) eqn:Hg; [apply IH|].
  assert (Hne : key <> k) by (intros ->; congruence).
  destruct (is_plain_object v); rewrite IH; apply own_set_ne, Hne.
Qed.

Lemma strip_top_strip_guarded (o : Obj) :
  strip_guarded (strip_top o) = strip_guarded o.
Proof.
  unfold strip_guarded, strip_top.
  induction o as [|[key v] rest IH]; [reflexivity|].
  cbn [strip_entries]. rewrite filter_cons. cbn [fst].
  destruct (guarded key) eqn:Hg; cbn [negb].
  - rewrite decide_False by discriminate. exact IH.
  - rewrite decide_True by reflexivity. cbn [strip_entries].
    rewrite Hg, IH. reflexivity.
Qed.

End MergeFacts.

(** C10. [deepMerge] never copies the keys [__proto__], [constructor] and
    [prototype] from its source: two sources that are equal once the
    entries under those keys are removed (at any depth the merge descends
    to) give identical results with every target, and under each of these
    three keys the result has exactly what the copy of the target had. *)
Theorem deepMerge_guarded_keys_noninterference
  (target : Js.JsVal) (source1 source2 : list (string * Js.JsVal)) :
  Merge.strip_guarded source1 = Merge.strip_guarded source2 ->
  Merge.deepMerge target source1 = Merge.deepMerge target source2 /\
  (forall k, Merge.guarded k = true ->
     Js.own (Merge.deepMerge target source1) k = Js.own (Js.spread target) k).
Proof.
  intros Heq. split.
  - unfold Merge.deepMerge.
    rewrite (deepMerge_value_strip (Js.VObj source1)).
    rewrite (deepMerge_value_strip (Js.VObj source2)).
    cbn [Merge.strip_guarded_value]. unfold Merge.strip_guarded in Heq.
    rewrite Heq. reflexivity.
  - intros k Hk. unfold Merge.deepMerge. cbn [Merge.deepMerge_value].
    apply merge_loop_guarded_untouched, Hk.
Qed.

Lemma deepMerge_guarded_keys_noninterference_witness :
  Merge.deepMerge (Js.VObj [("width", Js.VNum (Js.ofZ 1))])
    [("__proto__", Js.VObj [("polluted", Js.VBool true)]);
     ("color", Js.VObj [("constructor", Js.VStr "x"); ("option", Js.VStr "Solid")])] =
  Merge.deepMerge (Js.VObj [("width", Js.VNum (Js.ofZ 1))])
    [("color", Js.VObj [("option", Js.VStr "Solid")]);
     ("prototype", Js.VNull)].
Proof.
  apply (deepMerge_guarded_keys_noninterference
           (Js.VObj [("width", Js.VNum (Js.ofZ 1))])
           [("__proto__", Js.VObj [("polluted", Js.VBool true)]);
            ("color", Js.VObj [("constructor", Js.VStr "x");
                               ("option", Js.VStr "Solid")])]
           [("color", Js.VObj [("option", Js.VStr "Solid")]);
            ("prototype", Js.VNull)]).
  reflexivity.
Defined.

(** ** Sheets *)

Section SheetFacts.
Import Js Workbook.

(** Every sheet is registered in [sheetMap] under its name, at its own
    position. *)
Definition sheets_registered (w : Writer) : Prop :=
  forall i sh, sheets w !! i = Some sh -> sheetMap w !! name sh = Some i.

Lemma sheets_registered_NoDup w :
  sheets_registered w -> NoDup (List.map name (sheets w)).
Proof.
  intros Hreg. apply NoDup_alt. intros i j n Hi Hj.
  rewrite list_lookup_fmap in Hi, Hj.
  destruct (sheets w !! i) as [si|] eqn:Hsi; [|discriminate].
  destruct (sheets w !! j) as [sj|] eqn:Hsj; [|discriminate].
  cbn in Hi, Hj. injection Hi as <-. injection Hj as Hname.
  pose proof (Hreg _ _ Hsi) as H1. pose proof (Hreg _ _ Hsj) as H2.
  rewrite Hname in H2. congruence.
Qed.

(** [_getOrCreateSheet] keeps every sheet registered provided [sheetMap]
    only points at sheets with the name looked up. *)
Definition sheetMap_sound (w : Writer) : Prop :=
  forall n i, sheetMap w !! n = Some i ->
    exists sh, sheets w !! i = Some sh /\ name sh = n.

Lemma getOrCreateSheet_registered w sheet :
  sheets_registered w -> sheetMap_sound w ->
  sheets_registered (_getOrCreateSheet w sheet).2 /\
  sheetMap_sound (_getOrCreateSheet w sheet).2.
Proof.
  intros Hreg Hsound. unfold _getOrCreateSheet.
  destruct (sheetMap w !! sheet_name_of sheet) as [idx|] eqn:Hlook;
    [split; assumption|].
  cbn [snd]. split.
  - intros i sh Hi.
    cbn [sheets sheetMap with_sheets with_sheetMap] in Hi |- *.
    destruct (decide (i < length (sheets w))%nat) as [Hlt|Hge].
    + rewrite lookup_app_l in Hi by exact Hlt.
      pose proof (Hreg _ _ Hi) as Hm.
      rewrite lookup_insert_ne; [exact Hm|]. intros Heq.
      rewrite <- Heq in Hm. congruence.
    + rewrite lookup_app_r in Hi by lia.
      destruct (i - length (sheets w))%nat as [|k] eqn:Hk; [|discriminate].
      cbn in Hi. injection Hi as <-. cbn [name].
      rewrite lookup_insert_eq. f_equal. lia.
  - intros n i Hn.
    cbn [sheets sheetMap with_sheets with_sheetMap] in Hn |- *.
    destruct (decide (sheet_name_of sheet = n)) as [<-|Hne].
    + rewrite lookup_insert_eq in Hn. injection Hn as <-.
      eexists. split.
      * rewrite lookup_app_r by lia. rewrite Nat.sub_diag. reflexivity.
      * reflexivity.
    + rewrite lookup_insert_ne in Hn by exact Hne.
      destruct (Hsound _ _ Hn) as (sh & Hsh & Hname).
      exists sh. split; [|exact Hname].
      rewrite lookup_app_l; [exact Hsh|]. eapply lookup_lt_Some, Hsh.
Qed.

End SheetFacts.

(** C3.  The sheet list does not stay name-unique: [writeData] appends a
    sheet without registering it in [sheetMap], so a later [write] to the
    same name appends a second sheet with that name. *)
Theorem writeData_then_write_duplicates_sheet :
  let w0 := Workbook.new_XlsxWriter "out.xlsx" in
  let w1 :=
    (Workbook.writeData w0 [[Js.VNum (Js.ofZ 1)]]
       (Some (Workbook.SheetName "Data"))
       {| Workbook.xlPos := None; Workbook.header := None;
          Workbook.opt_chart := None |}).2 in
  let w2 :=
    (Workbook.write w1 (Workbook.ByIndex 0 0) (Workbook.AVal (Js.VNum (Js.ofZ 2)))
       Workbook.undefined (Some (Workbook.SheetName "Data"))).2 in
  List.map Workbook.name (Workbook.sheets w1) = ["Data"] /\
  List.map Workbook.name (Workbook.sheets w2) = ["Data"; "Data"] /\
  ~ NoDup (List.map Workbook.name (Workbook.sheets w2)).
Proof.
  cbv zeta. split; [vm_compute; reflexivity|].
  assert (Hnames :
    List.map Workbook.name
      (Workbook.sheets
         (Workbook.write
            (Workbook.writeData (Workbook.new_XlsxWriter "out.xlsx")
               [[Js.VNum (Js.ofZ 1)]] (Some (Workbook.SheetName "Data"))
               {| Workbook.xlPos := None; Workbook.header := None;
                  Workbook.opt_chart := None |}).2
            (Workbook.ByIndex 0 0) (Workbook.AVal (Js.VNum (Js.ofZ 2)))
            Workbook.undefined (Some (Workbook.SheetName "Data"))).2)
    = ["Data"; "Data"]) by (vm_compute; reflexivity).
  split; [exact Hnames|]. rewrite Hnames.
  intros Hnd. apply NoDup_cons in Hnd as [Hnotin _].
  apply Hnotin. apply list_elem_of_here.
Qed.

(** ** Shared strings *)

Section SharedStringFacts.
Import Js Workbook.

(** The map is the inverse of the table. *)
Definition strings_ok (w : Writer) : Prop :=
  forall s i, sharedStringsMap w !! s = Some i <-> sharedStrings w !! i = Some s.

(** The string a value puts into the table, if any: a string that is not
    empty and is not a formula. *)
Definition interned (value : Arg) : option string :=
  match value with
  | AVal (VStr s) =>
      if Str.startsWith "=" s then None
      else if String.eqb s "" then None else Some s
  | _ => None
  end.

(** A sequence of cell writes, as far as the table is concerned: the calls
    of [_processCell] they make, in order. *)
Fixpoint process_all (w : Writer) (writes : list (Arg * Arg)) : Writer :=
  match writes with
  | [] => w
  | (value, format) :: rest => process_all (_processCell w value format).2 rest
  end.

Lemma strings_ok_NoDup w : strings_ok w -> NoDup (sharedStrings w).
Proof.
  intros Hok. apply NoDup_alt. intros i j s Hi Hj.
  apply Hok in Hi, Hj. congruence.
Qed.

Lemma strings_ok_new file : strings_ok (new_XlsxWriter file).
Proof.
  intros s i. change (sharedStringsMap (new_XlsxWriter file)) with (∅ : gmap string nat).
  change (sharedStrings (new_XlsxWriter file)) with ([] : list string).
  rewrite lookup_empty, lookup_nil. split; discriminate.
Qed.

Lemma processCell_not_interned w value format :
  interned value = None -> (_processCell w value format).2 = w.
Proof.
  unfold interned, _processCell. intros H.
  destruct value as [[| | | n | s | | |]|]; try reflexivity.
  - destruct n as [|[]| |]; reflexivity.
  - destruct (Str.startsWith "=" s); [reflexivity|].
    destruct (String.eqb s ""); [reflexivity|discriminate].
Qed.

Definition index_value (i : nat) : Arg := AVal (VNum (ofZ (Z.of_nat i))).

Lemma processCell_interned w value format s :
  interned value = Some s ->
  match sharedStringsMap w !! s with
  | Some i =>
      _processCell w value format =
      ({| cell_value := index_value i; cell_type := "s";
          cell_isFormula := false; cell_format := format |}, w)
  | None =>
      _processCell w value format =
      ({| cell_value := index_value (length (sharedStrings w));
          cell_type := "s"; cell_isFormula := false; cell_format := format |},
       with_sharedStrings w (sharedStrings w ++ [s])
         (<[s := length (sharedStrings w)]> (sharedStringsMap w)))
  end.
Proof.
  unfold interned, _processCell. intros H.
  destruct value as [[| | | n | s' | | |]|]; try discriminate.
  destruct (Str.startsWith "=" s'); [discriminate|].
  destruct (String.eqb s' ""); [discriminate|].
  injection H as ->. destruct (sharedStringsMap w !! s); reflexivity.
Qed.

Lemma processCell_strings_ok w value format :
  strings_ok w -> strings_ok (_processCell w value format).2.
Proof.
  intros Hok. destruct (interned value) as [s|] eqn:Hint.
  - pose proof (processCell_interned w value format s Hint) as Hstep.
    destruct (sharedStringsMap w !! s) as [i|] eqn:Hlook;
      rewrite Hstep; cbn [snd]; [exact Hok|].
    intros t j. cbn [sharedStringsMap sharedStrings with_sharedStrings].
    destruct (decide (s = t)) as [<-|Hne].
    + rewrite lookup_insert_eq. split.
      * intros [= <-]. rewrite lookup_app_r by lia.
        rewrite Nat.sub_diag. reflexivity.
      * intros Hj. f_equal.
        destruct (decide (j < length (sharedStrings w))%nat) as [Hlt|Hge].
        -- rewrite lookup_app_l in Hj by exact Hlt.
           apply Hok in Hj. congruence.
        -- apply lookup_lt_Some in Hj. rewrite length_app in Hj.
           cbn in Hj. lia.
    + rewrite lookup_insert_ne by exact Hne. split.
      * intros Hm. apply Hok in Hm.
        rewrite lookup_app_l; [exact Hm|]. eapply lookup_lt_Some, Hm.
      * intros Hj.
        destruct (decide (j < length (sharedStrings w))%nat) as [Hlt|Hge].
        -- rewrite lookup_app_l in Hj by exact Hlt. apply Hok, Hj.
        -- rewrite lookup_app_r in Hj by lia.
           destruct (j - length (sharedStrings w))%nat; cbn in Hj;
             [congruence|discriminate].
  - rewrite processCell_not_interned by exact Hint. exact Hok.
Qed.

Lemma processCell_elem w value format t :
  strings_ok w ->
  t ∈ sharedStrings (_processCell w value format).2 <->
  t ∈ sharedStrings w \/ interned value = Some t.
Proof.
  intros Hok. destruct (interned value) as [s|] eqn:Hint.
  - pose proof (processCell_interned w value format s Hint) as Hstep.
    destruct (sharedStringsMap w !! s) as [i|] eqn:Hlook;
      rewrite Hstep; cbn [snd sharedStrings with_sharedStrings].
    + split; [auto|]. intros [H|[= <-]]; [exact H|].
      apply Hok in Hlook. eapply list_elem_of_lookup_2, Hlook.
    + rewrite elem_of_app, list_elem_of_singleton.
      split; (intros [H|H]; [left; exact H|right; congruence]).
  - rewrite processCell_not_interned by exact Hint.
    split; [auto|]. intros [H|H]; [exact H|discriminate].
Qed.

Lemma process_all_strings_ok writes :
  forall w, strings_ok w -> strings_ok (process_all w writes).
Proof.
  induction writes as [|[value format] rest IH]; intros w Hok; [exact Hok|].
  cbn [process_all]. apply IH, processCell_strings_ok, Hok.
Qed.

Lemma omap_cons_eq {A B} (f : A -> option B) (x : A) (l : list A) :
  omap f (x :: l) =
  match f x with Some y => y :: omap f l | None => omap f l end.
Proof. reflexivity. Qed.

Lemma process_all_elem writes :
  forall w t, strings_ok w ->
    t ∈ sharedStrings (process_all w writes) <->
    t ∈ sharedStrings w \/ t ∈ omap (fun vf => interned vf.1) writes.
Proof.
  induction writes as [|[value format] rest IH]; intros w t Hok.
  - cbn. rewrite elem_of_nil. tauto.
  - cbn [process_all]. rewrite IH by (apply processCell_strings_ok, Hok).
    rewrite processCell_elem by exact Hok. rewrite omap_cons_eq. cbn [fst].
    destruct (interned value) as [s|].
    + rewrite elem_of_cons. split.
      * intros [[H|[= <-]]|H]; auto.
      * intros [H|[->|H]]; auto.
    + split.
      * intros [[H|H]|H]; auto. discriminate.
      * intros [H|H]; auto.
Qed.

(** The table and its map, which is all of the writer that [_processCell]
    reads and writes. *)
Definition table (w : Writer) : list string * gmap string nat :=
  (sharedStrings w, sharedStringsMap w).

Lemma processCell_table w1 w2 value format :
  table w1 = table w2 ->
  (_processCell w1 value format).1 = (_processCell w2 value format).1 /\
  table (_processCell w1 value format).2
  = table (_processCell w2 value format).2.
Proof.
  unfold table. intros [= Hl Hm]. unfold _processCell.
  destruct value as [[| | | n | s | | |]|]; cbn [fst snd];
    try (split; [reflexivity|rewrite Hl, Hm; reflexivity]).
  - destruct n as [|[]| |]; cbn [fst snd];
      (split; [reflexivity|rewrite Hl, Hm; reflexivity]).
  - destruct (Str.startsWith "=" s); cbn [fst snd];
      [split; [reflexivity|rewrite Hl, Hm; reflexivity]|].
    destruct (String.eqb s ""); cbn [fst snd];
      [split; [reflexivity|rewrite Hl, Hm; reflexivity]|].
    rewrite Hm. destruct (sharedStringsMap w2 !! s);
      cbn [fst snd sharedStrings sharedStringsMap with_sharedStrings];
      rewrite Hl, ?Hm; split; reflexivity.
Qed.

Lemma getOrCreateSheet_table w sheet :
  table (_getOrCreateSheet w sheet).2 = table w.
Proof.
  unfold _getOrCreateSheet.
  destruct (sheetMap w !! sheet_name_of sheet); reflexivity.
Qed.

(** A [write] that returns has made exactly one call of [_processCell] as
    far as the table goes; one that throws has left the table alone. *)
Lemma write_at_table w row col value format sheet :
  table (write_at w row col value format sheet).2 =
  match (write_at w row col value format sheet).1 with
  | Return _ => table (_processCell w value format).2
  | Throw _ => table w
  end.
Proof.
  unfold write_at.
  pose proof (getOrCreateSheet_table w sheet) as Ht.
  destruct (_getOrCreateSheet w sheet) as [[sheetIndex nm] w1].
  cbn [snd] in Ht.
  destruct (sheets w1 !! sheetIndex) as [sheetObj|]; [|exact Ht].
  destruct (row <? 0); [exact Ht|].
  match goal with
  | |- context [_processCell ?w' value format] =>
      pose proof (processCell_table w' w value format Ht) as [_ Hp];
      destruct (_processCell w' value format) as [cellData w2]
  end.
  exact Hp.
Qed.

Lemma write_table w pos value format sheet :
  exists value' format',
    table (write w pos value format sheet).2 =
    match (write w pos value format sheet).1 with
    | Return _ => table (_processCell w value' format').2
    | Throw _ => table w
    end.
Proof.
  destruct pos as [row col|ref col]; cbn [write].
  - exists value, format. apply write_at_table.
  - eexists _, _. apply write_at_table.
Qed.

Lemma process_all_table writes :
  forall w1 w2, table w1 = table w2 ->
    table (process_all w1 writes) = table (process_all w2 writes).
Proof.
  induction writes as [|[value format] rest IH]; intros w1 w2 Ht;
    [exact Ht|].
  cbn [process_all]. apply IH, processCell_table, Ht.
Qed.

(** A sequence of calls of [write]. *)
Fixpoint write_all (w : Writer)
    (calls : list (Position * Arg * Arg * option SheetArg)) : Writer :=
  match calls with
  | [] => w
  | (pos, value, format, sheet) :: rest =>
      write_all (write w pos value format sheet).2 rest
  end.

(** Whatever calls of [write] are made, the table is the one that a
    sequence of calls of [_processCell] builds. *)
Lemma write_all_table calls :
  forall w, exists writes,
    table (write_all w calls) = table (process_all w writes).
Proof.
  induction calls as [|[[[pos value] format] sheet] rest IH]; intros w.
  - exists []. reflexivity.
  - cbn [write_all].
    destruct (IH (write w pos value format sheet).2) as [writes Hrest].
    destruct (write_table w pos value format sheet)
      as (value' & format' & Hstep).
    destruct (write w pos value format sheet).1.
    + exists ((value', format') :: writes). rewrite Hrest.
      cbn [process_all]. apply process_all_table, Hstep.
    + exists writes. rewrite Hrest. apply process_all_table, Hstep.
Qed.

End SharedStringFacts.

(** C4.  Shared-string interning, in any state reached from a new writer
    by a sequence of cell writes: a string that is already in the table
    gets its existing index and the writer is unchanged; the first
    occurrence is appended and gets the new index (the old length); values
    that are not non-empty, non-formula strings leave the table alone; and
    the table has no duplicates, holds exactly the interned strings of the
    values written, and so its length is the number of distinct such
    strings. *)
Theorem shared_string_interning
  (file : string) (writes : list (Workbook.Arg * Workbook.Arg))
  (value format : Workbook.Arg) :
  let w := process_all (Workbook.new_XlsxWriter file) writes in
  let written : list string :=
    omap (fun vf : Workbook.Arg * Workbook.Arg => interned vf.1) writes in
  match interned value with
  | Some s =>
      match Workbook.sharedStringsMap w !! s with
      | Some i =>
          (Workbook.sharedStrings w !! i) = Some s /\
          Workbook._processCell w value format =
          ({| Workbook.cell_value := index_value i; Workbook.cell_type := "s";
              Workbook.cell_isFormula := false;
              Workbook.cell_format := format |}, w)
      | None =>
          (s ∉ Workbook.sharedStrings w) /\
          (Workbook._processCell w value format).1 =
          {| Workbook.cell_value :=
               index_value (length (Workbook.sharedStrings w));
             Workbook.cell_type := "s"; Workbook.cell_isFormula := false;
             Workbook.cell_format := format |} /\
          Workbook.sharedStrings (Workbook._processCell w value format).2 =
          (Workbook.sharedStrings w ++ [s])%list
      end
  | None => (Workbook._processCell w value format).2 = w
  end /\
  NoDup (Workbook.sharedStrings w) /\
  (forall s, s ∈ Workbook.sharedStrings w <-> s ∈ written) /\
  length (Workbook.sharedStrings w) = size (list_to_set written : gset string).
Proof.
  intros w written.
  assert (Hok : strings_ok w)
    by (apply process_all_strings_ok, strings_ok_new).
  assert (Helem : forall s, s ∈ Workbook.sharedStrings w <-> s ∈ written).
  { intros s. unfold w. rewrite process_all_elem by apply strings_ok_new.
    change (Workbook.sharedStrings (Workbook.new_XlsxWriter file))
      with ([] : list string).
    rewrite elem_of_nil. tauto. }
  repeat split.
  - destruct (interned value) as [s|] eqn:Hint.
    + pose proof (processCell_interned w value format s Hint) as Hstep.
      destruct (Workbook.sharedStringsMap w !! s) as [i|] eqn:Hlook.
      * split; [apply Hok, Hlook|exact Hstep].
      * rewrite Hstep. cbn [fst snd]. split; [|split; reflexivity].
        intros Hin. apply list_elem_of_lookup_1 in Hin as [i Hi].
        apply Hok in Hi. congruence.
    + apply processCell_not_interned, Hint.
  - apply strings_ok_NoDup, Hok.
  - apply Helem.
  - apply Helem.
  - rewrite <- (size_list_to_set (C := gset string))
      by (apply strings_ok_NoDup, Hok).
    f_equal. apply set_eq. intros s.
    rewrite !elem_of_list_to_set. apply Helem.
Qed.

(** ** The style registry *)

Section RegistryFacts.
Import Js Workbook.

(** [formatMap] and [formats] describe each other: a key is mapped to the
    position of the format that has this key, and every format is found
    under its key. *)
Definition registry_ok (w : Writer) : Prop :=
  (forall key idx, formatMap w !! key = Some idx ->
     exists f, formats w !! idx = Some f /\ Fmt.key_of f = key /\
               Fmt.xfIndex f = Some idx) /\
  (forall idx f, formats w !! idx = Some f ->
     formatMap w !! Fmt.key_of f = Some idx).

Lemma getKey_new properties :
  Fmt.getKey (Fmt.new_Format properties) =
  (Fmt.key_of (Fmt.new_Format properties),
   Fmt.set_cachedKey (Fmt.new_Format properties)
     (Some (Fmt.key_of (Fmt.new_Format properties)))).
Proof. reflexivity. Qed.

Lemma assign_numFormatIndex_key w f :
  Fmt.key_of (assign_numFormatIndex w f).1.1 = Fmt.key_of f /\
  Fmt.xfIndex (assign_numFormatIndex w f).1.1 = Fmt.xfIndex f /\
  Fmt.numFormat (assign_numFormatIndex w f).1.1 = Fmt.numFormat f.
Proof.
  unfold assign_numFormatIndex.
  destruct (scalar_truthy (Fmt.numFormat f) && _); [|auto].
  destruct (get Fmt.NUM_FORMATS _); try (repeat split; reflexivity).
  destruct (customNumFormats w !! _); repeat split; reflexivity.
Qed.

Lemma addFormat_hit w properties idx :
  formatMap w !! Fmt.key_of (Fmt.new_Format properties) = Some idx ->
  addFormat w properties = (idx, w).
Proof.
  intros H. unfold addFormat. rewrite getKey_new, H. reflexivity.
Qed.

(** The object a miss creates. *)
Definition fresh_format (w : Writer) (properties : Fmt.Properties) : Fmt.Format :=
  (assign_numFormatIndex w
     (Fmt.set_xfIndex
        (Fmt.set_cachedKey (Fmt.new_Format properties)
           (Some (Fmt.key_of (Fmt.new_Format properties))))
        (Some (length (formats w))))).1.1.

Lemma addFormat_miss w properties :
  formatMap w !! Fmt.key_of (Fmt.new_Format properties) = None ->
  (addFormat w properties).1 = length (formats w) /\
  formats (addFormat w properties).2 =
    (formats w ++ [fresh_format w properties])%list /\
  formatMap (addFormat w properties).2 =
    <[Fmt.key_of (Fmt.new_Format properties) := length (formats w)]>
      (formatMap w).
Proof.
  intros H. unfold addFormat, fresh_format. rewrite getKey_new, H.
  destruct (assign_numFormatIndex w _) as [[f customs] next].
  repeat split; reflexivity.
Qed.

Lemma fresh_format_key w properties :
  Fmt.key_of (fresh_format w properties) =
    Fmt.key_of (Fmt.new_Format properties) /\
  Fmt.xfIndex (fresh_format w properties) = Some (length (formats w)).
Proof.
  unfold fresh_format.
  destruct (assign_numFormatIndex_key w
    (Fmt.set_xfIndex
       (Fmt.set_cachedKey (Fmt.new_Format properties)
          (Some (Fmt.key_of (Fmt.new_Format properties))))
       (Some (length (formats w))))) as (Hk & Hx & _).
  rewrite Hk, Hx. split; reflexivity.
Qed.

Lemma registry_ok_addFormat w properties :
  registry_ok w -> registry_ok (addFormat w properties).2.
Proof.
  intros [Hmap Hlist].
  destruct (formatMap w !! Fmt.key_of (Fmt.new_Format properties))
    as [idx|] eqn:Hlook.
  - rewrite (addFormat_hit _ _ _ Hlook). split; assumption.
  - destruct (addFormat_miss _ _ Hlook) as (_ & Hf & Hm).
    destruct (fresh_format_key w properties) as [Hkey Hxf].
    split.
    + intros key idx. rewrite Hf, Hm. intros Hk.
      destruct (decide (Fmt.key_of (Fmt.new_Format properties) = key))
        as [<-|Hne].
      * rewrite lookup_insert_eq in Hk. injection Hk as <-.
        exists (fresh_format w properties).
        rewrite lookup_app_r by lia. rewrite Nat.sub_diag. auto.
      * rewrite lookup_insert_ne in Hk by exact Hne.
        destruct (Hmap _ _ Hk) as (f & Hfl & Hfk & Hfx).
        exists f. rewrite lookup_app_l by (eapply lookup_lt_Some, Hfl). auto.
    + intros idx f. rewrite Hf, Hm. intros Hi.
      destruct (decide (idx < length (formats w))%nat) as [Hlt|Hge].
      * rewrite lookup_app_l in Hi by exact Hlt.
        pose proof (Hlist _ _ Hi) as Hk.
        rewrite lookup_insert_ne; [exact Hk|]. intros Heq.
        rewrite <- Heq in Hk. congruence.
      * rewrite lookup_app_r in Hi by lia.
        destruct (idx - length (formats w))%nat as [|k] eqn:Hk;
          [|discriminate].
        cbn in Hi. injection Hi as <-. rewrite Hkey, lookup_insert_eq.
        f_equal. lia.
Qed.

Lemma registry_ok_new file : registry_ok (new_XlsxWriter file).
Proof.
  unfold new_XlsxWriter.
  match goal with
  | |- registry_ok (let '(h, w) := addFormat ?w0 [] in _) =>
      pose proof (registry_ok_addFormat w0 []) as H;
      destruct (addFormat w0 []) as [h w1]
  end.
  cbn [snd] in H.
  assert (Hok : registry_ok w1).
  { apply H. split.
    - intros key idx Hk. cbn in Hk. rewrite lookup_empty in Hk. discriminate.
    - intros idx f Hf. cbn in Hf. rewrite lookup_nil in Hf. discriminate. }
  exact Hok.
Qed.

(** After a registration, the key is registered at the handle returned. *)
Lemma addFormat_registers w properties :
  registry_ok w ->
  formatMap (addFormat w properties).2
    !! Fmt.key_of (Fmt.new_Format properties) = Some (addFormat w properties).1.
Proof.
  intros Hok.
  destruct (formatMap w !! Fmt.key_of (Fmt.new_Format properties))
    as [idx|] eqn:Hlook.
  - rewrite (addFormat_hit _ _ _ Hlook). exact Hlook.
  - destruct (addFormat_miss _ _ Hlook) as (-> & _ & ->).
    apply lookup_insert_eq.
Qed.

(** Equality of keys is equality of the twenty-eight key fields as
    [JSON.stringify] writes them. *)
Lemma key_of_eq_fields f1 f2 :
  Fmt.key_of f1 = Fmt.key_of f2 <->
    Js.to_json (Fmt.fontName f1) = Js.to_json (Fmt.fontName f2) /\
    Js.to_json (Fmt.fontSize f1) = Js.to_json (Fmt.fontSize f2) /\
    Js.to_json (Fmt.fontColor f1) = Js.to_json (Fmt.fontColor f2) /\
    Js.to_json (Fmt.bold f1) = Js.to_json (Fmt.bold f2) /\
    Js.to_json (Fmt.italic f1) = Js.to_json (Fmt.italic f2) /\
    Js.to_json (Fmt.underline f1) = Js.to_json (Fmt.underline f2) /\
    Js.to_json (Fmt.fontStrikeout f1) = Js.to_json (Fmt.fontStrikeout f2) /\
    Js.to_json (Fmt.fontScript f1) = Js.to_json (Fmt.fontScript f2) /\
    Js.to_json (Fmt.numFormat f1) = Js.to_json (Fmt.numFormat f2) /\
    Js.to_json (Fmt.align f1) = Js.to_json (Fmt.align f2) /\
    Js.to_json (Fmt.valign f1) = Js.to_json (Fmt.valign f2) /\
    Js.to_json (Fmt.rotation f1) = Js.to_json (Fmt.rotation f2) /\
    Js.to_json (Fmt.textWrap f1) = Js.to_json (Fmt.textWrap f2) /\
    Js.to_json (Fmt.shrink f1) = Js.to_json (Fmt.shrink f2) /\
    Js.to_json (Fmt.indent f1) = Js.to_json (Fmt.indent f2) /\
    Js.to_json (Fmt.left f1) = Js.to_json (Fmt.left f2) /\
    Js.to_json (Fmt.leftColor f1) = Js.to_json (Fmt.leftColor f2) /\
    Js.to_json (Fmt.right f1) = Js.to_json (Fmt.right f2) /\
    Js.to_json (Fmt.rightColor f1) = Js.to_json (Fmt.rightColor f2) /\
    Js.to_json (Fmt.top f1) = Js.to_json (Fmt.top f2) /\
    Js.to_json (Fmt.topColor f1) = Js.to_json (Fmt.topColor f2) /\
    Js.to_json (Fmt.bottom f1) = Js.to_json (Fmt.bottom f2) /\
    Js.to_json (Fmt.bottomColor f1) = Js.to_json (Fmt.bottomColor f2) /\
    Js.to_json (Fmt.pattern f1) = Js.to_json (Fmt.pattern f2) /\
    Js.to_json (Fmt.bgColor f1) = Js.to_json (Fmt.bgColor f2) /\
    Js.to_json (Fmt.fgColor f1) = Js.to_json (Fmt.fgColor f2) /\
    Js.to_json (Fmt.locked f1) = Js.to_json (Fmt.locked f2) /\
    Js.to_json (Fmt.hidden f1) = Js.to_json (Fmt.hidden f2).
Proof.
  unfold Fmt.key_of. split.
  - intros H. injection H. intros. repeat split; assumption.
  - intros H.
    repeat match goal with Hc : _ /\ _ |- _ => destruct Hc end.
    congruence.
Qed.

End RegistryFacts.

(** C6 (as the code has it).  Registration is idempotent on the canonical
    key: in a consistent registry, two specs whose [Format]s have the same
    key (the same twenty-eight key fields, see [key_of_eq_fields]) get the
    same handle, the second call changing nothing, and the object at that
    handle carries the handle as its [xfIndex]; two specs whose keys differ
    get different handles.  The registry stays consistent. *)
Theorem addFormat_idempotent_on_key
  (w : Workbook.Writer) (p1 p2 : list (string * Js.Scalar)) :
  registry_ok w ->
  let r1 := Workbook.addFormat w p1 in
  let r2 := Workbook.addFormat r1.2 p2 in
  let k1 := Fmt.key_of (Fmt.new_Format p1) in
  let k2 := Fmt.key_of (Fmt.new_Format p2) in
  (k1 = k2 -> r2.1 = r1.1 /\ r2.2 = r1.2) /\
  (k1 <> k2 -> r2.1 <> r1.1) /\
  (exists f, Workbook.formats r1.2 !! r1.1 = Some f /\
             Fmt.xfIndex f = Some r1.1 /\ Fmt.key_of f = k1) /\
  registry_ok r2.2.
Proof.
  intros Hok r1 r2 k1 k2.
  assert (Hok1 : registry_ok r1.2) by apply registry_ok_addFormat, Hok.
  assert (Hreg1 : Workbook.formatMap r1.2 !! k1 = Some r1.1)
    by apply addFormat_registers, Hok.
  assert (Hreg2 : Workbook.formatMap r2.2 !! k2 = Some r2.1)
    by apply addFormat_registers, Hok1.
  repeat split.
  - subst r2. rewrite (addFormat_hit r1.2 p2 r1.1); [reflexivity|].
    fold k2. rewrite <- H. exact Hreg1.
  - subst r2. rewrite (addFormat_hit r1.2 p2 r1.1); [reflexivity|].
    fold k2. rewrite <- H. exact Hreg1.
  - intros Hne Heq.
    destruct (Workbook.formatMap r1.2 !! k2) as [idx|] eqn:Hlook.
    + subst r2. rewrite (addFormat_hit _ _ _ Hlook) in Heq. cbn [fst] in Heq.
      subst idx. destruct Hok1 as [Hmap _].
      destruct (Hmap _ _ Hlook) as (f & Hf & Hk & _).
      destruct (Hmap _ _ Hreg1) as (f' & Hf' & Hk' & _).
      congruence.
    + destruct (addFormat_miss _ _ Hlook) as (Hidx & _ & _).
      fold r2 in Hidx. destruct Hok1 as [Hmap _].
      destruct (Hmap _ _ Hreg1) as (f & Hf & _).
      apply lookup_lt_Some in Hf. lia.
  - destruct Hok1 as [Hmap _].
    destruct (Hmap _ _ Hreg1) as (f & Hf & Hk & Hx). eauto.
  - apply registry_ok_addFormat, Hok1.
  - apply registry_ok_addFormat, Hok1.
Qed.

Lemma addFormat_idempotent_on_key_witness :
  let w := Workbook.new_XlsxWriter "out.xlsx" in
  let p1 := [("bold", Js.SBool true); ("border", Js.SNum (Js.ofZ 1))] in
  let p2 := [("left", Js.SNum (Js.ofZ 1)); ("right", Js.SNum (Js.ofZ 1));
             ("top", Js.SNum (Js.ofZ 1)); ("bottom", Js.SNum (Js.ofZ 1));
             ("bold", Js.SBool true)] in
  (Workbook.addFormat (Workbook.addFormat w p1).2 p2).1 =
  (Workbook.addFormat w p1).1.
Proof.
  intros w p1 p2.
  apply (proj1 (addFormat_idempotent_on_key w p1 p2 (registry_ok_new _))).
  reflexivity.
Defined.

(** C6 as stated fails: a spec with the single extra field
    [diagonal_type] (which ends up in the [Format] object) resolves to the
    handle of the spec without it. *)
Lemma addFormat_diagonal_type_same_handle :
  let w := Workbook.new_XlsxWriter "out.xlsx" in
  let p1 : list (string * Js.Scalar) := [("bold", Js.SBool true)] in
  let p2 := [("bold", Js.SBool true); ("diagonal_type", Js.SNum (Js.ofZ 1))] in
  Fmt.diagonalType (Fmt.new_Format p1) <> Fmt.diagonalType (Fmt.new_Format p2) /\
  (Workbook.addFormat (Workbook.addFormat w p1).2 p2).1 =
  (Workbook.addFormat w p1).1.
Proof.
  cbv zeta. split; [vm_compute; discriminate|vm_compute; reflexivity].
Qed.

(** ** Number format ids *)

Section NumFormatFacts.
Import Js Workbook.

(** Custom ids are handed out in sequence from 164, one per string. *)
Definition numFormats_ok (w : Writer) : Prop :=
  nextNumFormatId w = 164 + Z.of_nat (size (customNumFormats w)) /\
  (forall nf id, customNumFormats w !! nf = Some id ->
     164 <= id < nextNumFormatId w) /\
  (forall nf1 nf2 id, customNumFormats w !! nf1 = Some id ->
     customNumFormats w !! nf2 = Some id -> nf1 = nf2).

(** What the code treats as a custom format: [numFormat] is truthy, is not
    ['General'], and [NUM_FORMATS[numFormat]] is [undefined]. *)
Definition treated_as_custom (nf : Scalar) : Prop :=
  scalar_truthy nf = true /\ nf <> SStr "General" /\
  get Fmt.NUM_FORMATS (scalar_to_string nf) = VUndefined.

Lemma assign_numFormatIndex_custom w f :
  treated_as_custom (Fmt.numFormat f) ->
  assign_numFormatIndex w f =
  match customNumFormats w !! Fmt.numFormat f with
  | Some id =>
      (Fmt.set_numFormatIndex f (VNum (ofZ id)),
       customNumFormats w, nextNumFormatId w)
  | None =>
      (Fmt.set_numFormatIndex f (VNum (ofZ (nextNumFormatId w))),
       <[Fmt.numFormat f := nextNumFormatId w]> (customNumFormats w),
       nextNumFormatId w + 1)
  end.
Proof.
  intros (Ht & Hg & Hu). unfold assign_numFormatIndex.
  rewrite Ht, Hu. rewrite bool_decide_eq_false_2 by exact Hg.
  cbn [negb andb]. destruct (customNumFormats w !! Fmt.numFormat f); reflexivity.
Qed.

Lemma assign_numFormatIndex_ok w f :
  numFormats_ok w ->
  let r := assign_numFormatIndex w f in
  164 + Z.of_nat (size r.1.2) = r.2 /\
  (forall nf id, r.1.2 !! nf = Some id -> 164 <= id < r.2) /\
  (forall nf1 nf2 id, r.1.2 !! nf1 = Some id -> r.1.2 !! nf2 = Some id ->
     nf1 = nf2).
Proof.
  intros (Hnext & Hrange & Hinj). unfold assign_numFormatIndex.
  assert (Hsame : forall f' : Fmt.Format,
    let r := (f', customNumFormats w, nextNumFormatId w) in
    164 + Z.of_nat (size r.1.2) = r.2 /\
    (forall nf id, r.1.2 !! nf = Some id -> 164 <= id < r.2) /\
    (forall nf1 nf2 id, r.1.2 !! nf1 = Some id -> r.1.2 !! nf2 = Some id ->
       nf1 = nf2)).
  { intros f'. cbn [fst snd]. split; [lia|split; [exact Hrange|exact Hinj]]. }
  destruct (scalar_truthy (Fmt.numFormat f) && _); [|apply Hsame].
  destruct (get Fmt.NUM_FORMATS _); try apply Hsame.
  destruct (customNumFormats w !! Fmt.numFormat f) as [id|] eqn:Hlook;
    [apply Hsame|].
  cbn [fst snd]. split; [|split].
  - rewrite map_size_insert_None by exact Hlook. lia.
  - intros nf id. destruct (decide (Fmt.numFormat f = nf)) as [<-|Hne].
    + rewrite lookup_insert_eq. intros [= <-]. lia.
    + rewrite lookup_insert_ne by exact Hne. intros H.
      apply Hrange in H. lia.
  - intros nf1 nf2 id.
    destruct (decide (Fmt.numFormat f = nf1)) as [<-|Hne1];
      destruct (decide (Fmt.numFormat f = nf2)) as [<-|Hne2];
      rewrite ?lookup_insert_eq, ?lookup_insert_ne by assumption.
    + reflexivity.
    + intros [= <-] H. apply Hrange in H. lia.
    + intros H [= <-]. apply Hrange in H. lia.
    + apply Hinj.
Qed.

Lemma numFormats_ok_addFormat w properties :
  numFormats_ok w -> numFormats_ok (addFormat w properties).2.
Proof.
  intros Hok. unfold addFormat. rewrite getKey_new.
  destruct (formatMap w !! _); [exact Hok|].
  match goal with
  | |- context [assign_numFormatIndex w ?f] =>
      pose proof (assign_numFormatIndex_ok w f Hok) as H;
      destruct (assign_numFormatIndex w f) as [[f' customs] next]
  end.
  cbn in H |- *. destruct H as (H1 & H2 & H3).
  split; [|split]; cbn; [lia|exact H2|exact H3].
Qed.

Lemma numFormats_ok_new file : numFormats_ok (new_XlsxWriter file).
Proof.
  split; [|split].
  - reflexivity.
  - intros nf id H.
    change (customNumFormats (new_XlsxWriter file)) with (∅ : gmap Scalar Z) in H.
    rewrite lookup_empty in H. discriminate.
  - intros nf1 nf2 id H.
    change (customNumFormats (new_XlsxWriter file)) with (∅ : gmap Scalar Z) in H.
    rewrite lookup_empty in H. discriminate.
Qed.

(** Registering a format whose number-format string the code treats as
    custom: the string keeps the id it has, or gets [164 + k] when [k]
    custom strings are registered already; the object created carries
    that id. *)
Lemma addFormat_custom_id w properties :
  numFormats_ok w ->
  treated_as_custom (Fmt.numFormat (Fmt.new_Format properties)) ->
  formatMap w !! Fmt.key_of (Fmt.new_Format properties) = None ->
  let nf := Fmt.numFormat (Fmt.new_Format properties) in
  let id :=
    match customNumFormats w !! nf with
    | Some id => id
    | None => 164 + Z.of_nat (size (customNumFormats w))
    end in
  customNumFormats (addFormat w properties).2 !! nf = Some id /\
  Fmt.numFormatIndex <$> formats (addFormat w properties).2
                          !! (addFormat w properties).1
    = Some (VNum (ofZ id)).
Proof.
  intros Hok Hcustom Hmiss nf id. unfold addFormat.
  rewrite getKey_new, Hmiss.
  rewrite assign_numFormatIndex_custom by exact Hcustom.
  cbn [Fmt.numFormat Fmt.set_xfIndex Fmt.set_cachedKey]. fold nf.
  destruct Hok as (Hnext & _). subst id.
  destruct (customNumFormats w !! nf) as [id|] eqn:Hlook;
    cbn [fst snd customNumFormats formats with_numFormats with_formats].
  - split; [exact Hlook|].
    rewrite lookup_app_r by lia. rewrite Nat.sub_diag. reflexivity.
  - split; [rewrite lookup_insert_eq; f_equal; exact Hnext|].
    rewrite lookup_app_r by lia. rewrite Nat.sub_diag. cbn.
    rewrite Hnext. reflexivity.
Qed.

(** Every string of the table is looked up to its reserved id. *)
Lemma NUM_FORMATS_builtin :
  Forall (fun kv : string * JsVal => get Fmt.NUM_FORMATS kv.1 = kv.2)
    Fmt.NUM_FORMATS.
Proof. repeat constructor. Qed.

End NumFormatFacts.

(** C7 at its failing input.  ["constructor"] is not one of the built-in
    format strings, yet [NUM_FORMATS["constructor"]] is not [undefined]
    (the table is a plain object and inherits the name): the format
    registered gets the inherited function as its [numFormatIndex], no id
    from 164 on is assigned and the string is not recorded as a custom
    format. *)
Theorem addFormat_inherited_name_not_custom :
  let w := Workbook.new_XlsxWriter "out.xlsx" in
  let r := Workbook.addFormat w [("num_format", Js.SStr "constructor")] in
  Js.own Fmt.NUM_FORMATS "constructor" = None /\
  Fmt.numFormatIndex <$> Workbook.formats r.2 !! r.1
    = Some (Js.VFun "constructor") /\
  Workbook.customNumFormats r.2 !! Js.SStr "constructor" = None /\
  Workbook.nextNumFormatId r.2 = 164.
Proof.
  cbv zeta. repeat split; vm_compute; reflexivity.
Qed.

(** ** Saving *)

Section SaveFacts.
Import Js Workbook.







End SaveFacts.




(** ** Text that cannot contain [Infinity] or [NaN] *)

Section TextFacts.

Lemma forallb_app p s t :
  Str.forallb p (s +:+ t) = Str.forallb p s && Str.forallb p t.
Proof.
  induction s as [|c s IH]; [reflexivity|].
  rewrite str_app_cons. cbn [Str.forallb]. rewrite IH, andb_assoc. reflexivity.
Qed.

Lemma forallb_impl (p q : ascii -> bool) s :
  (forall c, p c = true -> q c = true) ->
  Str.forallb p s = true -> Str.forallb q s = true.
Proof.
  intros Hpq. induction s as [|c s IH]; [reflexivity|].
  cbn [Str.forallb]. intros H. apply andb_prop in H as [Hc Hs].
  rewrite (Hpq _ Hc), (IH Hs). reflexivity.
Qed.

Lemma forallb_substring p s :
  Str.forallb p s = true ->
  forall n m, Str.forallb p (String.substring n m s) = true.
Proof.
  induction s as [|c s IH]; intros H n m.
  - destruct n, m; reflexivity.
  - cbn [Str.forallb] in H. apply andb_prop in H as [Hc Hs].
    destruct n as [|n].
    + destruct m as [|m]; [reflexivity|].
      cbn [String.substring Str.forallb]. rewrite Hc, (IH Hs). reflexivity.
    + cbn [String.substring]. apply IH, Hs.
Qed.

(** No letter [f]; and every [a] is followed by a character other than
    [N].  Both properties survive concatenation, and they exclude the
    texts [Infinity] and [NaN]. *)
Definition no_f (s : string) : bool :=
  Str.forallb (fun c => negb (Ascii.eqb c "f")) s.

Fixpoint a_closed (s : string) : bool :=
  match s with
  | EmptyString => true
  | String c rest =>
      (if Ascii.eqb c "a"
       then match rest with
            | EmptyString => false
            | String d _ => negb (Ascii.eqb d "N")
            end
       else true) && a_closed rest
  end.

Definition clean (s : string) : bool := no_f s && a_closed s.

(** Characters that occur in numbers, references and attribute names of
    number cells: anything but [a] and [f]. *)
Definition plain_char (c : ascii) : bool :=
  negb (Ascii.eqb c "a") && negb (Ascii.eqb c "f").

Lemma a_closed_app s t :
  a_closed s = true -> a_closed t = true -> a_closed (s +:+ t) = true.
Proof.
  intros Hs Ht. induction s as [|c s IH]; [exact Ht|].
  rewrite str_app_cons. cbn [a_closed] in Hs |- *.
  apply andb_prop in Hs as [Hc Hrest]. rewrite (IH Hrest), andb_true_r.
  destruct (Ascii.eqb c "a"); [|reflexivity].
  destruct s as [|d s']; [discriminate|]. rewrite str_app_cons. exact Hc.
Qed.

Lemma clean_app s t :
  clean s = true -> clean t = true -> clean (s +:+ t) = true.
Proof.
  unfold clean, no_f. intros Hs Ht.
  apply andb_prop in Hs as [Hs1 Hs2]. apply andb_prop in Ht as [Ht1 Ht2].
  rewrite forallb_app, Hs1, Ht1, a_closed_app by assumption. reflexivity.
Qed.

Lemma plain_clean s : Str.forallb plain_char s = true -> clean s = true.
Proof.
  intros H. unfold clean, no_f. apply andb_true_intro. split.
  - revert H. apply forallb_impl. intros c Hc. unfold plain_char in Hc.
    apply andb_prop in Hc as [_ Hc]. exact Hc.
  - induction s as [|c s IH]; [reflexivity|].
    cbn [Str.forallb] in H. apply andb_prop in H as [Hc Hs].
    cbn [a_closed]. rewrite (IH Hs), andb_true_r.
    unfold plain_char in Hc. apply andb_prop in Hc as [Hc _].
    destruct (Ascii.eqb c "a"); [discriminate|reflexivity].
Qed.

Lemma startsWith_cons c p s :
  Str.startsWith (String c p) s = true ->
  exists s', s = String c s' /\ Str.startsWith p s' = true.
Proof.
  destruct s as [|d s']; [discriminate|]. cbn [Str.startsWith].
  destruct (Ascii.eqb_spec c d) as [->|]; [|discriminate]. eauto.
Qed.

Lemma no_f_excludes_Infinity s :
  no_f s = true -> Str.includes "Infinity" s = false.
Proof.
  unfold no_f. induction s as [|c s IH]; intros H; [reflexivity|].
  cbn [Str.includes]. cbn [Str.forallb] in H.
  apply andb_prop in H as [Hc Hs]. rewrite (IH Hs), orb_false_r.
  destruct (Str.startsWith "Infinity" (String c s)) eqn:Hst; [|reflexivity].
  apply startsWith_cons in Hst as (s1 & [= -> ->] & Hst).
  apply startsWith_cons in Hst as (s2 & -> & Hst).
  apply startsWith_cons in Hst as (s3 & -> & Hst).
  cbn in Hs. discriminate.
Qed.

Lemma a_closed_excludes_NaN s :
  a_closed s = true -> Str.includes "NaN" s = false.
Proof.
  induction s as [|c s IH]; intros H; [reflexivity|].
  cbn [Str.includes]. cbn [a_closed] in H.
  apply andb_prop in H as [Hc Hs]. rewrite (IH Hs), orb_false_r.
  destruct (Str.startsWith "NaN" (String c s)) eqn:Hst; [|reflexivity].
  apply startsWith_cons in Hst as (s1 & [= -> ->] & Hst).
  apply startsWith_cons in Hst as (s2 & -> & Hst).
  apply startsWith_cons in Hst as (s3 & -> & Hst).
  cbn in Hs. discriminate.
Qed.

Lemma clean_excludes s :
  clean s = true ->
  Str.includes "Infinity" s = false /\ Str.includes "NaN" s = false.
Proof.
  unfold clean. intros H. apply andb_prop in H as [H1 H2].
  split; [apply no_f_excludes_Infinity, H1|apply a_closed_excludes_NaN, H2].
Qed.

End TextFacts.

Section RenderFacts.
Import Xml.

Lemma render_attrs_clean attrs :
  Forall (fun s => clean s = true) (attr_strings attrs) ->
  clean (render_attrs attrs) = true.
Proof.
  induction attrs as [|[k v] rest IH]; intros H; [reflexivity|].
  cbn [attr_strings flat_map fst snd app] in H.
  apply Forall_cons in H as [Hk H]. apply Forall_cons in H as [Hv H].
  cbn [render_attrs].
  repeat (apply clean_app; try assumption; try reflexivity).
  apply IH, H.
Qed.

Lemma concat_map_clean {A} (f : A -> string) (l : list A) :
  Forall (fun x => clean (f x) = true) l -> clean (concat_map f l) = true.
Proof.
  induction 1 as [|x l Hx _ IH]; [reflexivity|].
  cbn [concat_map]. apply clean_app; assumption.
Qed.

(** A node made of clean pieces renders to clean text. *)
Lemma render_clean :
  forall n, Forall (fun s => clean s = true) (strings_of n) ->
            clean (render n) = true.
Proof.
  fix IH 1. intros [text|tag attrs children|tag attrs] H.
  - apply Forall_cons in H as [H _]. exact H.
  - cbn [strings_of] in H. apply Forall_cons in H as [Htag H].
    apply Forall_app in H as [Hattrs Hchildren].
    cbn [render].
    repeat (apply clean_app; try assumption; try reflexivity).
    + apply render_attrs_clean, Hattrs.
    + apply concat_map_clean.
      induction children as [|c rest IHc]; [constructor|].
      cbn [flat_map] in Hchildren.
      apply Forall_app in Hchildren as [Hc Hrest].
      constructor; [apply IH, Hc|apply IHc, Hrest].
  - cbn [strings_of] in H. apply Forall_cons in H as [Htag Hattrs].
    cbn [render].
    repeat (apply clean_app; try assumption; try reflexivity).
    apply render_attrs_clean, Hattrs.
Qed.

Lemma render_all_clean nodes :
  Forall (fun s => clean s = true) (flat_map strings_of nodes) ->
  clean (render_all nodes) = true.
Proof.
  intros H. apply concat_map_clean.
  induction nodes as [|n rest IH]; [constructor|].
  cbn [flat_map] in H. apply Forall_app in H as [Hn Hrest].
  constructor; [apply render_clean, Hn|apply IH, Hrest].
Qed.

End RenderFacts.

(** ** Numbers in sheet data *)

Section NumberTextFacts.
Import Js.

(** The characters of the text of a finite number. *)
Definition num_char (c : ascii) : bool :=
  Str.is_digit c || Ascii.eqb c "-" || Ascii.eqb c "+" || Ascii.eqb c "."
  || Ascii.eqb c "e".

Lemma uint_num_chars d :
  Str.forallb num_char (DecimalString.NilEmpty.string_of_uint d) = true.
Proof. induction d; cbn; auto. Qed.

Lemma ofZ_num_chars z : Str.forallb num_char (Str.ofZ z) = true.
Proof.
  unfold Str.ofZ, DecimalString.NilZero.string_of_int,
    DecimalString.NilZero.string_of_uint.
  destruct (Z.to_int z) as [d|d].
  - destruct d; try reflexivity; apply (uint_num_chars (_ d)).
  - cbn [Str.forallb]. destruct d; try reflexivity;
      apply (uint_num_chars (_ d)).
Qed.

Lemma zeros_num_chars n : Str.forallb num_char (zeros n) = true.
Proof. induction n; [reflexivity|exact IHn]. Qed.

Lemma finToString_num_chars s e :
  Str.forallb num_char (finToString s e) = true.
Proof.
  unfold finToString, digits.
  pose proof (uint_num_chars (Pos.to_uint s)) as Hd.
  pose proof (zeros_num_chars) as Hz.
  pose proof (ofZ_num_chars) as Ho.
  pose proof (forallb_substring num_char _ Hd) as Hs.
  repeat match goal with
         | |- context [if ?b then _ else _] => destruct b
         end;
    rewrite ?forallb_app, ?Hd, ?Hz, ?Ho, ?Hs; reflexivity.
Qed.

Lemma numToString_num_chars n :
  isFinite n = true -> Str.forallb num_char (numToString n) = true.
Proof.
  destruct n as [|neg| |neg s e]; try discriminate; intros _; [reflexivity|].
  cbn [numToString]. rewrite forallb_app, finToString_num_chars.
  destruct neg; reflexivity.
Qed.

Lemma ofZ_finite z : isFinite (ofZ z) = true.
Proof.
  destruct z as [|p|p]; [reflexivity| |]; cbn [ofZ];
    destruct (strip_zeros _ _ _); reflexivity.
Qed.

Lemma num_char_plain c : num_char c = true -> plain_char c = true.
Proof.
  unfold num_char, plain_char, Str.is_digit.
  destruct (Ascii.eqb_spec c "a") as [->|]; [discriminate|].
  destruct (Ascii.eqb_spec c "f") as [->|]; [discriminate|]. reflexivity.
Qed.

Lemma upper_plain c : Str.is_upper c = true -> plain_char c = true.
Proof.
  unfold plain_char.
  destruct (Ascii.eqb_spec c "a") as [->|]; [discriminate|].
  destruct (Ascii.eqb_spec c "f") as [->|]; [discriminate|]. reflexivity.
Qed.

Lemma ofZ_clean z : clean (Str.ofZ z) = true.
Proof.
  apply plain_clean. eapply forallb_impl; [apply num_char_plain|].
  apply ofZ_num_chars.
Qed.

Lemma numToString_clean n : isFinite n = true -> clean (numToString n) = true.
Proof.
  intros H. apply plain_clean. eapply forallb_impl; [apply num_char_plain|].
  apply numToString_num_chars, H.
Qed.

Lemma xlColumn_upper col : Str.forallb Str.is_upper (Charts.xlColumn col) = true.
Proof.
  unfold Charts.xlColumn. destruct (Z_le_gt_dec 0 col) as [Hle|Hgt].
  - apply xlColumn_loop_upper; [exact Hle|reflexivity].
  - rewrite xlColumn_loop_unfold. destruct (Z_gt_dec col 0); [lia|reflexivity].
Qed.

Lemma cellRef_clean col rowNum :
  clean (Charts.xlColumn col +:+ Str.ofZ rowNum) = true.
Proof.
  apply plain_clean. rewrite forallb_app. apply andb_true_intro. split.
  - eapply forallb_impl; [apply upper_plain|apply xlColumn_upper].
  - eapply forallb_impl; [apply num_char_plain|apply ofZ_num_chars].
Qed.

End NumberTextFacts.

Section SheetDataFacts.
Import Js Workbook Xml.
Variable rt : Runtime.

(** No format, or a [Format] object. *)
Definition format_or_none (a : Arg) : bool :=
  match a with
  | AVal VUndefined | AVal VNull | AFormat _ => true
  | _ => false
  end.

(** What [_processCell] stores for a number: type ['n'], no formula, and
    either a finite number or the empty string. *)
Definition number_cell (c : Cell) : bool :=
  String.eqb (cell_type c) "n" && negb (cell_isFormula c)
  && format_or_none (cell_format c)
  && match cell_value c with
     | AVal (VStr "") => true
     | AVal (VNum n) => isFinite n
     | _ => false
     end.

Definition number_cells (d : list (list (option Cell))) : Prop :=
  Forall (Forall (fun oc => match oc with
                            | Some c => number_cell c = true
                            | None => True
                            end)) d.

(** Row settings with a finite height or none, and a [Format] or none. *)
Definition plain_row_info (ri : RowInfo) : bool :=
  format_or_none (row_format ri)
  && match row_height ri with Some h => isFinite h | None => true end.

Lemma processCell_number w n fmt :
  format_or_none fmt = true ->
  number_cell (_processCell w (AVal (VNum n)) fmt).1 = true.
Proof.
  intros Hf. unfold _processCell, number_cell.
  destruct n as [|[]| |]; cbn; rewrite Hf; reflexivity.
Qed.

Lemma xfIndex_text_clean fmt :
  format_or_none fmt = true ->
  match arg_xfIndex fmt with
  | VNull | VUndefined => True
  | xf => clean (toStringVal rt xf) = true
  end.
Proof.
  destruct fmt as [[]|[i|]]; try discriminate; intros _; cbn; auto.
  apply numToString_clean, ofZ_finite.
Qed.

Lemma styleAttr_clean c :
  format_or_none (cell_format c) = true ->
  Forall (fun s => clean s = true) (attr_strings (styleAttr rt c)).
Proof.
  intros Hf. unfold styleAttr.
  destruct (arg_truthy (cell_format c)); [|constructor].
  pose proof (xfIndex_text_clean _ Hf) as Hx.
  destruct (arg_xfIndex (cell_format c)); try constructor;
    try reflexivity; try (constructor; [exact Hx|constructor]).
Qed.

Lemma cell_xml_clean c colNum rowNum :
  number_cell c = true ->
  Forall (fun s => clean s = true)
    (flat_map strings_of (cell_xml rt c colNum rowNum)).
Proof.
  unfold number_cell. intros H.
  apply andb_prop in H as [H Hv]. apply andb_prop in H as [H Hf].
  apply andb_prop in H as [Ht Hform]. apply negb_true_iff in Hform.
  pose proof (styleAttr_clean c Hf) as Hstyle.
  pose proof (cellRef_clean colNum rowNum) as Href.
  unfold cell_xml. rewrite Hform, Ht.
  destruct (is_blank (cell_value c)) eqn:Hblank.
  - destruct (styleAttr rt c) as [|a rest] eqn:Hs; [constructor|].
    cbn [flat_map strings_of app]. rewrite app_nil_r.
    constructor; [reflexivity|].
    change (attr_strings (("r", Charts.xlColumn colNum +:+ Str.ofZ rowNum)
                          :: a :: rest))
      with ("r" :: (Charts.xlColumn colNum +:+ Str.ofZ rowNum)
            :: attr_strings (a :: rest)).
    constructor; [reflexivity|]. constructor; [exact Href|exact Hstyle].
  - cbn [flat_map strings_of app]. rewrite !app_nil_r.
    constructor; [reflexivity|].
    change (attr_strings (("r", Charts.xlColumn colNum +:+ Str.ofZ rowNum)
                          :: styleAttr rt c))
      with ("r" :: (Charts.xlColumn colNum +:+ Str.ofZ rowNum)
            :: attr_strings (styleAttr rt c)).
    constructor; [reflexivity|]. constructor; [exact Href|].
    apply Forall_app. split; [exact Hstyle|].
    constructor; [reflexivity|]. cbn [attr_strings flat_map app].
    constructor; [|constructor].
    destruct (cell_value c) as [[| | |n|s| | |]|]; try discriminate.
    + cbn. apply numToString_clean, Hv.
    + destruct s; [discriminate Hblank|discriminate Hv].
Qed.

Lemma cells_xml_clean row :
  Forall (fun oc => match oc with
                    | Some c => number_cell c = true
                    | None => True
                    end) row ->
  forall c rowNum,
    Forall (fun s => clean s = true)
      (flat_map strings_of (cells_xml rt row c rowNum)).
Proof.
  induction 1 as [|oc rest Hoc _ IH]; intros c rowNum; [constructor|].
  cbn [cells_xml]. rewrite flat_map_app. apply Forall_app. split; [|apply IH].
  destruct oc as [cl|]; [apply cell_xml_clean, Hoc|constructor].
Qed.

Lemma row_attrs_clean rowNum maxCol info :
  match info with Some ri => plain_row_info ri = true | None => True end ->
  Forall (fun s => clean s = true) (attr_strings (row_attrs rt rowNum maxCol info)).
Proof.
  intros Hinfo. unfold row_attrs.
  cbn [attr_strings flat_map app fst snd].
  constructor; [reflexivity|]. constructor; [apply ofZ_clean|].
  constructor; [reflexivity|].
  constructor; [apply clean_app; [reflexivity|apply ofZ_clean]|].
  destruct info as [ri|]; [|constructor].
  unfold plain_row_info in Hinfo. apply andb_prop in Hinfo as [Hf Hh].
  fold (attr_strings
    ((match row_height ri with
      | Some h => if num_truthy h
                  then [("ht", numToString h); ("customHeight", "1")] else []
      | None => []
      end ++
      (if row_hidden ri then [("hidden", "1")] else []) ++
      (if arg_truthy (row_format ri) && truthy (arg_xfIndex (row_format ri))
       then [("s", toStringVal rt (arg_xfIndex (row_format ri)));
             ("customFormat", "1")]
       else []))%list)).
  unfold attr_strings. rewrite !flat_map_app. repeat apply Forall_app_2.
  - destruct (row_height ri) as [h|]; [|constructor].
    destruct (num_truthy h); [|constructor].
    cbn. repeat constructor. apply numToString_clean, Hh.
  - destruct (row_hidden ri); repeat constructor.
  - destruct (arg_truthy (row_format ri) && _) eqn:Hc; [|constructor].
    apply andb_prop in Hc as [_ Htr].
    pose proof (xfIndex_text_clean _ Hf) as Hx.
    destruct (arg_xfIndex (row_format ri)); try discriminate;
      cbn; repeat constructor; exact Hx.
Qed.

Lemma rows_xml_clean rows (rowInfoObj : gmap Z RowInfo) :
  number_cells rows ->
  map_Forall (fun _ ri => plain_row_info ri = true) rowInfoObj ->
  forall r,
    Forall (fun s => clean s = true)
      (flat_map strings_of (rows_xml rt rows r rowInfoObj)).
Proof.
  intros Hcells Hinfo. induction Hcells as [|row rest Hrow _ IH]; intros r;
    [constructor|].
  cbn [rows_xml]. rewrite flat_map_app. apply Forall_app. split; [|apply IH].
  destruct (length row =? 0)%nat; [constructor|].
  destruct (negb (hasContent row) && _); [constructor|].
  cbn [flat_map strings_of]. rewrite app_nil_r.
  constructor; [reflexivity|]. apply Forall_app. split.
  - apply row_attrs_clean.
    destruct (rowInfoObj !! (r + 1)) as [ri|] eqn:Hri; [|exact I].
    exact (Hinfo _ _ Hri).
  - apply cells_xml_clean, Hrow.
Qed.

End SheetDataFacts.

(** C5.  Writing [+Infinity], [-Infinity] or [NaN]: [_processCell] stores
    9.99999999999999E+307, -9.99999999999999E+307 and the empty string;
    a [NaN] cell without a format is left out of the row; and the sheet
    data XML of a sheet whose cells all come from numbers (with [Format]
    objects or no format, and row heights that are finite) contains
    neither the text [Infinity] nor the text [NaN]. *)
Theorem nonfinite_numbers_not_printed
  (rt : Js.Runtime) (w : Workbook.Writer) (sheet : Workbook.Sheet)
  (sheetIndex : nat) :
  number_cells (Workbook.data sheet) ->
  map_Forall (fun _ ri => plain_row_info ri = true)
    (default (∅ : gmap Z Workbook.RowInfo) (Workbook.rowInfo w !! sheetIndex)) ->
  let xml := Xml.render_all (Workbook._generateSheetDataXML rt w sheet sheetIndex) in
  Str.includes "Infinity" xml = false /\
  Str.includes "NaN" xml = false /\
  (forall w0 n format,
     format_or_none format = true ->
     number_cell (Workbook._processCell w0 (Workbook.AVal (Js.VNum n)) format).1
       = true) /\
  (forall w0 format,
     Workbook.cell_value
       (Workbook._processCell w0 (Workbook.AVal (Js.VNum (Js.Inf false))) format).1
       = Workbook.AVal (Js.VNum Js.max_sentinel) /\
     Workbook.cell_value
       (Workbook._processCell w0 (Workbook.AVal (Js.VNum (Js.Inf true))) format).1
       = Workbook.AVal (Js.VNum Js.min_sentinel) /\
     Workbook.cell_value
       (Workbook._processCell w0 (Workbook.AVal (Js.VNum Js.NaN)) format).1
       = Workbook.AVal (Js.VStr "")) /\
  Js.numToString Js.max_sentinel = "9.99999999999999e+307" /\
  Js.numToString Js.min_sentinel = "-9.99999999999999e+307" /\
  (forall w0 col rowNum,
     Workbook.cell_xml rt
       (Workbook._processCell w0 (Workbook.AVal (Js.VNum Js.NaN))
          Workbook.undefined).1 col rowNum = []).
Proof.
  intros Hcells Hinfo xml.
  assert (Hclean : clean xml = true).
  { apply render_all_clean. unfold Workbook._generateSheetDataXML.
    apply rows_xml_clean; assumption. }
  destruct (clean_excludes _ Hclean) as [H1 H2].
  split; [exact H1|]. split; [exact H2|].
  split; [intros; apply processCell_number; assumption|].
  split; [intros; repeat split; reflexivity|].
  repeat split; reflexivity.
Qed.

Lemma nonfinite_numbers_not_printed_witness :
  let w0 := Workbook.new_XlsxWriter "out.xlsx" in
  let put w row col n format :=
    (Workbook.write w (Workbook.ByIndex row col) (Workbook.AVal (Js.VNum n))
       format None).2 in
  let w1 := put w0 0 0 (Js.Inf false) Workbook.undefined in
  let w2 := put w1 0 1 (Js.Inf true) (Workbook.AFormat (Some 0%nat)) in
  let w3 := put w2 1 0 Js.NaN Workbook.undefined in
  let w4 := put w3 1 1 (Js.Fin false 15 (-1)) (Workbook.AFormat (Some 0%nat)) in
  match Workbook.sheets w4 !! 0%nat with
  | Some sheet =>
      let xml :=
        Xml.render_all
          (Workbook._generateSheetDataXML Js.decimal_runtime w4 sheet 0) in
      Str.includes "Infinity" xml = false /\ Str.includes "NaN" xml = false
  | None => False
  end.
Proof.
  intros w0 put w1 w2 w3 w4.
  destruct (Workbook.sheets w4 !! 0%nat) as [sheet|] eqn:Hsheet;
    [|vm_compute in Hsheet; discriminate].
  vm_compute in Hsheet. injection Hsheet as <-. intros xml.
  assert (H := nonfinite_numbers_not_printed Js.decimal_runtime w4
    {| Workbook.name := "Sheet1";
       Workbook.data :=
         [[Some {| Workbook.cell_value := Workbook.AVal (Js.VNum Js.max_sentinel);
                   Workbook.cell_type := "n";
                   Workbook.cell_isFormula := false;
                   Workbook.cell_format := Workbook.undefined |};
           Some {| Workbook.cell_value := Workbook.AVal (Js.VNum Js.min_sentinel);
                   Workbook.cell_type := "n";
                   Workbook.cell_isFormula := false;
                   Workbook.cell_format := Workbook.AFormat (Some 0%nat) |}];
          [Some {| Workbook.cell_value := Workbook.AVal (Js.VStr "");
                   Workbook.cell_type := "n";
                   Workbook.cell_isFormula := false;
                   Workbook.cell_format := Workbook.undefined |};
           Some {| Workbook.cell_value :=
                     Workbook.AVal (Js.VNum (Js.Fin false 15 (-1)));
                   Workbook.cell_type := "n";
                   Workbook.cell_isFormula := false;
                   Workbook.cell_format := Workbook.AFormat (Some 0%nat) |}]];
       Workbook.startRow := 1; Workbook.startCol := 1;
       Workbook.chart := None |} 0%nat).
  destruct H as (H1 & H2 & _).
  - repeat constructor.
  - replace (Workbook.rowInfo w4 !! 0%nat)
      with (@None (gmap Z Workbook.RowInfo)) by (vm_compute; reflexivity).
    apply map_Forall_empty.
  - split; [exact H1|exact H2].
Defined.

(** ** Chart XML *)

Section SelectFacts.
Import Xml.

Lemma select_app wanted l1 l2 :
  select wanted (l1 ++ l2) = (select wanted l1 ++ select wanted l2)%list.
Proof. unfold select. rewrite flat_map_app, List.filter_app. reflexivity. Qed.

Lemma select_cons wanted n l :
  select wanted (n :: l) = (select wanted [n] ++ select wanted l)%list.
Proof. apply (select_app wanted [n] l). Qed.











End SelectFacts.

Section ChartFacts.
Import Js Xml Charts.
Variable rt : Runtime.























































Section Values.
Variables (series : Series) (index : nat) (sheetName : string)
  (dataInfo : option DataInfo).






End Values.

Section Scatter.
Variables (sheetName : string) (dataInfo : option DataInfo).





End Scatter.




Section ScatterChart.
Variables (chart : Chart) (sheetName : string) (dataInfo : option DataInfo).
Hypothesis Htype : chart_type_or_scatter chart = "scatter".
Hypothesis Hsec : secondary_visible chart = None.








End ScatterChart.
















End ChartFacts.











(** * Further properties *)

(** ** Columns, cell references and escaping *)

Section CodecMore.


Lemma xlColumn_loop_nonpositive col result :
  col <= 0 -> Codec.xlColumn_loop col result = result.
Proof.
  intros H. rewrite xlColumn_loop_unfold.
  destruct (Z_gt_dec col 0); [lia|reflexivity].
Qed.

Lemma xlColumn_reachable_large c col :
  702 < col -> (Codec.xlColumn c col).2 = c.
Proof.
  intros H. unfold Codec.xlColumn.
  assert (Hle : (col <=? 702) = false) by (apply Z.leb_gt; lia).
  destruct (c !! col) as [s|]; [destruct (Str.truthy s)|];
    cbn [snd]; rewrite ?Hle; reflexivity.
Qed.

End CodecMore.



(** X2.  The column cache is transparent: in every state the cache can be
    in, [xlColumn] returns what it returns with an empty cache; a column
    that is zero or negative gives the empty string; a column above 702 is
    not cached. *)
Theorem xlColumn_cache_transparent (cache : gmap Z string) (col : Z) :
  Codec.cache_reachable cache ->
  (Codec.xlColumn cache col).1 = (Codec.xlColumn ∅ col).1 /\
  Codec.cache_reachable (Codec.xlColumn cache col).2 /\
  (col <= 0 -> (Codec.xlColumn cache col).1 = "") /\
  (702 < col -> (Codec.xlColumn cache col).2 = cache).
Proof.
  intros Hc. rewrite !xlColumn_value by (assumption || constructor).
  split; [reflexivity|]. split; [constructor; exact Hc|]. split.
  - intros H. apply xlColumn_loop_nonpositive, H.
  - apply xlColumn_reachable_large.
Qed.

Lemma xlColumn_cache_transparent_witness :
  (Codec.xlColumn (Codec.xlColumn ∅ 0).2 0).1 = "" /\
  (Codec.xlColumn (Codec.xlColumn ∅ 703).2 703).2 = (Codec.xlColumn ∅ 703).2.
Proof.
  split.
  - apply (xlColumn_cache_transparent (Codec.xlColumn ∅ 0).2 0);
      [constructor; constructor|lia].
  - apply (xlColumn_cache_transparent (Codec.xlColumn ∅ 703).2 703);
      [constructor; constructor|lia].
Defined.

Section CellRefFacts.

Ltac each_char c := destruct c as [[] [] [] [] [] [] [] []]; reflexivity.

Lemma lower_alpha c : Str.is_alpha (Str.lower_char c) = Str.is_alpha c.
Proof. each_char c. Qed.

Lemma lower_digit c : Str.is_digit (Str.lower_char c) = Str.is_digit c.
Proof. each_char c. Qed.

Lemma upper_lower c : Str.upper_char (Str.lower_char c) = Str.upper_char c.
Proof. each_char c. Qed.

Lemma lower_digit_code c :
  Str.is_digit c = true -> Str.lower_char c = c.
Proof. destruct c as [[] [] [] [] [] [] [] []]; (reflexivity || discriminate). Qed.

Lemma span_map (p : ascii -> bool) (f : ascii -> ascii) s :
  (forall c, p (f c) = p c) ->
  Str.span p (Str.map f s) =
  (Str.map f (Str.span p s).1, Str.map f (Str.span p s).2).
Proof.
  intros Hp. induction s as [|c s IH]; [reflexivity|].
  cbn [Str.map Str.span]. rewrite Hp. destruct (p c); [|reflexivity].
  rewrite IH. destruct (Str.span p s) as [a b]. reflexivity.
Qed.

Lemma truthy_map f s : Str.truthy (Str.map f s) = Str.truthy s.
Proof. destruct s; reflexivity. Qed.

Lemma forallb_map (p : ascii -> bool) (f : ascii -> ascii) s :
  (forall c, p (f c) = p c) ->
  Str.forallb p (Str.map f s) = Str.forallb p s.
Proof.
  intros Hp. induction s as [|c s IH]; [reflexivity|].
  cbn [Str.map Str.forallb]. rewrite Hp, IH. reflexivity.
Qed.

Lemma map_map_upper_lower s :
  Str.toUpperCase (Str.toLowerCase s) = Str.toUpperCase s.
Proof.
  unfold Str.toUpperCase, Str.toLowerCase.
  induction s as [|c s IH]; [reflexivity|].
  cbn [Str.map]. rewrite upper_lower, IH. reflexivity.
Qed.

Lemma lower_digits s :
  Str.forallb Str.is_digit s = true -> Str.toLowerCase s = s.
Proof.
  unfold Str.toLowerCase. induction s as [|c s IH]; [reflexivity|].
  cbn [Str.forallb Str.map]. intros H. apply andb_prop in H as [Hc Hs].
  rewrite lower_digit_code by exact Hc. rewrite IH by exact Hs. reflexivity.
Qed.

Lemma match_cell_lower s :
  Codec.match_cell (Str.toLowerCase s) =
  option_map (fun lr : string * string => (Str.toLowerCase lr.1, lr.2))
    (Codec.match_cell s).
Proof.
  unfold Codec.match_cell, Str.toLowerCase.
  rewrite (span_map Str.is_alpha Str.lower_char s lower_alpha).
  destruct (Str.span Str.is_alpha s) as [letters rest]. cbn [fst snd].
  rewrite !truthy_map, (forallb_map _ _ _ lower_digit).
  destruct (Str.truthy letters); [|reflexivity].
  destruct (Str.truthy rest); [|reflexivity].
  destruct (Str.forallb Str.is_digit rest) eqn:Hd; [|reflexivity].
  cbn [andb option_map fst snd].
  pose proof (lower_digits rest Hd) as Hl. unfold Str.toLowerCase in Hl.
  rewrite Hl. reflexivity.
Qed.

Lemma span_not_p (p : ascii -> bool) s :
  Str.forallb p (Str.span p s).1 = true /\
  match (Str.span p s).2 with
  | String c _ => p c = false
  | EmptyString => True
  end /\
  (Str.span p s).1 +:+ (Str.span p s).2 = s.
Proof.
  induction s as [|c s IH]; [repeat split|].
  cbn [Str.span]. destruct (p c) eqn:Hc.
  - destruct (Str.span p s) as [a b]. cbn [fst snd] in *.
    destruct IH as (Ha & Hb & Hs). cbn [Str.forallb]. rewrite Hc, Ha.
    repeat split; [exact Hb|]. rewrite str_app_cons, Hs. reflexivity.
  - cbn [fst snd Str.forallb]. repeat split. exact Hc.
Qed.

Lemma existsb_app p a b :
  Str.existsb p (a +:+ b) = Str.existsb p a || Str.existsb p b.
Proof.
  induction a as [|c a IH]; [reflexivity|].
  rewrite str_app_cons. cbn [Str.existsb]. rewrite IH, orb_assoc.
  reflexivity.
Qed.

Lemma existsb_forallb_false (p q : ascii -> bool) s :
  (forall c, q c = true -> p c = false) ->
  Str.forallb q s = true -> Str.existsb p s = false.
Proof.
  intros Hpq. induction s as [|c s IH]; [reflexivity|].
  cbn [Str.forallb Str.existsb]. intros H. apply andb_prop in H as [Hc Hs].
  rewrite (Hpq c Hc), (IH Hs). reflexivity.
Qed.

Lemma span_all p s :
  Str.forallb p s = true -> Str.span p s = (s, "").
Proof.
  induction s as [|c s IH]; [reflexivity|].
  cbn [Str.forallb Str.span]. intros H. apply andb_prop in H as [Hc Hs].
  rewrite Hc, (IH Hs). reflexivity.
Qed.

End CellRefFacts.

(** X3.  Cell references are read without regard to case: a reference in
    lower case gives the row and column of the same reference in upper
    case, and of the reference as written. *)
Theorem xlCell2Ind_case_insensitive (s : string) :
  Codec.xlCell2Ind (Codec.RefString (Str.toLowerCase s))
  = Codec.xlCell2Ind (Codec.RefString s).
Proof.
  unfold Codec.xlCell2Ind. rewrite match_cell_lower.
  destruct (Codec.match_cell s) as [[letters digits]|]; [|reflexivity].
  cbn [option_map fst snd]. rewrite map_map_upper_lower. reflexivity.
Qed.


(** The strings that [xlCell2Ind] does not take for a reference: those made
    of letters only (the empty string is one), those with a character that
    is neither a letter nor a digit, and those that begin with a digit. *)
Definition not_a_reference (s : string) : bool :=
  Str.forallb Str.is_alpha s ||
  Str.existsb (fun c => negb (Str.is_alpha c || Str.is_digit c)) s ||
  Xml.starts_with_digit s.

(** X4.  A string that is not a reference is read as [A1]: [xlCell2Ind]
    answers row 1, column 1 and reports nothing.  So are [$A$1], [A] and
    [12]. *)
Theorem xlCell2Ind_malformed_is_A1 (s : string) :
  not_a_reference s = true ->
  Codec.xlCell2Ind (Codec.RefString s)
  = {| Codec.row := 1; Codec.column := 1 |}.
Proof.
  unfold not_a_reference. intros H.
  assert (Hnone : Codec.match_cell s = None);
    [|unfold Codec.xlCell2Ind; rewrite Hnone; reflexivity].
  unfold Codec.match_cell.
  destruct (span_not_p Str.is_alpha s) as (Hletters & Hrest & Hs).
  apply orb_prop in H as [H|H]; [apply orb_prop in H as [H|H]|].
  - rewrite (span_all _ _ H). cbn [Str.truthy]. rewrite andb_false_r.
    reflexivity.
  - destruct (Str.span Str.is_alpha s) as [letters rest]. cbn [fst snd] in *.
    destruct (Str.forallb Str.is_digit rest) eqn:Hd;
      [|rewrite andb_false_r; reflexivity].
    rewrite <- Hs, existsb_app in H.
    rewrite (existsb_forallb_false _ Str.is_alpha letters) in H;
      [|intros c Hc; rewrite Hc; reflexivity|exact Hletters].
    rewrite (existsb_forallb_false _ Str.is_digit rest) in H;
      [discriminate|intros c Hc; rewrite Hc, orb_true_r; reflexivity|exact Hd].
  - destruct s as [|c s]; [discriminate|]. cbn [Xml.starts_with_digit] in H.
    cbn [Str.span].
    assert (Hc : Str.is_alpha c = false).
    { revert H. destruct c as [[] [] [] [] [] [] [] []];
        (reflexivity || discriminate). }
    rewrite Hc. reflexivity.
Qed.

Lemma xlCell2Ind_malformed_is_A1_witness :
  Codec.xlCell2Ind (Codec.RefString "$C$7")
  = {| Codec.row := 1; Codec.column := 1 |} /\
  Codec.xlCell2Ind (Codec.RefString "12")
  = {| Codec.row := 1; Codec.column := 1 |}.
Proof.
  split; apply xlCell2Ind_malformed_is_A1; reflexivity.
Defined.

Section EscapeFacts.
Import Xml.

Lemma str_existsb_app p a b :
  Str.existsb p (a +:+ b) = Str.existsb p a || Str.existsb p b.
Proof.
  induction a as [|c a IH]; [reflexivity|].
  rewrite str_app_cons. cbn [Str.existsb]. rewrite IH, orb_assoc.
  reflexivity.
Qed.

(** The characters that end or open markup in element text, and in an
    attribute value written between double quotes. *)
Definition markup_char (c : ascii) : bool :=
  Ascii.eqb c "<" || Ascii.eqb c ">" || Ascii.eqb c "034" || Ascii.eqb c "'".

Definition attr_markup_char (c : ascii) : bool :=
  Ascii.eqb c "<" || Ascii.eqb c "034".

Lemma escape_char_markup c :
  Str.existsb markup_char (escape_char c) = false.
Proof. destruct c as [[] [] [] [] [] [] [] []]; reflexivity. Qed.

Lemma escape_attr_char_markup c :
  Str.existsb attr_markup_char (escape_attr_char c) = false.
Proof. destruct c as [[] [] [] [] [] [] [] []]; reflexivity. Qed.

Lemma replace_chars_none p f s :
  (forall c, Str.existsb p (f c) = false) ->
  Str.existsb p (replace_chars f s) = false.
Proof.
  intros Hf. induction s as [|c s IH]; [reflexivity|].
  cbn [replace_chars]. rewrite str_existsb_app, Hf, IH. reflexivity.
Qed.

(** Reading escaped text back: an entity gives its character, any other
    character is itself. *)
Fixpoint unescapeXml (fuel : nat) (s : string) : string :=
  match fuel with
  | O => ""
  | S fuel =>
      match s with
      | "" => ""
      | String c rest =>
          if Ascii.eqb c "&" then
            if Str.startsWith "amp;" rest
            then String "&" (unescapeXml fuel (String.substring 4 (String.length rest - 4) rest))
            else if Str.startsWith "lt;" rest
            then String "<" (unescapeXml fuel (String.substring 3 (String.length rest - 3) rest))
            else if Str.startsWith "gt;" rest
            then String ">" (unescapeXml fuel (String.substring 3 (String.length rest - 3) rest))
            else if Str.startsWith "quot;" rest
            then String "034" (unescapeXml fuel (String.substring 5 (String.length rest - 5) rest))
            else if Str.startsWith "apos;" rest
            then String "'" (unescapeXml fuel (String.substring 5 (String.length rest - 5) rest))
            else String c (unescapeXml fuel rest)
          else String c (unescapeXml fuel rest)
      end
  end.

Lemma substring_all s : String.substring 0 (String.length s) s = s.
Proof.
  induction s as [|c s IH]; [reflexivity|].
  cbn [String.length String.substring]. rewrite IH. reflexivity.
Qed.

Lemma unescape_escape_char c s fuel :
  unescapeXml (S fuel) (escape_char c +:+ s) = String c (unescapeXml fuel s).
Proof.
  destruct c as [[] [] [] [] [] [] [] []];
    try reflexivity;
    cbn [escape_char Ascii.eqb Bool.eqb andb];
    rewrite ?str_app_cons, ?str_app_nil_l;
    cbn [unescapeXml Ascii.eqb Bool.eqb andb Str.startsWith String.length
         String.substring Nat.sub];
    rewrite ?Nat.sub_0_r, ?substring_all; reflexivity.
Qed.

Lemma unescape_escape s :
  forall fuel, (String.length s <= fuel)%nat ->
    unescapeXml fuel (escapeXml s) = s.
Proof.
  unfold escapeXml. induction s as [|c s IH]; intros fuel Hf.
  - destruct fuel; reflexivity.
  - cbn [String.length] in Hf. destruct fuel as [|fuel]; [lia|].
    cbn [replace_chars]. rewrite unescape_escape_char, IH by lia.
    reflexivity.
Qed.

End EscapeFacts.

(** X5.  Escaped text holds no markup: the result of [escapeXml] has none
    of the characters [<], [>], the double quote and the apostrophe, and
    the result of [escapeXmlAttr] has neither [<] nor the double quote. *)
Theorem escapeXml_no_markup (s : string) :
  Str.existsb markup_char (Xml.escapeXml s) = false /\
  Str.existsb attr_markup_char (Xml.escapeXmlAttr s) = false.
Proof.
  split; apply replace_chars_none;
    [apply escape_char_markup|apply escape_attr_char_markup].
Qed.

(** X6.  Escaping loses nothing: two different strings never get the same
    escaped text.  In particular text that already looks escaped is escaped
    again, not passed through. *)
Theorem escapeXml_injective (s t : string) :
  s <> t -> Xml.escapeXml s <> Xml.escapeXml t.
Proof.
  intros Hne H. apply Hne.
  pose proof (unescape_escape s (String.length s + String.length t)%nat
                ltac:(lia)) as Es.
  pose proof (unescape_escape t (String.length s + String.length t)%nat
                ltac:(lia)) as Et.
  rewrite H in Es. congruence.
Qed.

Lemma escapeXml_injective_witness :
  Xml.escapeXml "<" <> Xml.escapeXml "&lt;".
Proof. apply escapeXml_injective. discriminate. Defined.

Section SheetNameFacts.
Import Xml.

Definition double_quote_char (c : ascii) : string :=
  if Ascii.eqb c "'" then "''" else String c "".

Lemma str_app_inj_tail a : forall b c,
  a +:+ String c "" = b +:+ String c "" -> a = b.
Proof.
  induction a as [|x a IH]; intros [|y b] c H.
  - reflexivity.
  - rewrite str_app_nil_l, str_app_cons in H. injection H as _ H.
    destruct b; discriminate.
  - rewrite str_app_nil_l, str_app_cons in H. injection H as _ H.
    destruct a; discriminate.
  - rewrite !str_app_cons in H. injection H as -> H.
    f_equal. eapply IH, H.
Qed.

Lemma double_quotes_inj a : forall b,
  replace_chars double_quote_char a = replace_chars double_quote_char b ->
  a = b.
Proof.
  induction a as [|x a IH]; intros [|y b] H.
  - reflexivity.
  - cbn [replace_chars] in H. unfold double_quote_char in H at 1.
    destruct (Ascii.eqb y "'"); rewrite ?str_app_cons in H; discriminate.
  - cbn [replace_chars] in H. unfold double_quote_char in H at 1.
    destruct (Ascii.eqb x "'"); rewrite ?str_app_cons in H; discriminate.
  - cbn [replace_chars] in H. unfold double_quote_char in H at 1 3.
    destruct (Ascii.eqb_spec x "'") as [->|Hx];
      destruct (Ascii.eqb_spec y "'") as [->|Hy];
      rewrite ?str_app_cons, ?str_app_nil_l in H.
    + injection H as H. f_equal. apply IH, H.
    + injection H as Hy' _. congruence.
    + injection H as Hx' _. congruence.
    + injection H as -> H. f_equal. apply IH, H.
Qed.

End SheetNameFacts.

(** X7.  Sheet names stay apart in formulas: two different names, neither
    of them empty, never get the same escaped form.  (The empty name is
    written [Sheet1], like the name [Sheet1] itself.) *)
Theorem escapeSheetName_injective (a b : string) :
  a <> "" -> b <> "" -> a <> b ->
  Xml.escapeSheetName a <> Xml.escapeSheetName b.
Proof.
  intros Ha Hb Hne H. apply Hne. unfold Xml.escapeSheetName in H.
  destruct a as [|x a]; [contradiction|]. destruct b as [|y b]; [contradiction|].
  cbn [Str.truthy negb] in H.
  change (fun c : ascii => if Ascii.eqb c "'" then "''" else String c "")
    with double_quote_char in H.
  destruct (Str.existsb (fun c => negb (Xml.is_word_char c)) (String x a)
            || Xml.starts_with_digit (String x a)) eqn:Ea;
    destruct (Str.existsb (fun c => negb (Xml.is_word_char c)) (String y b)
              || Xml.starts_with_digit (String y b)) eqn:Eb.
  - rewrite !str_app_cons, !str_app_nil_l in H. injection H as H.
    apply str_app_inj_tail in H. apply double_quotes_inj, H.
  - rewrite !str_app_cons, !str_app_nil_l in H. injection H as <- _.
    apply orb_false_elim in Eb as [Eb _]. discriminate.
  - rewrite !str_app_cons, !str_app_nil_l in H. injection H as -> _.
    apply orb_false_elim in Ea as [Ea _]. discriminate.
  - exact H.
Qed.

Lemma escapeSheetName_injective_witness :
  Xml.escapeSheetName "My Data" <> Xml.escapeSheetName "'My Data'".
Proof. apply escapeSheetName_injective; discriminate. Defined.

(** ** [deepMerge] *)

Section MergeMore.
Import Js Merge.

Lemma own_set_eq o key v : own (set o key v) key = Some v.
Proof.
  induction o as [|[k w] rest IH]; cbn [set own].
  - rewrite String.eqb_refl. reflexivity.
  - destruct (String.eqb_spec k key) as [->|Hk]; cbn [own].
    + rewrite String.eqb_refl. reflexivity.
    + destruct (String.eqb_spec k key); [contradiction|exact IH].
Qed.

Lemma set_same o key v : own o key = Some v -> set o key v = o.
Proof.
  induction o as [|[k w] rest IH]; cbn [set own]; [discriminate|].
  destruct (String.eqb_spec k key) as [->|Hk].
  - intros [= ->]. reflexivity.
  - intros H. rewrite (IH H). reflexivity.
Qed.

Lemma get_set_ne o key k v : key <> k -> get (set o key v) k = get o k.
Proof. intros H. unfold get. rewrite own_set_ne by exact H. reflexivity. Qed.

Lemma own_None_not_key (o : Obj) k :
  k ∉ List.map fst o -> own o k = None.
Proof.
  induction o as [|[k0 w] rest IH]; [reflexivity|].
  cbn [List.map fst own]. rewrite not_elem_of_cons. intros [Hne Hrest].
  destruct (String.eqb_spec k0 k); [congruence|apply IH, Hrest].
Qed.

Lemma own_Some_key (o : Obj) k v :
  own o k = Some v -> k ∈ List.map fst o.
Proof.
  induction o as [|[k0 w] rest IH]; cbn [own List.map fst]; [discriminate|].
  destruct (String.eqb_spec k0 k) as [->|Hk]; intros H.
  - apply list_elem_of_here.
  - apply list_elem_of_further, IH, H.
Qed.

(** The loop leaves alone the properties the source does not name. *)
Lemma merge_loop_own_other merge (entries : Obj) k :
  own entries k = None ->
  forall result, own (merge_loop merge result entries) k = own result k.
Proof.
  induction entries as [|[k0 v0] rest IH]; intros Hk result; [reflexivity|].
  cbn [own] in Hk. destruct (String.eqb_spec k0 k) as [|Hne]; [discriminate|].
  cbn [merge_loop]. destruct (guarded k0); [apply IH, Hk|].
  destruct (is_plain_object v0); rewrite (IH Hk), own_set_ne by exact Hne;
    reflexivity.
Qed.

(** What the loop makes of a property the source names once. *)
Definition merged_value (merge : JsVal -> JsVal -> Obj) (old v : JsVal)
  : JsVal :=
  if is_plain_object v then VObj (merge (or_empty old) v) else v.

Lemma merge_loop_own_named merge (entries : Obj) k v :
  NoDup (List.map fst entries) ->
  own entries k = Some v -> guarded k = false ->
  forall result,
    own (merge_loop merge result entries) k
    = Some (merged_value merge (get result k) v).
Proof.
  induction entries as [|[k0 v0] rest IH]; intros Hnd Hk Hg result;
    [discriminate|].
  cbn [List.map fst] in Hnd. apply NoDup_cons in Hnd as [Hnotin Hnd].
  cbn [own] in Hk. cbn [merge_loop].
  destruct (String.eqb_spec k0 k) as [->|Hne].
  - injection Hk as ->. rewrite Hg. unfold merged_value.
    pose proof (own_None_not_key rest k Hnotin) as Hrest.
    destruct (is_plain_object v);
      rewrite (merge_loop_own_other _ _ _ Hrest), own_set_eq; reflexivity.
  - destruct (guarded k0); [apply IH; assumption|].
    destruct (is_plain_object v0);
      rewrite (IH Hnd Hk Hg), get_set_ne by exact Hne; reflexivity.
Qed.

End MergeMore.

(** X8.  What [deepMerge] returns, property by property, for a source whose
    keys are all different.  A property the source does not name is the
    target's.  A property the source names (other than [__proto__],
    [constructor] and [prototype]) with a value that is not a plain object
    is the source's value: a number, a string or [null] replaces what the
    target had, and an array replaces it too, it is not merged.  With a
    plain object as value, the property is the merge of the target's value
    (or of an empty object when that is falsy) with it. *)
Theorem deepMerge_properties
    (target : Js.JsVal) (source : list (string * Js.JsVal)) (k : string) :
  NoDup (List.map fst source) ->
  match Js.own source k with
  | None =>
      Js.own (Merge.deepMerge target source) k = Js.own (Js.spread target) k
  | Some v =>
      Merge.guarded k = false ->
      Js.own (Merge.deepMerge target source) k =
      Some (if Js.is_plain_object v
            then Js.VObj (Merge.deepMerge_value
                            (Merge.or_empty (Js.get (Js.spread target) k)) v)
            else v)
  end.
Proof.
  intros Hnd. unfold Merge.deepMerge. cbn [Merge.deepMerge_value].
  destruct (Js.own source k) as [v|] eqn:Hk.
  - intros Hg. apply (merge_loop_own_named _ _ _ _ Hnd Hk Hg).
  - apply merge_loop_own_other, Hk.
Qed.

Lemma deepMerge_properties_witness :
  let target :=
    Js.VObj [("width", Js.VNum (Js.ofZ 1));
             ("value", Js.VArr [Js.VNum (Js.ofZ 0); Js.VNum (Js.ofZ 0)])] in
  let source := [("value", Js.VArr [Js.VNum (Js.ofZ 255)])] in
  Js.own (Merge.deepMerge target source) "value"
  = Some (Js.VArr [Js.VNum (Js.ofZ 255)]) /\
  Js.own (Merge.deepMerge target source) "width" = Some (Js.VNum (Js.ofZ 1)).
Proof.
  cbv zeta. split.
  - apply (deepMerge_properties
             (Js.VObj [("width", Js.VNum (Js.ofZ 1));
                       ("value", Js.VArr [Js.VNum (Js.ofZ 0);
                                          Js.VNum (Js.ofZ 0)])])
             [("value", Js.VArr [Js.VNum (Js.ofZ 255)])] "value");
      [repeat constructor; set_solver|reflexivity].
  - apply (deepMerge_properties
             (Js.VObj [("width", Js.VNum (Js.ofZ 1));
                       ("value", Js.VArr [Js.VNum (Js.ofZ 0);
                                          Js.VNum (Js.ofZ 0)])])
             [("value", Js.VArr [Js.VNum (Js.ofZ 255)])] "width").
    repeat constructor; set_solver.
Defined.

(** An object has each of its keys once, and so have the objects in it. *)
Fixpoint unique_keys (v : Js.JsVal) : bool :=
  match v with
  | Js.VObj o =>
      bool_decide (NoDup (List.map fst o)) &&
      (fix all (o : list (string * Js.JsVal)) : bool :=
         match o with
         | [] => true
         | (_, w) :: rest => unique_keys w && all rest
         end) o
  | _ => true
  end.

Section MergeTwice.
Import Js Merge.

Lemma unique_keys_obj o :
  unique_keys (VObj o) = true ->
  NoDup (List.map fst o) /\ Forall (fun kv => unique_keys kv.2 = true) o.
Proof.
  cbn [unique_keys]. intros H. apply andb_prop in H as [Hnd Hall].
  split; [apply bool_decide_eq_true in Hnd; exact Hnd|].
  induction o as [|[k w] rest IH]; [constructor|].
  apply andb_prop in Hall as [Hw Hrest]. constructor; [exact Hw|].
  apply IH. apply bool_decide_eq_true in Hnd. cbn [List.map fst] in Hnd.
  apply NoDup_cons in Hnd as [_ Hnd]. apply bool_decide_eq_true, Hnd.
  exact Hrest.
Qed.

Lemma merge_loop_twice (entries : Obj) :
  NoDup (List.map fst entries) ->
  Forall (fun kv => forall t,
            deepMerge_value (VObj (deepMerge_value t kv.2)) kv.2
            = deepMerge_value t kv.2) entries ->
  forall result,
    merge_loop deepMerge_value (merge_loop deepMerge_value result entries)
      entries
    = merge_loop deepMerge_value result entries.
Proof.
  induction entries as [|[k v] rest IH]; intros Hnd Hall result;
    [reflexivity|].
  cbn [List.map fst] in Hnd. apply NoDup_cons in Hnd as [Hnotin Hnd].
  apply Forall_cons in Hall as [Hv Hall]. cbn [snd] in Hv.
  pose proof (own_None_not_key rest k Hnotin) as Hrest.
  cbn [merge_loop]. destruct (guarded k); [apply IH; assumption|].
  destruct (is_plain_object v) eqn:Hplain.
  - set (x := deepMerge_value (or_empty (get result k)) v).
    set (r1 := merge_loop deepMerge_value (set result k (VObj x)) rest).
    assert (Hown : own r1 k = Some (VObj x)).
    { unfold r1. rewrite (merge_loop_own_other _ _ _ Hrest), own_set_eq.
      reflexivity. }
    assert (Hget : get r1 k = VObj x) by (unfold get; rewrite Hown; reflexivity).
    rewrite Hget. cbn [or_empty truthy]. unfold x at 1. rewrite Hv.
    fold x. rewrite (set_same _ _ _ Hown). unfold r1. apply IH; assumption.
  - set (r1 := merge_loop deepMerge_value (set result k v) rest).
    assert (Hown : own r1 k = Some v).
    { unfold r1. rewrite (merge_loop_own_other _ _ _ Hrest), own_set_eq.
      reflexivity. }
    rewrite (set_same _ _ _ Hown). unfold r1. apply IH; assumption.
Qed.

Lemma deepMerge_value_twice source :
  unique_keys source = true ->
  forall target,
    deepMerge_value (VObj (deepMerge_value target source)) source
    = deepMerge_value target source.
Proof.
  induction source as [o IH|v Hv] using JsVal_obj_ind.
  - intros Hu target. apply unique_keys_obj in Hu as [Hnd Hall].
    cbn [deepMerge_value spread]. apply merge_loop_twice; [exact Hnd|].
    rewrite Forall_forall in IH, Hall |- *. intros kv Hin t.
    apply (IH kv Hin), (Hall kv Hin).
  - intros _ target. destruct v; try discriminate; reflexivity.
Qed.

End MergeTwice.

(** X9.  Merging the same overrides a second time changes nothing: for a
    source in which no object has a key twice,
    [deepMerge(deepMerge(target, source), source)] is
    [deepMerge(target, source)]. *)
Theorem deepMerge_idempotent
    (target : Js.JsVal) (source : list (string * Js.JsVal)) :
  unique_keys (Js.VObj source) = true ->
  Merge.deepMerge (Js.VObj (Merge.deepMerge target source)) source
  = Merge.deepMerge target source.
Proof. intros Hu. apply deepMerge_value_twice, Hu. Qed.

Lemma deepMerge_idempotent_witness :
  let target :=
    Js.VObj [("line", Js.VObj [("width", Js.VNum (Js.ofZ 1))])] in
  let source :=
    [("line", Js.VObj [("color", Js.VStr "FF0000")]);
     ("visible", Js.VBool false)] in
  Merge.deepMerge (Js.VObj (Merge.deepMerge target source)) source
  = [("line", Js.VObj [("width", Js.VNum (Js.ofZ 1));
                       ("color", Js.VStr "FF0000")]);
     ("visible", Js.VBool false)].
Proof.
  cbv zeta.
  rewrite (deepMerge_idempotent
             (Js.VObj [("line", Js.VObj [("width", Js.VNum (Js.ofZ 1))])])
             [("line", Js.VObj [("color", Js.VStr "FF0000")]);
              ("visible", Js.VBool false)])
    by (vm_compute; reflexivity).
  reflexivity.
Defined.

(** ** Cell references, written and read *)

Section ReferenceFacts.

Fixpoint parse_acc (acc : Z) (s : string) : Z :=
  match s with
  | EmptyString => acc
  | String c s' => parse_acc (acc * 10 + (Str.code c - 48)) s'
  end.

Lemma parseDigits_acc s : Str.parseDigits s = parse_acc 0 s.
Proof. reflexivity. Qed.

Lemma parse_uint_acc d :
  forall acc,
    parse_acc (Zpos acc) (DecimalString.NilEmpty.string_of_uint d)
    = Zpos (Pos.of_uint_acc d acc).
Proof.
  induction d; intros acc;
    cbn [DecimalString.NilEmpty.string_of_uint parse_acc Pos.of_uint_acc];
    [reflexivity|..];
    match goal with
    | |- parse_acc ?a _ = _ =>
        let a' := fresh in
        evar (a' : positive);
        replace a with (Zpos a'); [unfold a'; apply IHd|unfold a'; vm_compute Str.code; lia]
    end.
Qed.

Lemma parse_uint d :
  parse_acc 0 (DecimalString.NilEmpty.string_of_uint d)
  = Z.of_N (Pos.of_uint d).
Proof.
  induction d;
    cbn [DecimalString.NilEmpty.string_of_uint parse_acc Pos.of_uint];
    [reflexivity|exact IHd|..];
    match goal with
    | |- parse_acc ?a _ = _ =>
        let a' := fresh in
        evar (a' : positive);
        replace a with (Zpos a');
        [unfold a'; rewrite parse_uint_acc; reflexivity
        |unfold a'; vm_compute; reflexivity]
    end.
Qed.

Lemma to_int_nonneg r :
  0 <= r -> exists d, Z.to_int r = Decimal.Pos d /\ d <> Decimal.Nil.
Proof.
  destruct r as [|p|p]; intros H; [| |lia].
  - exists (Decimal.D0 Decimal.Nil). split; [reflexivity|discriminate].
  - exists (Pos.to_uint p). split; [reflexivity|].
    apply DecimalPos.Unsigned.to_uint_nonnil.
Qed.

Lemma ofZ_nonneg r :
  0 <= r ->
  exists d, Z.to_int r = Decimal.Pos d /\
            Str.ofZ r = DecimalString.NilEmpty.string_of_uint d.
Proof.
  intros H. destruct (to_int_nonneg r H) as (d & Hd & Hnil).
  exists d. split; [exact Hd|]. unfold Str.ofZ. rewrite Hd.
  destruct d; [contradiction|reflexivity..].
Qed.

Lemma parseDigits_ofZ r : 0 <= r -> Str.parseDigits (Str.ofZ r) = r.
Proof.
  intros H. destruct (ofZ_nonneg r H) as (d & Hd & ->).
  rewrite parseDigits_acc, parse_uint.
  rewrite <- (DecimalZ.of_to r), Hd. reflexivity.
Qed.

Lemma uint_digits d :
  Str.forallb Str.is_digit (DecimalString.NilEmpty.string_of_uint d) = true.
Proof.
  induction d; cbn [DecimalString.NilEmpty.string_of_uint Str.forallb];
    [reflexivity|..]; rewrite IHd; reflexivity.
Qed.

Lemma ofZ_digits r :
  0 <= r ->
  Str.forallb Str.is_digit (Str.ofZ r) = true /\ Str.truthy (Str.ofZ r) = true.
Proof.
  intros H. destruct (ofZ_nonneg r H) as (d & Hd & Hs).
  destruct (to_int_nonneg r H) as (d' & Hd' & Hnil).
  rewrite Hs. split; [apply uint_digits|].
  assert (d = d') by congruence. subst d'.
  destruct d; [contradiction|reflexivity..].
Qed.

Lemma reference_read_back col row :
  1 <= col -> 0 <= row ->
  Codec.xlCell2Ind
    (Codec.RefString (Codec.xlColumn_loop col "" +:+ Str.ofZ row))
  = {| Codec.row := row; Codec.column := col |}.
Proof.
  intros Hcol Hrow. destruct (ofZ_digits row Hrow) as [Hd Ht].
  rewrite xlCell2Ind_letters_digits;
    [|apply xlColumn_loop_truthy; lia
     |apply xlColumn_loop_upper; [lia|reflexivity]
     |exact Ht|exact Hd].
  rewrite parseDigits_ofZ by exact Hrow.
  rewrite decode_xlColumn_loop by lia. reflexivity.
Qed.

End ReferenceFacts.



(** ** The writer under any sequence of calls *)

(** A call of a public method, with its arguments. *)
Inductive Call :=
| CallWrite (pos : Workbook.Position) (value format : Workbook.Arg)
    (sheet : option Workbook.SheetArg)
| CallWriteRow (pos : Workbook.Position) (values : list Js.JsVal)
    (format : Workbook.Arg) (sheet : option Workbook.SheetArg)
| CallWriteColumn (pos : Workbook.Position) (values : list Js.JsVal)
    (format : Workbook.Arg) (sheet : option Workbook.SheetArg)
| CallSetColumn (firstCol : Workbook.ColArg) (lastCol : option Workbook.ColArg)
    (width : option Js.JsNum) (format : Workbook.Arg) (hidden : bool)
    (sheet : option Workbook.SheetArg)
| CallSetRow (row : Z) (height : option Js.JsNum) (format : Workbook.Arg)
    (hidden : bool) (sheet : option Workbook.SheetArg)
| CallMergeRange (pos : Workbook.MergePosition) (format : Workbook.Arg)
    (sheet : option Workbook.SheetArg)
| CallInsertChart (pos : Workbook.ChartPosition)
    (sheet : option Workbook.SheetArg)
| CallAddFormat (properties : list (string * Js.Scalar))
| CallWriteData (rows : list (list Js.JsVal))
    (sheet : option Workbook.SheetArg) (options : Workbook.DataOptions).

(** The writer after a call, whether it returned or threw. *)
Definition call (w : Workbook.Writer) (c : Call) : Workbook.Writer :=
  match c with
  | CallWrite pos value format sheet =>
      (Workbook.write w pos value format sheet).2
  | CallWriteRow pos values format sheet =>
      (Workbook.writeRow w pos values format sheet).2
  | CallWriteColumn pos values format sheet =>
      (Workbook.writeColumn w pos values format sheet).2
  | CallSetColumn firstCol lastCol width format hidden sheet =>
      Workbook.setColumn w firstCol lastCol width format hidden sheet
  | CallSetRow row height format hidden sheet =>
      Workbook.setRow w row height format hidden sheet
  | CallMergeRange pos format sheet =>
      (Workbook.mergeRange w pos format sheet).2
  | CallInsertChart pos sheet => (Workbook.insertChart w pos sheet).2
  | CallAddFormat properties => (Workbook.addFormat w properties).2
  | CallWriteData rows sheet options =>
      (Workbook.writeData w rows sheet options).2
  end.

Definition calls (w : Workbook.Writer) (l : list Call) : Workbook.Writer :=
  foldl call w l.

Definition is_writeData (c : Call) : bool :=
  match c with CallWriteData _ _ _ => true | _ => false end.

Section RegistryOfSheets.
Import Js Workbook.

Definition sheets_ok (w : Writer) : Prop :=
  sheets_registered w /\ sheetMap_sound w.

Lemma sheets_ok_frame w w' :
  sheets w' = sheets w -> sheetMap w' = sheetMap w ->
  sheets_ok w -> sheets_ok w'.
Proof.
  intros Hs Hm [Hreg Hsound]. split.
  - intros i sh. rewrite Hs, Hm. apply Hreg.
  - intros n i. rewrite Hs, Hm. apply Hsound.
Qed.

Lemma sheets_ok_set_sheet w i sh sh' :
  sheets w !! i = Some sh -> name sh' = name sh ->
  sheets_ok w -> sheets_ok (set_sheet w i sh').
Proof.
  intros Hi Hname [Hreg Hsound]. unfold set_sheet. split.
  - intros j s. cbn [sheets sheetMap with_sheets].
    destruct (decide (i = j)) as [<-|Hne].
    + rewrite list_lookup_insert_eq by (eapply lookup_lt_Some, Hi).
      intros [= <-]. rewrite Hname. apply Hreg, Hi.
    + rewrite list_lookup_insert_ne by exact Hne. apply Hreg.
  - intros n j Hn. cbn [sheets sheetMap with_sheets] in Hn |- *.
    destruct (Hsound _ _ Hn) as (s & Hs & Hsn).
    destruct (decide (i = j)) as [<-|Hne].
    + exists sh'. split.
      * apply list_lookup_insert_eq. eapply lookup_lt_Some, Hi.
      * congruence.
    + exists s. rewrite list_lookup_insert_ne by exact Hne. split; assumption.
Qed.

Lemma processCell_sheets w value format :
  sheets (_processCell w value format).2 = sheets w /\
  sheetMap (_processCell w value format).2 = sheetMap w.
Proof.
  unfold _processCell. repeat case_match; split; reflexivity.
Qed.

Lemma sheets_ok_write_at w row col value format sheet :
  sheets_ok w -> sheets_ok (write_at w row col value format sheet).2.
Proof.
  intros Hok. unfold write_at.
  pose proof (getOrCreateSheet_registered w sheet (proj1 Hok) (proj2 Hok))
    as Hok1.
  destruct (_getOrCreateSheet w sheet) as [[sheetIndex nm] w1].
  cbn [snd] in Hok1. change (sheets_ok w1) in Hok1.
  destruct (sheets w1 !! sheetIndex) as [sheetObj|] eqn:Hidx; [|exact Hok1].
  set (d := grow (data sheetObj) row []).
  assert (Hok2 : sheets_ok (set_sheet w1 sheetIndex (with_data sheetObj d)))
    by (eapply sheets_ok_set_sheet; [exact Hidx|reflexivity|exact Hok1]).
  destruct (row <? 0); [exact Hok2|].
  pose proof (processCell_sheets
                (set_sheet w1 sheetIndex (with_data sheetObj d)) value format)
    as [Hs Hm].
  destruct (_processCell (set_sheet w1 sheetIndex (with_data sheetObj d))
              value format) as [cellData w3].
  cbn [snd] in Hs, Hm |- *.
  apply (sheets_ok_set_sheet w3 sheetIndex (with_data sheetObj d));
    [|reflexivity|eapply sheets_ok_frame; [exact Hs|exact Hm|exact Hok2]].
  rewrite Hs. unfold set_sheet. cbn [sheets with_sheets].
  apply list_lookup_insert_eq. eapply lookup_lt_Some, Hidx.
Qed.

Lemma sheets_ok_write w pos value format sheet :
  sheets_ok w -> sheets_ok (write w pos value format sheet).2.
Proof.
  destruct pos; cbn [write]; apply sheets_ok_write_at.
Qed.

Lemma sheets_ok_write_each values :
  forall w row col drow dcol format sheet,
    sheets_ok w ->
    sheets_ok (write_each w row col drow dcol values format sheet).2.
Proof.
  induction values as [|v rest IH]; intros w row col drow dcol format sheet Hok;
    [exact Hok|].
  cbn [write_each].
  pose proof (sheets_ok_write w (ByIndex row col) (AVal v) format sheet Hok)
    as Hstep.
  destruct (write w (ByIndex row col) (AVal v) format sheet) as [[u|e] w1];
    cbn [snd] in Hstep |- *; [apply IH, Hstep|exact Hstep].
Qed.

Lemma sheets_ok_setColumn w firstCol lastCol width format hidden sheet :
  sheets_ok w ->
  sheets_ok (setColumn w firstCol lastCol width format hidden sheet).
Proof.
  intros Hok. unfold setColumn.
  destruct (match lastCol, width with
            | Some (ColNumber n), None => (Some firstCol, Some (ofZ n))
            | _, _ => (lastCol, width)
            end) as [lastCol' width'].
  pose proof (getOrCreateSheet_registered w (sheet_or_default sheet)
                (proj1 Hok) (proj2 Hok)) as Hok1.
  destruct (_getOrCreateSheet w (sheet_or_default sheet))
    as [[sheetIndex nm] w1].
  eapply sheets_ok_frame; [| |exact Hok1]; reflexivity.
Qed.

Lemma sheets_ok_setRow w row height format hidden sheet :
  sheets_ok w -> sheets_ok (setRow w row height format hidden sheet).
Proof.
  intros Hok. unfold setRow.
  pose proof (getOrCreateSheet_registered w (sheet_or_default sheet)
                (proj1 Hok) (proj2 Hok)) as Hok1.
  destruct (_getOrCreateSheet w (sheet_or_default sheet))
    as [[sheetIndex nm] w1].
  eapply sheets_ok_frame; [| |exact Hok1]; reflexivity.
Qed.

Lemma sheets_ok_merge_tail w firstRow firstCol lastRow lastCol value format
    sheet :
  sheets_ok w ->
  sheets_ok
    (let '((sheetIndex, _), w) := _getOrCreateSheet w (sheet_or_default sheet) in
     let merges : list MergeCell := default [] (mergeCells w !! sheetIndex) in
     let w :=
       with_mergeCells w
         (<[sheetIndex :=
              (merges ++ [{| merge_startRow := firstRow + 1;
                             merge_startCol := firstCol + 1;
                             merge_endRow := lastRow + 1;
                             merge_endCol := lastCol + 1 |}])%list]>
            (mergeCells w)) in
     match value with
     | AVal VUndefined => (Return tt, w)
     | _ => write w (ByIndex firstRow firstCol) value format sheet
     end).2.
Proof.
  intros Hok.
  pose proof (getOrCreateSheet_registered w (sheet_or_default sheet)
                (proj1 Hok) (proj2 Hok)) as Hok1.
  destruct (_getOrCreateSheet w (sheet_or_default sheet))
    as [[sheetIndex nm] w1].
  cbn [snd] in Hok1. cbv zeta.
  match goal with
  | |- context [with_mergeCells w1 ?m] =>
      assert (Hok2 : sheets_ok (with_mergeCells w1 m))
        by (eapply sheets_ok_frame; [| |exact Hok1]; reflexivity);
      generalize dependent (with_mergeCells w1 m)
  end.
  intros w2 Hok2.
  destruct value as [[]|]; try apply sheets_ok_write; exact Hok2.
Qed.

Lemma sheets_ok_mergeRange w pos format sheet :
  sheets_ok w -> sheets_ok (mergeRange w pos format sheet).2.
Proof.
  intros Hok. unfold mergeRange. destruct pos as [r1 c1 r2 c2 v|first last a2 a3 a4].
  - apply sheets_ok_merge_tail, Hok.
  - destruct (split_colon (first +:+ ":" +:+ last)) as [p0 p1].
    apply sheets_ok_merge_tail, Hok.
Qed.

Lemma sheets_ok_chart_tail w row col chart' options sheet :
  sheets_ok w ->
  sheets_ok
    (let '((sheetIndex, _), w) := _getOrCreateSheet w (sheet_or_default sheet) in
     let xo := match options with Some o => x_offset o | None => 0 end in
     let yo := match options with Some o => y_offset o | None => 0 end in
     let placed := place_chart chart' (xo + col * 64) (yo + row * 20) in
     match sheets w !! sheetIndex with
     | None => (Throw type_error, w)
     | Some sheetObj =>
         (Return tt, set_sheet w sheetIndex (with_chart sheetObj (Some placed)))
     end).2.
Proof.
  intros Hok.
  pose proof (getOrCreateSheet_registered w (sheet_or_default sheet)
                (proj1 Hok) (proj2 Hok)) as Hok1.
  destruct (_getOrCreateSheet w (sheet_or_default sheet))
    as [[sheetIndex nm] w1].
  cbn [snd] in Hok1. cbv zeta.
  destruct (sheets w1 !! sheetIndex) as [sheetObj|] eqn:Hidx; [|exact Hok1].
  cbn [snd]. eapply sheets_ok_set_sheet; [exact Hidx|reflexivity|exact Hok1].
Qed.

Lemma sheets_ok_insertChart w pos sheet :
  sheets_ok w -> sheets_ok (insertChart w pos sheet).2.
Proof.
  intros Hok. unfold insertChart. destruct pos; apply sheets_ok_chart_tail, Hok.
Qed.

Lemma addFormat_sheets w properties :
  sheets (addFormat w properties).2 = sheets w /\
  sheetMap (addFormat w properties).2 = sheetMap w.
Proof.
  unfold addFormat. destruct (Fmt.getKey _) as [key format].
  destruct (formatMap w !! key); [split; reflexivity|].
  destruct (assign_numFormatIndex _ _) as [[f customs] next].
  split; reflexivity.
Qed.

Lemma sheets_ok_new file : sheets_ok (new_XlsxWriter file).
Proof.
  split.
  - intros i sh H. vm_compute in H. destruct i; discriminate.
  - intros n i H.
    assert (Hm : sheetMap (new_XlsxWriter file) = ∅).
    { unfold new_XlsxWriter.
      match goal with
      | |- context [addFormat ?w0 []] =>
          pose proof (addFormat_sheets w0 []) as [_ Hm];
          destruct (addFormat w0 []) as [h w1]
      end.
      exact Hm. }
    rewrite Hm, lookup_empty in H. discriminate.
Qed.

Lemma sheets_ok_call w c :
  is_writeData c = false -> sheets_ok w -> sheets_ok (call w c).
Proof.
  intros Hc Hok. destruct c; cbn [call]; try discriminate.
  - apply sheets_ok_write, Hok.
  - unfold writeRow. destruct (row_arguments _ _ _ _) as [[[[r c] vs] f] s].
    apply sheets_ok_write_each, Hok.
  - unfold writeColumn. destruct (row_arguments _ _ _ _) as [[[[r c] vs] f] s].
    apply sheets_ok_write_each, Hok.
  - apply sheets_ok_setColumn, Hok.
  - apply sheets_ok_setRow, Hok.
  - apply sheets_ok_mergeRange, Hok.
  - apply sheets_ok_insertChart, Hok.
  - destruct (addFormat_sheets w properties) as [Hs Hm].
    eapply sheets_ok_frame; [exact Hs|exact Hm|exact Hok].
Qed.

Lemma sheets_ok_calls l :
  forallb (fun c => negb (is_writeData c)) l = true ->
  forall w, sheets_ok w -> sheets_ok (calls w l).
Proof.
  unfold calls. induction l as [|c rest IH]; intros Hl w Hok; [exact Hok|].
  cbn [forallb] in Hl. apply andb_prop in Hl as [Hc Hrest].
  cbn [foldl]. apply IH; [exact Hrest|].
  apply sheets_ok_call; [|exact Hok]. destruct (is_writeData c); [discriminate|reflexivity].
Qed.

End RegistryOfSheets.

(** X11.  Without [writeData], sheet names stay unique.  After any sequence
    of calls of [write], [writeRow], [writeColumn], [setColumn], [setRow],
    [mergeRange], [insertChart] and [addFormat] on a new writer, whether
    they return or throw, no two sheets have the same name, and the sheet
    map gives for each sheet name the position of that sheet. *)
Theorem sheet_names_unique_without_writeData
    (file : string) (l : list Call) :
  forallb (fun c => negb (is_writeData c)) l = true ->
  let w := calls (Workbook.new_XlsxWriter file) l in
  NoDup (List.map Workbook.name (Workbook.sheets w)) /\
  (forall i sh, Workbook.sheets w !! i = Some sh ->
     Workbook.sheetMap w !! Workbook.name sh = Some i).
Proof.
  intros Hl w.
  destruct (sheets_ok_calls l Hl (Workbook.new_XlsxWriter file)
              (sheets_ok_new file)) as [Hreg _].
  split; [apply sheets_registered_NoDup, Hreg|exact Hreg].
Qed.

Lemma sheet_names_unique_without_writeData_witness :
  NoDup
    (List.map Workbook.name
       (Workbook.sheets
          (calls (Workbook.new_XlsxWriter "out.xlsx")
             [ CallWrite (Workbook.ByIndex 0 0)
                 (Workbook.AVal (Js.VStr "a")) Workbook.undefined
                 (Some (Workbook.SheetName "Data"));
               CallSetRow 0 None Workbook.undefined false
                 (Some (Workbook.SheetName "Data"));
               CallWriteRow (Workbook.ByIndex 1 0)
                 [Js.VNum (Js.ofZ 1); Js.VNum (Js.ofZ 2)] Workbook.undefined
                 None ]))).
Proof.
  apply (sheet_names_unique_without_writeData "out.xlsx"
           [ CallWrite (Workbook.ByIndex 0 0)
               (Workbook.AVal (Js.VStr "a")) Workbook.undefined
               (Some (Workbook.SheetName "Data"));
             CallSetRow 0 None Workbook.undefined false
               (Some (Workbook.SheetName "Data"));
             CallWriteRow (Workbook.ByIndex 1 0)
               [Js.VNum (Js.ofZ 1); Js.VNum (Js.ofZ 2)] Workbook.undefined
               None ]).
  reflexivity.
Defined.

Section TableUnderCalls.
Import Js Workbook.

Lemma strings_ok_frame w w' :
  table w' = table w -> strings_ok w -> strings_ok w'.
Proof.
  unfold table. intros [= Hl Hm] Hok s i. rewrite Hl, Hm. apply Hok.
Qed.

Lemma strings_ok_write_at w row col value format sheet :
  strings_ok w -> strings_ok (write_at w row col value format sheet).2.
Proof.
  intros Hok. pose proof (write_at_table w row col value format sheet) as Ht.
  destruct (write_at w row col value format sheet).1.
  - eapply strings_ok_frame; [exact Ht|apply processCell_strings_ok, Hok].
  - eapply strings_ok_frame; [exact Ht|exact Hok].
Qed.

Lemma strings_ok_write w pos value format sheet :
  strings_ok w -> strings_ok (write w pos value format sheet).2.
Proof. destruct pos; cbn [write]; apply strings_ok_write_at. Qed.

Lemma strings_ok_write_each values :
  forall w row col drow dcol format sheet,
    strings_ok w ->
    strings_ok (write_each w row col drow dcol values format sheet).2.
Proof.
  induction values as [|v rest IH]; intros w row col drow dcol format sheet Hok;
    [exact Hok|].
  cbn [write_each].
  pose proof (strings_ok_write w (ByIndex row col) (AVal v) format sheet Hok)
    as Hstep.
  destruct (write w (ByIndex row col) (AVal v) format sheet) as [[u|e] w1];
    cbn [snd] in Hstep |- *; [apply IH, Hstep|exact Hstep].
Qed.

Lemma strings_ok_getOrCreateSheet w sheet :
  strings_ok w -> strings_ok (_getOrCreateSheet w sheet).2.
Proof.
  intros Hok. eapply strings_ok_frame; [apply getOrCreateSheet_table|exact Hok].
Qed.

Lemma strings_ok_setColumn w firstCol lastCol width format hidden sheet :
  strings_ok w ->
  strings_ok (setColumn w firstCol lastCol width format hidden sheet).
Proof.
  intros Hok. unfold setColumn.
  destruct (match lastCol, width with
            | Some (ColNumber n), None => (Some firstCol, Some (ofZ n))
            | _, _ => (lastCol, width)
            end) as [lastCol' width'].
  pose proof (strings_ok_getOrCreateSheet w (sheet_or_default sheet) Hok)
    as Hok1.
  destruct (_getOrCreateSheet w (sheet_or_default sheet))
    as [[sheetIndex nm] w1].
  eapply strings_ok_frame; [|exact Hok1]; reflexivity.
Qed.

Lemma strings_ok_setRow w row height format hidden sheet :
  strings_ok w -> strings_ok (setRow w row height format hidden sheet).
Proof.
  intros Hok. unfold setRow.
  pose proof (strings_ok_getOrCreateSheet w (sheet_or_default sheet) Hok)
    as Hok1.
  destruct (_getOrCreateSheet w (sheet_or_default sheet))
    as [[sheetIndex nm] w1].
  eapply strings_ok_frame; [|exact Hok1]; reflexivity.
Qed.

Lemma strings_ok_merge_tail w firstRow firstCol lastRow lastCol value format
    sheet :
  strings_ok w ->
  strings_ok
    (let '((sheetIndex, _), w) := _getOrCreateSheet w (sheet_or_default sheet) in
     let merges : list MergeCell := default [] (mergeCells w !! sheetIndex) in
     let w :=
       with_mergeCells w
         (<[sheetIndex :=
              (merges ++ [{| merge_startRow := firstRow + 1;
                             merge_startCol := firstCol + 1;
                             merge_endRow := lastRow + 1;
                             merge_endCol := lastCol + 1 |}])%list]>
            (mergeCells w)) in
     match value with
     | AVal VUndefined => (Return tt, w)
     | _ => write w (ByIndex firstRow firstCol) value format sheet
     end).2.
Proof.
  intros Hok.
  pose proof (strings_ok_getOrCreateSheet w (sheet_or_default sheet) Hok)
    as Hok1.
  destruct (_getOrCreateSheet w (sheet_or_default sheet))
    as [[sheetIndex nm] w1].
  cbn [snd] in Hok1. cbv zeta.
  match goal with
  | |- context [with_mergeCells w1 ?m] =>
      assert (Hok2 : strings_ok (with_mergeCells w1 m))
        by (eapply strings_ok_frame; [|exact Hok1]; reflexivity);
      generalize dependent (with_mergeCells w1 m)
  end.
  intros w2 Hok2.
  destruct value as [[]|]; try apply strings_ok_write; exact Hok2.
Qed.

Lemma strings_ok_mergeRange w pos format sheet :
  strings_ok w -> strings_ok (mergeRange w pos format sheet).2.
Proof.
  intros Hok. unfold mergeRange.
  destruct pos as [r1 c1 r2 c2 v|first last a2 a3 a4].
  - apply strings_ok_merge_tail, Hok.
  - destruct (split_colon (first +:+ ":" +:+ last)) as [p0 p1].
    apply strings_ok_merge_tail, Hok.
Qed.

Lemma strings_ok_chart_tail w row col chart' options sheet :
  strings_ok w ->
  strings_ok
    (let '((sheetIndex, _), w) := _getOrCreateSheet w (sheet_or_default sheet) in
     let xo := match options with Some o => x_offset o | None => 0 end in
     let yo := match options with Some o => y_offset o | None => 0 end in
     let placed := place_chart chart' (xo + col * 64) (yo + row * 20) in
     match sheets w !! sheetIndex with
     | None => (Throw type_error, w)
     | Some sheetObj =>
         (Return tt, set_sheet w sheetIndex (with_chart sheetObj (Some placed)))
     end).2.
Proof.
  intros Hok.
  pose proof (strings_ok_getOrCreateSheet w (sheet_or_default sheet) Hok)
    as Hok1.
  destruct (_getOrCreateSheet w (sheet_or_default sheet))
    as [[sheetIndex nm] w1].
  cbn [snd] in Hok1. cbv zeta.
  destruct (sheets w1 !! sheetIndex) as [sheetObj|]; exact Hok1.
Qed.

Lemma strings_ok_insertChart w pos sheet :
  strings_ok w -> strings_ok (insertChart w pos sheet).2.
Proof.
  intros Hok. unfold insertChart.
  destruct pos; apply strings_ok_chart_tail, Hok.
Qed.

Lemma addFormat_table w properties :
  table (addFormat w properties).2 = table w.
Proof.
  unfold addFormat. destruct (Fmt.getKey _) as [key format].
  destruct (formatMap w !! key); [reflexivity|].
  destruct (assign_numFormatIndex _ _) as [[f customs] next]. reflexivity.
Qed.

Lemma strings_ok_writeData_cells row :
  forall w sheetIndex rowIdx colIdx,
    strings_ok w ->
    strings_ok (writeData_cells w sheetIndex rowIdx colIdx row).2.
Proof.
  induction row as [|cell rest IH]; intros w sheetIndex rowIdx colIdx Hok;
    [exact Hok|].
  cbn [writeData_cells].
  destruct (sheets w !! sheetIndex) as [sheetObj|]; [|exact Hok].
  destruct (rowIdx <? 0); [exact Hok|].
  match goal with
  | |- context [_processCell ?w' ?v ?f] =>
      assert (Hok' : strings_ok w')
        by (eapply strings_ok_frame; [|exact Hok]; reflexivity);
      pose proof (processCell_strings_ok w' v f Hok') as Hp;
      destruct (_processCell w' v f) as [cellData w2]
  end.
  cbn [snd] in Hp. apply IH.
  eapply strings_ok_frame; [|exact Hp]; reflexivity.
Qed.

Lemma strings_ok_writeData_rows rows :
  forall w sheetIndex rowIdx startCol,
    strings_ok w ->
    strings_ok (writeData_rows w sheetIndex rowIdx startCol rows).2.
Proof.
  induction rows as [|row rest IH]; intros w sheetIndex rowIdx startCol Hok;
    [exact Hok|].
  cbn [writeData_rows].
  destruct (sheets w !! sheetIndex) as [sheetObj|]; [|exact Hok].
  match goal with
  | |- context [writeData_cells ?w' ?i ?r ?c row] =>
      assert (Hok' : strings_ok w')
        by (eapply strings_ok_frame; [|exact Hok]; reflexivity);
      pose proof (strings_ok_writeData_cells row w' i r c Hok') as Hp;
      destruct (writeData_cells w' i r c row) as [[u|e] w2]
  end; cbn [snd] in Hp |- *; [apply IH, Hp|exact Hp].
Qed.

Lemma strings_ok_writeData w rows sheet options :
  strings_ok w -> strings_ok (writeData w rows sheet options).2.
Proof.
  intros Hok. unfold writeData.
  match goal with
  | |- context [findIndex_from 0 (sheets w) ?n] =>
      destruct (findIndex_from 0 (sheets w) n) as [i|]
  end.
  - match goal with
    | |- context [writeData_rows w ?i ?r ?c ?d] =>
        pose proof (strings_ok_writeData_rows d w i r c Hok) as Hp;
        destruct (writeData_rows w i r c d) as [[u|e] w2]
    end; cbn [snd] in Hp |- *; [|exact Hp].
    destruct (sheets w2 !! i) as [sheetObj|]; [|exact Hp].
    eapply strings_ok_frame; [|exact Hp]; reflexivity.
  - match goal with
    | |- context [writeData_rows ?w' ?i ?r ?c ?d] =>
        assert (Hok' : strings_ok w')
          by (eapply strings_ok_frame; [|exact Hok]; reflexivity);
        pose proof (strings_ok_writeData_rows d w' i r c Hok') as Hp;
        destruct (writeData_rows w' i r c d) as [[u|e] w2]
    end; cbn [snd] in Hp |- *; [|exact Hp].
    destruct (sheets w2 !! length (sheets w)) as [sheetObj|]; [|exact Hp].
    eapply strings_ok_frame; [|exact Hp]; reflexivity.
Qed.

Lemma strings_ok_call w c : strings_ok w -> strings_ok (call w c).
Proof.
  intros Hok. destruct c; cbn [call].
  - apply strings_ok_write, Hok.
  - unfold writeRow. destruct (row_arguments _ _ _ _) as [[[[r c] vs] f] s].
    apply strings_ok_write_each, Hok.
  - unfold writeColumn. destruct (row_arguments _ _ _ _) as [[[[r c] vs] f] s].
    apply strings_ok_write_each, Hok.
  - apply strings_ok_setColumn, Hok.
  - apply strings_ok_setRow, Hok.
  - apply strings_ok_mergeRange, Hok.
  - apply strings_ok_insertChart, Hok.
  - eapply strings_ok_frame; [apply addFormat_table|exact Hok].
  - apply strings_ok_writeData, Hok.
Qed.

Lemma strings_ok_calls l :
  forall w, strings_ok w -> strings_ok (calls w l).
Proof.
  unfold calls. induction l as [|c rest IH]; intros w Hok; [exact Hok|].
  cbn [foldl]. apply IH, strings_ok_call, Hok.
Qed.

End TableUnderCalls.

(** X12.  The shared string table stays a table: after any sequence of
    calls of the public methods on a new writer, [writeData] included,
    whether they return or throw, no string is in the table twice, and the
    string map gives for each string of the table its position and holds
    nothing else. *)
Theorem shared_strings_unique_under_calls (file : string) (l : list Call) :
  let w := calls (Workbook.new_XlsxWriter file) l in
  NoDup (Workbook.sharedStrings w) /\
  (forall s i,
     Workbook.sharedStringsMap w !! s = Some i <->
     Workbook.sharedStrings w !! i = Some s).
Proof.
  intros w.
  pose proof (strings_ok_calls l (Workbook.new_XlsxWriter file)
                (strings_ok_new file)) as Hok.
  split; [apply strings_ok_NoDup, Hok|exact Hok].
Qed.

Section FormatsUnderCalls.
Import Js Workbook.

(** The part of the writer that holds the formats. *)
Definition registry (w : Writer)
  : list Fmt.Format * gmap (list (string * Json)) nat * gmap Scalar Z * Z :=
  (formats w, formatMap w, customNumFormats w, nextNumFormatId w).

Lemma registry_getOrCreateSheet w sheet :
  registry (_getOrCreateSheet w sheet).2 = registry w.
Proof.
  unfold _getOrCreateSheet.
  destruct (sheetMap w !! sheet_name_of sheet); reflexivity.
Qed.

Lemma registry_processCell w value format :
  registry (_processCell w value format).2 = registry w.
Proof. unfold _processCell. repeat case_match; reflexivity. Qed.

Lemma registry_write_at w row col value format sheet :
  registry (write_at w row col value format sheet).2 = registry w.
Proof.
  unfold write_at.
  pose proof (registry_getOrCreateSheet w sheet) as H1.
  destruct (_getOrCreateSheet w sheet) as [[sheetIndex nm] w1].
  cbn [snd] in H1.
  destruct (sheets w1 !! sheetIndex) as [sheetObj|]; [|exact H1].
  destruct (row <? 0); [exact H1|].
  match goal with
  | |- context [_processCell ?w' value format] =>
      pose proof (registry_processCell w' value format) as Hp;
      destruct (_processCell w' value format) as [cellData w2]
  end.
  cbn [snd] in Hp |- *. etransitivity; [|exact H1].
  etransitivity; [|exact Hp]. reflexivity.
Qed.

Lemma registry_write w pos value format sheet :
  registry (write w pos value format sheet).2 = registry w.
Proof. destruct pos; cbn [write]; apply registry_write_at. Qed.

Lemma registry_write_each values :
  forall w row col drow dcol format sheet,
    registry (write_each w row col drow dcol values format sheet).2
    = registry w.
Proof.
  induction values as [|v rest IH]; intros w row col drow dcol format sheet;
    [reflexivity|].
  cbn [write_each].
  pose proof (registry_write w (ByIndex row col) (AVal v) format sheet)
    as Hstep.
  destruct (write w (ByIndex row col) (AVal v) format sheet) as [[u|e] w1];
    cbn [snd] in Hstep |- *; [rewrite IH|]; exact Hstep.
Qed.

Lemma registry_setColumn w firstCol lastCol width format hidden sheet :
  registry (setColumn w firstCol lastCol width format hidden sheet)
  = registry w.
Proof.
  unfold setColumn.
  destruct (match lastCol, width with
            | Some (ColNumber n), None => (Some firstCol, Some (ofZ n))
            | _, _ => (lastCol, width)
            end) as [lastCol' width'].
  pose proof (registry_getOrCreateSheet w (sheet_or_default sheet)) as H1.
  destruct (_getOrCreateSheet w (sheet_or_default sheet))
    as [[sheetIndex nm] w1].
  exact H1.
Qed.

Lemma registry_setRow w row height format hidden sheet :
  registry (setRow w row height format hidden sheet) = registry w.
Proof.
  unfold setRow.
  pose proof (registry_getOrCreateSheet w (sheet_or_default sheet)) as H1.
  destruct (_getOrCreateSheet w (sheet_or_default sheet))
    as [[sheetIndex nm] w1].
  exact H1.
Qed.

Lemma registry_merge_tail w firstRow firstCol lastRow lastCol value format
    sheet :
  registry
    (let '((sheetIndex, _), w) := _getOrCreateSheet w (sheet_or_default sheet) in
     let merges : list MergeCell := default [] (mergeCells w !! sheetIndex) in
     let w :=
       with_mergeCells w
         (<[sheetIndex :=
              (merges ++ [{| merge_startRow := firstRow + 1;
                             merge_startCol := firstCol + 1;
                             merge_endRow := lastRow + 1;
                             merge_endCol := lastCol + 1 |}])%list]>
            (mergeCells w)) in
     match value with
     | AVal VUndefined => (Return tt, w)
     | _ => write w (ByIndex firstRow firstCol) value format sheet
     end).2 = registry w.
Proof.
  pose proof (registry_getOrCreateSheet w (sheet_or_default sheet)) as H1.
  destruct (_getOrCreateSheet w (sheet_or_default sheet))
    as [[sheetIndex nm] w1].
  cbn [snd] in H1. cbv zeta.
  destruct value as [[]|]; rewrite ?registry_write; exact H1.
Qed.

Lemma registry_mergeRange w pos format sheet :
  registry (mergeRange w pos format sheet).2 = registry w.
Proof.
  unfold mergeRange. destruct pos as [r1 c1 r2 c2 v|first last a2 a3 a4].
  - apply registry_merge_tail.
  - destruct (split_colon (first +:+ ":" +:+ last)) as [p0 p1].
    apply registry_merge_tail.
Qed.

Lemma registry_chart_tail w row col chart' options sheet :
  registry
    (let '((sheetIndex, _), w) := _getOrCreateSheet w (sheet_or_default sheet) in
     let xo := match options with Some o => x_offset o | None => 0 end in
     let yo := match options with Some o => y_offset o | None => 0 end in
     let placed := place_chart chart' (xo + col * 64) (yo + row * 20) in
     match sheets w !! sheetIndex with
     | None => (Throw type_error, w)
     | Some sheetObj =>
         (Return tt, set_sheet w sheetIndex (with_chart sheetObj (Some placed)))
     end).2 = registry w.
Proof.
  pose proof (registry_getOrCreateSheet w (sheet_or_default sheet)) as H1.
  destruct (_getOrCreateSheet w (sheet_or_default sheet))
    as [[sheetIndex nm] w1].
  cbn [snd] in H1. cbv zeta.
  destruct (sheets w1 !! sheetIndex) as [sheetObj|]; exact H1.
Qed.

Lemma registry_insertChart w pos sheet :
  registry (insertChart w pos sheet).2 = registry w.
Proof. unfold insertChart. destruct pos; apply registry_chart_tail. Qed.

Lemma registry_writeData_cells row :
  forall w sheetIndex rowIdx colIdx,
    registry (writeData_cells w sheetIndex rowIdx colIdx row).2 = registry w.
Proof.
  induction row as [|cell rest IH]; intros w sheetIndex rowIdx colIdx;
    [reflexivity|].
  cbn [writeData_cells].
  destruct (sheets w !! sheetIndex) as [sheetObj|]; [|reflexivity].
  destruct (rowIdx <? 0); [reflexivity|].
  match goal with
  | |- context [_processCell ?w' ?v ?f] =>
      pose proof (registry_processCell w' v f) as Hp;
      destruct (_processCell w' v f) as [cellData w2]
  end.
  cbn [snd] in Hp. rewrite IH. etransitivity; [|exact Hp]. reflexivity.
Qed.

Lemma registry_writeData_rows rows :
  forall w sheetIndex rowIdx startCol,
    registry (writeData_rows w sheetIndex rowIdx startCol rows).2 = registry w.
Proof.
  induction rows as [|row rest IH]; intros w sheetIndex rowIdx startCol;
    [reflexivity|].
  cbn [writeData_rows].
  destruct (sheets w !! sheetIndex) as [sheetObj|]; [|reflexivity].
  match goal with
  | |- context [writeData_cells ?w' ?i ?r ?c row] =>
      pose proof (registry_writeData_cells row w' i r c) as Hp;
      destruct (writeData_cells w' i r c row) as [[u|e] w2]
  end; cbn [snd] in Hp |- *; [rewrite IH|]; exact Hp.
Qed.

Lemma registry_writeData w rows sheet options :
  registry (writeData w rows sheet options).2 = registry w.
Proof.
  unfold writeData.
  match goal with
  | |- context [findIndex_from 0 (sheets w) ?n] =>
      destruct (findIndex_from 0 (sheets w) n) as [i|]
  end.
  - match goal with
    | |- context [writeData_rows w ?i ?r ?c ?d] =>
        pose proof (registry_writeData_rows d w i r c) as Hp;
        destruct (writeData_rows w i r c d) as [[u|e] w2]
    end; cbn [snd] in Hp |- *; [|exact Hp].
    destruct (sheets w2 !! i) as [sheetObj|]; exact Hp.
  - match goal with
    | |- context [writeData_rows ?w' ?i ?r ?c ?d] =>
        pose proof (registry_writeData_rows d w' i r c) as Hp;
        destruct (writeData_rows w' i r c d) as [[u|e] w2]
    end; cbn [snd] in Hp |- *; [|exact Hp].
    destruct (sheets w2 !! length (sheets w)) as [sheetObj|]; exact Hp.
Qed.

(** The formats are well kept: each is registered under its key at its own
    position, which is its [xfIndex], and the custom number formats have
    the ids from 164 up, each once. *)
Definition formats_ok (w : Writer) : Prop := registry_ok w /\ numFormats_ok w.

Lemma formats_ok_frame w w' :
  registry w' = registry w -> formats_ok w -> formats_ok w'.
Proof.
  unfold registry. intros [= Hf Hm Hc Hn] [Hr Hnum].
  split.
  - destruct Hr as [H1 H2]. split.
    + intros key idx. rewrite Hm, Hf. apply H1.
    + intros idx f. rewrite Hm, Hf. apply H2.
  - destruct Hnum as (H1 & H2 & H3). unfold numFormats_ok.
    rewrite Hc, Hn. split; [exact H1|split; [exact H2|exact H3]].
Qed.

Lemma addFormat_formats_prefix w properties :
  formats w `prefix_of` formats (addFormat w properties).2.
Proof.
  destruct (formatMap w !! Fmt.key_of (Fmt.new_Format properties))
    as [idx|] eqn:Hk.
  - rewrite (addFormat_hit w properties idx Hk). reflexivity.
  - destruct (addFormat_miss w properties Hk) as (_ & -> & _).
    apply prefix_app_r. reflexivity.
Qed.

Lemma call_formats w c :
  (formats_ok w -> formats_ok (call w c)) /\
  formats w `prefix_of` formats (call w c).
Proof.
  assert (Hframe : forall w', registry w' = registry w ->
            (formats_ok w -> formats_ok w') /\
            formats w `prefix_of` formats w').
  { intros w' H. split; [apply formats_ok_frame, H|].
    unfold registry in H. injection H as -> _ _ _. reflexivity. }
  destruct c; cbn [call].
  - apply Hframe, registry_write.
  - unfold writeRow. destruct (row_arguments _ _ _ _) as [[[[r c] vs] f] s].
    apply Hframe, registry_write_each.
  - unfold writeColumn. destruct (row_arguments _ _ _ _) as [[[[r c] vs] f] s].
    apply Hframe, registry_write_each.
  - apply Hframe, registry_setColumn.
  - apply Hframe, registry_setRow.
  - apply Hframe, registry_mergeRange.
  - apply Hframe, registry_insertChart.
  - split; [|apply addFormat_formats_prefix].
    intros [Hr Hn]. split;
      [apply registry_ok_addFormat, Hr|apply numFormats_ok_addFormat, Hn].
  - apply Hframe, registry_writeData.
Qed.

Lemma calls_formats l :
  forall w,
    (formats_ok w -> formats_ok (calls w l)) /\
    formats w `prefix_of` formats (calls w l).
Proof.
  unfold calls. induction l as [|c rest IH]; intros w; [split; auto|].
  cbn [foldl]. destruct (call_formats w c) as [Hok Hpre].
  destruct (IH (call w c)) as [Hok' Hpre']. split; [auto|].
  etransitivity; eassumption.
Qed.

Lemma calls_app w l1 l2 : calls w (l1 ++ l2) = calls (calls w l1) l2.
Proof. unfold calls. apply foldl_app. Qed.

End FormatsUnderCalls.



(** ** Cells written and read *)

(** [sheet.data[row][col]] when it is a cell: [None] stands for a row or a
    cell that is not there, and for [null]. *)
Definition cell_at (sh : Workbook.Sheet) (row col : Z) : option Workbook.Cell :=
  if (row <? 0) || (col <? 0) then None
  else
    match Workbook.data sh !! Z.to_nat row with
    | Some r =>
        match r !! Z.to_nat col with
        | Some (Some c) => Some c
        | _ => None
        end
    | None => None
    end.

Section CellsFacts.
Import Js Workbook.

Definition cell_in (d : list (list (option Cell))) (row col : nat)
  : option Cell :=
  match d !! row with
  | Some r => match r !! col with Some (Some c) => Some c | _ => None end
  | None => None
  end.

Lemma grow_lookup {A} (a : list A) (i : Z) (x : A) (j : nat) :
  grow a i x !! j =
  if decide (j < length a)%nat then a !! j
  else if decide (j < Z.to_nat (i + 1))%nat then Some x else None.
Proof.
  unfold grow. destruct (decide (j < length a)%nat) as [Hlt|Hge].
  - apply lookup_app_l, Hlt.
  - rewrite lookup_app_r by lia.
    destruct (decide (j < Z.to_nat (i + 1))%nat) as [Hlt|Hge'].
    + apply lookup_replicate_2. lia.
    + apply lookup_replicate_None. lia.
Qed.

Lemma grow_length {A} (a : list A) (i : Z) (x : A) :
  0 <= i -> (Z.to_nat i < length (grow a i x))%nat.
Proof. intros H. unfold grow. rewrite length_app, length_replicate. lia. Qed.

(** The grid after the three steps of [write]: the rows grown, the row
    grown, the cell put. *)
Definition stored (d : list (list (option Cell))) (row col : Z) (cell : Cell)
  : list (list (option Cell)) :=
  put_cell (alter (fun r => grow r col None) (Z.to_nat row) (grow d row []))
    row col cell.

Lemma stored_same d row col cell :
  0 <= row -> 0 <= col ->
  cell_in (stored d row col cell) (Z.to_nat row) (Z.to_nat col) = Some cell.
Proof.
  intros Hr Hc. unfold stored, put_cell, cell_in.
  assert (Hcol : (col <? 0) = false) by (apply Z.ltb_ge; lia). rewrite Hcol.
  pose proof (grow_length d row [] Hr) as Hlen.
  destruct (lookup_lt_is_Some_2 _ _ Hlen) as [r Hrow].
  rewrite !list_lookup_alter_eq, Hrow. cbn [fmap option_fmap option_map].
  rewrite list_lookup_insert_eq by (apply grow_length, Hc). reflexivity.
Qed.

Lemma stored_other d row col cell i j :
  0 <= row -> 0 <= col ->
  (i, j) <> (Z.to_nat row, Z.to_nat col) ->
  cell_in (stored d row col cell) i j = cell_in d i j.
Proof.
  intros Hr Hc Hne. unfold stored, put_cell, cell_in.
  assert (Hcol : (col <? 0) = false) by (apply Z.ltb_ge; lia). rewrite Hcol.
  destruct (decide (i = Z.to_nat row)) as [->|Hi].
  - assert (Hj : j <> Z.to_nat col) by congruence.
    rewrite !list_lookup_alter_eq, grow_lookup.
    destruct (decide (Z.to_nat row < length d)%nat) as [Hlt|Hge].
    + destruct (lookup_lt_is_Some_2 _ _ Hlt) as [r Hrow]. rewrite Hrow.
      cbn [fmap option_fmap option_map].
      rewrite list_lookup_insert_ne by congruence.
      rewrite grow_lookup.
      destruct (decide (j < length r)%nat) as [Hjl|Hjg]; [reflexivity|].
      rewrite (lookup_ge_None_2 r j) by lia.
      destruct (decide (j < Z.to_nat (col + 1))%nat); reflexivity.
    + rewrite (lookup_ge_None_2 d (Z.to_nat row)) by lia.
      destruct (decide (Z.to_nat row < Z.to_nat (row + 1))%nat); [|lia].
      cbn [fmap option_fmap option_map].
      rewrite list_lookup_insert_ne by congruence.
      rewrite grow_lookup. cbn [length].
      destruct (decide (j < 0)%nat); [lia|].
      destruct (decide (j < Z.to_nat (col + 1))%nat); reflexivity.
  - rewrite !list_lookup_alter_ne by congruence.
    rewrite grow_lookup.
    destruct (decide (i < length d)%nat) as [Hlt|Hge]; [reflexivity|].
    rewrite (lookup_ge_None_2 d i) by lia.
    destruct (decide (i < Z.to_nat (row + 1))%nat); reflexivity.
Qed.

Lemma cell_at_in sh row col :
  0 <= row -> 0 <= col ->
  cell_at sh row col = cell_in (data sh) (Z.to_nat row) (Z.to_nat col).
Proof.
  intros Hr Hc. unfold cell_at, cell_in.
  assert (H1 : (row <? 0) = false) by (apply Z.ltb_ge; lia).
  assert (H2 : (col <? 0) = false) by (apply Z.ltb_ge; lia).
  rewrite H1, H2. reflexivity.
Qed.

End CellsFacts.

Section WriteFacts.
Import Js Workbook.

Lemma getOrCreateSheet_lookup w sheet :
  sheetMap_sound w ->
  exists sh,
    sheets (_getOrCreateSheet w sheet).2 !! (_getOrCreateSheet w sheet).1.1
    = Some sh /\ name sh = sheet_name_of sheet.
Proof.
  intros Hsound. unfold _getOrCreateSheet.
  destruct (sheetMap w !! sheet_name_of sheet) as [idx|] eqn:Hm; cbn [fst snd].
  - apply Hsound, Hm.
  - eexists. split.
    + cbn [sheets with_sheets with_sheetMap].
      rewrite lookup_app_r by lia. rewrite Nat.sub_diag. reflexivity.
    + reflexivity.
Qed.

Lemma write_at_result w row col value format sheet old :
  sheets (_getOrCreateSheet w sheet).2 !! (_getOrCreateSheet w sheet).1.1
  = Some old ->
  0 <= row ->
  let i := (_getOrCreateSheet w sheet).1.1 in
  let r := write_at w row col value format sheet in
  r.1 = Return tt /\
  exists sh,
    sheets r.2 !! i = Some sh /\
    name sh = name old /\
    data sh = stored (data old) row col (_processCell w value format).1 /\
    (forall j, j <> i ->
       sheets r.2 !! j = sheets (_getOrCreateSheet w sheet).2 !! j).
Proof.
  intros Hold Hrow. cbv zeta. unfold write_at.
  pose proof (getOrCreateSheet_table w sheet) as Ht.
  destruct (_getOrCreateSheet w sheet) as [[sheetIndex nm] w1].
  cbn [fst snd] in Hold, Ht |- *. rewrite Hold.
  assert (Hneg : (row <? 0) = false) by (apply Z.ltb_ge; lia). rewrite Hneg.
  set (w2 := set_sheet w1 sheetIndex
               (with_data old (grow (data old) row []))).
  assert (Ht2 : table w2 = table w) by exact Ht.
  pose proof (processCell_table w2 w value format Ht2) as [Hcell _].
  pose proof (processCell_sheets w2 value format) as [Hs _].
  destruct (_processCell w2 value format) as [cellData w3].
  cbn [fst snd] in Hcell, Hs |- *. split; [reflexivity|].
  assert (Hlen : (sheetIndex < length (sheets w3))%nat).
  { rewrite Hs. unfold w2, set_sheet. cbn [sheets with_sheets].
    rewrite length_insert. eapply lookup_lt_Some, Hold. }
  eexists. split; [|split; [|split]].
  - unfold set_sheet. cbn [sheets with_sheets].
    apply list_lookup_insert_eq, Hlen.
  - reflexivity.
  - cbn [data with_bounds with_data]. rewrite Hcell. reflexivity.
  - intros j Hj. unfold set_sheet. cbn [sheets with_sheets].
    rewrite list_lookup_insert_ne by congruence. rewrite Hs.
    unfold w2, set_sheet. cbn [sheets with_sheets].
    apply list_lookup_insert_ne. congruence.
Qed.

End WriteFacts.

(** X14.  What [write] stores can be read back, and nothing else moves.
    On a writer whose sheet map points at sheets with the names looked up,
    [write(row, col, value, format, sheet)] with [row] and [col] from 0 up
    returns; afterwards the sheet holds at [(row, col)] the cell that
    [_processCell] makes of the value, every other cell of the sheet is
    what it was, the sheet keeps its name, and the other sheets are
    untouched.  ([old] is the sheet before the call, created empty if it
    was not there.) *)
Theorem write_stores_cell
    (w : Workbook.Writer) (row col : Z) (value format : Workbook.Arg)
    (sheet : option Workbook.SheetArg) :
  sheetMap_sound w -> 0 <= row -> 0 <= col ->
  let before := Workbook._getOrCreateSheet w (Workbook.sheet_or_default sheet) in
  let i := before.1.1 in
  let r := Workbook.write w (Workbook.ByIndex row col) value format sheet in
  r.1 = Workbook.Return tt /\
  exists sh old,
    Workbook.sheets before.2 !! i = Some old /\
    Workbook.sheets r.2 !! i = Some sh /\
    Workbook.name sh = Workbook.name old /\
    cell_at sh row col = Some (Workbook._processCell w value format).1 /\
    (forall row' col', (row', col') <> (row, col) ->
       cell_at sh row' col' = cell_at old row' col') /\
    (forall j, j <> i ->
       Workbook.sheets r.2 !! j = Workbook.sheets before.2 !! j).
Proof.
  intros Hsound Hrow Hcol before i r.
  destruct (getOrCreateSheet_lookup w (Workbook.sheet_or_default sheet) Hsound)
    as (old & Hold & _).
  destruct (write_at_result w row col value format
              (Workbook.sheet_or_default sheet) old Hold Hrow)
    as (Hret & sh & Hsh & Hname & Hdata & Hothers).
  split; [exact Hret|]. exists sh, old.
  split; [exact Hold|]. split; [exact Hsh|]. split; [exact Hname|].
  split; [|split; [|exact Hothers]].
  - rewrite cell_at_in, Hdata by assumption. apply stored_same; assumption.
  - intros row' col' Hne. unfold cell_at.
    destruct ((row' <? 0) || (col' <? 0)) eqn:Hneg; [reflexivity|].
    apply orb_false_elim in Hneg as [H1 H2].
    apply Z.ltb_ge in H1, H2. rewrite Hdata.
    apply (stored_other (Workbook.data old) row col _
             (Z.to_nat row') (Z.to_nat col') Hrow Hcol).
    intros [= Hr Hc]. apply Hne. f_equal; lia.
Qed.

Lemma write_stores_cell_witness :
  let w := Workbook.new_XlsxWriter "out.xlsx" in
  let r :=
    Workbook.write w (Workbook.ByIndex 2 1) (Workbook.AVal (Js.VNum (Js.ofZ 7)))
      Workbook.undefined None in
  r.1 = Workbook.Return tt /\
  List.map Workbook.name (Workbook.sheets r.2) = ["Sheet1"].
Proof.
  cbv zeta. split; [|vm_compute; reflexivity].
  apply (write_stores_cell (Workbook.new_XlsxWriter "out.xlsx") 2 1
           (Workbook.AVal (Js.VNum (Js.ofZ 7))) Workbook.undefined None);
    [|lia|lia].
  intros n i H. vm_compute in H. discriminate.
Defined.

Section WriteEdges.
Import Js Workbook.

Lemma with_data_same sh : with_data sh (data sh) = sh.
Proof. destruct sh; reflexivity. Qed.

Lemma grow_negative {A} (a : list A) (i : Z) (x : A) :
  i < 0 -> grow a i x = a.
Proof.
  intros H. unfold grow.
  replace (Z.to_nat (i + 1) - length a)%nat with 0%nat by lia.
  cbn [replicate]. apply app_nil_r.
Qed.

End WriteEdges.

(** X15.  A negative row makes [write] throw after the sheet is there: on
    a writer whose sheet map points at existing sheets, [write] with a row
    below zero throws a [TypeError]; the sheet named has been looked up or
    created as by [_getOrCreateSheet], and nothing else has changed: no
    cell is stored and no string is added to the table. *)
Theorem write_negative_row_throws
    (w : Workbook.Writer) (row col : Z) (value format : Workbook.Arg)
    (sheet : option Workbook.SheetArg) :
  sheetMap_sound w -> row < 0 ->
  Workbook.write w (Workbook.ByIndex row col) value format sheet
  = (Workbook.Throw Workbook.type_error,
     (Workbook._getOrCreateSheet w (Workbook.sheet_or_default sheet)).2).
Proof.
  intros Hsound Hrow. cbn [Workbook.write]. unfold Workbook.write_at.
  destruct (getOrCreateSheet_lookup w (Workbook.sheet_or_default sheet) Hsound)
    as (old & Hold & _).
  destruct (Workbook._getOrCreateSheet w (Workbook.sheet_or_default sheet))
    as [[sheetIndex nm] w1].
  cbn [fst snd] in Hold |- *. rewrite Hold.
  assert (Hneg : (row <? 0) = true) by (apply Z.ltb_lt; lia). rewrite Hneg.
  f_equal. rewrite grow_negative by exact Hrow. rewrite with_data_same.
  unfold Workbook.set_sheet. rewrite list_insert_id by exact Hold.
  destruct w1; reflexivity.
Qed.

Lemma write_negative_row_throws_witness :
  let w := Workbook.new_XlsxWriter "out.xlsx" in
  let r :=
    Workbook.write w (Workbook.ByIndex (-1) 0)
      (Workbook.AVal (Js.VStr "lost")) Workbook.undefined None in
  r.1 = Workbook.Throw Workbook.type_error /\
  Workbook.sharedStrings r.2 = [] /\
  List.map Workbook.name (Workbook.sheets r.2) = ["Sheet1"].
Proof.
  cbv zeta.
  rewrite (write_negative_row_throws (Workbook.new_XlsxWriter "out.xlsx")
             (-1) 0 (Workbook.AVal (Js.VStr "lost")) Workbook.undefined None);
    [|intros n i H; vm_compute in H; discriminate|lia].
  vm_compute. repeat split; reflexivity.
Defined.

(** X16.  A cell reference in the place of the row.  With a reference made
    of the letters of a column from 1 up and a row number from 0 up, and a
    second argument [v] that is neither a string nor an object,
    [write(ref, v, third, format, sheet)] is
    [write(row - 1, col - 1, v, format, sheet)] as long as [third] is not a
    plain object: a [Format] given in third place is not used. *)
Theorem write_by_reference
    (w : Workbook.Writer) (cache : gmap Z string) (col row : Z)
    (v : Js.JsVal) (third format : Workbook.Arg)
    (sheet : option Workbook.SheetArg) :
  Codec.cache_reachable cache -> 1 <= col -> 0 <= row ->
  Workbook.is_string (Workbook.AVal v) = false ->
  Workbook.is_object (Workbook.AVal v) = false ->
  Workbook.is_object third && negb (Workbook.is_Format third) = false ->
  Workbook.write w
    (Workbook.ByRef ((Codec.xlColumn cache col).1 +:+ Str.ofZ row)
       (Workbook.AVal v))
    third format sheet
  = Workbook.write w (Workbook.ByIndex (row - 1) (col - 1))
      (Workbook.AVal v) format sheet.
Proof.
  intros Hc Hcol Hrow Hstr Hobj Hthird. cbn [Workbook.write].
  rewrite xlColumn_value by exact Hc.
  rewrite reference_read_back by assumption. cbn [Codec.row Codec.column].
  rewrite Hstr, Hobj, Hthird. cbn [negb andb].
  destruct v; try discriminate; reflexivity.
Qed.

Lemma write_by_reference_witness :
  let w := Workbook.new_XlsxWriter "out.xlsx" in
  Workbook.write w
    (Workbook.ByRef ((Codec.xlColumn ∅ 2).1 +:+ Str.ofZ 3)
       (Workbook.AVal (Js.VNum (Js.ofZ 7))))
    (Workbook.AFormat (Some 0%nat)) Workbook.undefined None
  = Workbook.write w (Workbook.ByIndex (3 - 1) (2 - 1))
      (Workbook.AVal (Js.VNum (Js.ofZ 7))) Workbook.undefined None.
Proof.
  cbv zeta.
  apply (write_by_reference (Workbook.new_XlsxWriter "out.xlsx") ∅ 2 3
           (Js.VNum (Js.ofZ 7)) (Workbook.AFormat (Some 0%nat))
           Workbook.undefined None);
    [constructor|lia|lia|reflexivity|reflexivity|reflexivity].
Defined.

(** X17.  A string after a cell reference is a sheet name, not a value:
    [write(ref, s, third, format)] with a string [s] writes [third] to the
    cell, on the sheet named [s]; the string itself is not stored. *)
Theorem write_reference_then_string_names_sheet
    (w : Workbook.Writer) (cache : gmap Z string) (col row : Z)
    (s : string) (third format : Workbook.Arg)
    (sheet : option Workbook.SheetArg) :
  Codec.cache_reachable cache -> 1 <= col -> 0 <= row ->
  Workbook.write w
    (Workbook.ByRef ((Codec.xlColumn cache col).1 +:+ Str.ofZ row)
       (Workbook.AVal (Js.VStr s)))
    third format sheet
  = Workbook.write w (Workbook.ByIndex (row - 1) (col - 1)) third
      (if Workbook.is_object third && negb (Workbook.is_Format third)
       then third else format)
      (Some (Workbook.SheetName s)).
Proof.
  intros Hc Hcol Hrow. cbn [Workbook.write].
  rewrite xlColumn_value by exact Hc.
  rewrite reference_read_back by assumption. reflexivity.
Qed.

Lemma write_reference_then_string_names_sheet_witness :
  let w := Workbook.new_XlsxWriter "out.xlsx" in
  let r :=
    Workbook.write w
      (Workbook.ByRef ((Codec.xlColumn ∅ 1).1 +:+ Str.ofZ 1)
         (Workbook.AVal (Js.VStr "hello")))
      Workbook.undefined Workbook.undefined None in
  Workbook.sharedStrings r.2 = [] /\
  List.map Workbook.name (Workbook.sheets r.2) = ["hello"].
Proof.
  cbv zeta.
  rewrite (write_reference_then_string_names_sheet
             (Workbook.new_XlsxWriter "out.xlsx") ∅ 1 1 "hello"
             Workbook.undefined Workbook.undefined None)
    by (constructor || lia).
  vm_compute. split; reflexivity.
Defined.

(** ** Charts of every type *)





Section ChartDocument.
Import Js Xml Charts.
Variable rt : Runtime.









End ChartDocument.



Section ChartsOfEveryType.
Import Js Xml Charts.
Variable rt : Runtime.


Lemma each_series_select_nil wanted (gen : Series -> nat -> Node) series :
  (forall s i, select wanted [gen s i] = []) ->
  forall i, select wanted (each_series gen i series) = [].
Proof.
  intros Hgen. induction series as [|s rest IH]; intros i; [reflexivity|].
  cbn [each_series]. rewrite select_cons, Hgen, IH. reflexivity.
Qed.


























End ChartsOfEveryType.







(** ** Colours *)

Section ColourFacts.
Import Xml Charts.

(** An uppercase hexadecimal digit. *)
Definition is_hex_digit (c : ascii) : bool :=
  Str.is_digit c || ((65 <=? Str.code c) && (Str.code c <=? 70)).

Definition below (n : nat) (p : Z -> bool) : bool :=
  List.forallb p (List.map Z.of_nat (seq 0 n)).

Lemma below_spec n p :
  below n p = true -> forall c, 0 <= c < Z.of_nat n -> p c = true.
Proof.
  unfold below. rewrite List.forallb_forall. intros H c Hc. apply H.
  apply List.in_map_iff. exists (Z.to_nat c). split; [lia|].
  apply List.in_seq. lia.
Qed.

Definition byte_text_ok (c : Z) : bool :=
  let s := Str.toUpperCase (hex2 c) in
  (String.length s =? 2)%nat && Str.forallb is_hex_digit s.

Lemma byte_text c :
  0 <= c <= 255 ->
  String.length (Str.toUpperCase (hex2 c)) = 2%nat /\
  Str.forallb is_hex_digit (Str.toUpperCase (hex2 c)) = true.
Proof.
  intros Hc.
  assert (H : byte_text_ok c = true).
  { apply (below_spec 256); [vm_compute; reflexivity|lia]. }
  unfold byte_text_ok in H. cbv zeta in H.
  apply andb_prop in H as [H1 H2]. split; [|exact H2].
  apply Nat.eqb_eq, H1.
Qed.

Lemma str_map_app f s t : Str.map f (s +:+ t) = Str.map f s +:+ Str.map f t.
Proof.
  induction s as [|c s IH]; [reflexivity|].
  rewrite str_app_cons. cbn [Str.map]. rewrite IH, str_app_cons. reflexivity.
Qed.

Lemma length_str_app s t :
  String.length (s +:+ t) = (String.length s + String.length t)%nat.
Proof.
  induction s as [|c s IH]; [reflexivity|].
  rewrite str_app_cons. cbn [String.length]. rewrite IH. reflexivity.
Qed.

Lemma rgb_text r g b :
  Str.toUpperCase (concat_map hex2 [r; g; b]) =
  Str.toUpperCase (hex2 r) +:+ Str.toUpperCase (hex2 g) +:+
  Str.toUpperCase (hex2 b).
Proof.
  cbn [concat_map]. unfold Str.toUpperCase.
  rewrite !str_map_app, str_app_nil_r. reflexivity.
Qed.

Lemma packed_components r g b :
  0 <= r <= 255 -> 0 <= g <= 255 -> 0 <= b <= 255 ->
  let n := r + 256 * g + 65536 * b in
  Z.land n 255 = r /\ Z.land (Z.shiftr n 8) 255 = g /\
  Z.land (Z.shiftr n 16) 255 = b.
Proof.
  intros Hr Hg Hb n.
  change 255 with (Z.ones 8).
  rewrite !Z.land_ones, !Z.shiftr_div_pow2 by lia.
  change (2 ^ 8) with 256. change (2 ^ 16) with 65536.
  unfold n. repeat split.
  - symmetry. apply (Z.mod_unique _ _ (g + 256 * b)); lia.
  - assert (H : (r + 256 * g + 65536 * b) / 256 = g + 256 * b).
    { symmetry. apply (Z.div_unique _ _ _ r); lia. }
    rewrite H. symmetry. apply (Z.mod_unique _ _ b); lia.
  - assert (H : (r + 256 * g + 65536 * b) / 65536 = b).
    { symmetry. apply (Z.div_unique _ _ _ (r + 256 * g)); lia. }
    rewrite H. apply Z.mod_small. lia.
Qed.

End ColourFacts.

(** X21.  For components from 0 to 255, [toHexColor([r, g, b])] is six
    uppercase hexadecimal digits, and the packed number
    [r + 256 g + 65536 b] (red in the low byte) gives the same text. *)
Theorem rgb_color_text (r g b : Z) :
  0 <= r <= 255 -> 0 <= g <= 255 -> 0 <= b <= 255 ->
  let text := Charts.toHexColor (Charts.CVArray [r; g; b]) in
  String.length text = 6%nat /\
  Str.forallb is_hex_digit text = true /\
  Charts.toHexColor (Charts.CVNumber (r + 256 * g + 65536 * b)) = text.
Proof.
  intros Hr Hg Hb text. unfold text, Charts.toHexColor, Charts.getHexColor.
  destruct (packed_components r g b Hr Hg Hb) as (-> & -> & ->).
  rewrite rgb_text, !length_str_app, !forallb_app.
  destruct (byte_text r Hr) as [-> ->].
  destruct (byte_text g Hg) as [-> ->].
  destruct (byte_text b Hb) as [-> ->].
  repeat split; reflexivity.
Qed.

Lemma rgb_color_text_witness :
  Charts.toHexColor (Charts.CVArray [79; 129; 189]) = "4F81BD" /\
  Charts.toHexColor (Charts.CVNumber 12419407) = "4F81BD".
Proof.
  destruct (rgb_color_text 79 129 189 ltac:(lia) ltac:(lia) ltac:(lia))
    as (_ & _ & H).
  split; [vm_compute; reflexivity|].
  etransitivity; [exact H|]. vm_compute. reflexivity.
Defined.

(** ** Rows and columns of values *)

Section RowsAndColumns.
Import Js Workbook.

Lemma sound_getOrCreateSheet w sheet :
  sheetMap_sound w -> sheetMap_sound (_getOrCreateSheet w sheet).2.
Proof.
  intros Hsound. unfold _getOrCreateSheet.
  destruct (sheetMap w !! sheet_name_of sheet) as [idx|] eqn:Hm; [exact Hsound|].
  cbn [snd]. intros n i. cbn [sheets sheetMap with_sheets with_sheetMap].
  destruct (decide (n = sheet_name_of sheet)) as [->|Hne].
  - rewrite lookup_insert_eq. intros [= <-]. eexists. split.
    + rewrite lookup_app_r by lia. rewrite Nat.sub_diag. reflexivity.
    + reflexivity.
  - rewrite lookup_insert_ne by congruence. intros Hn.
    destruct (Hsound n i Hn) as (sh & Hsh & Hname). exists sh.
    split; [|exact Hname]. rewrite lookup_app_l; [exact Hsh|].
    eapply lookup_lt_Some, Hsh.
Qed.

Lemma getOrCreateSheet_named w sheet :
  sheetMap (_getOrCreateSheet w sheet).2 !! sheet_name_of sheet
  = Some (_getOrCreateSheet w sheet).1.1.
Proof.
  unfold _getOrCreateSheet.
  destruct (sheetMap w !! sheet_name_of sheet) as [idx|] eqn:Hm;
    cbn [fst snd]; [exact Hm|].
  cbn [sheetMap with_sheetMap]. apply lookup_insert_eq.
Qed.

Lemma getOrCreateSheet_known w sheet i :
  sheetMap w !! sheet_name_of sheet = Some i ->
  _getOrCreateSheet w sheet = ((i, sheet_name_of sheet), w).
Proof. intros H. unfold _getOrCreateSheet. rewrite H. reflexivity. Qed.

Lemma sound_set_sheet w i sh sh' :
  sheets w !! i = Some sh -> name sh' = name sh ->
  sheetMap_sound w -> sheetMap_sound (set_sheet w i sh').
Proof.
  intros Hi Hname Hsound n j Hn.
  unfold set_sheet in *. cbn [sheets sheetMap with_sheets] in *.
  destruct (Hsound _ _ Hn) as (s & Hs & Hsn).
  destruct (decide (i = j)) as [<-|Hne].
  - exists sh'. split.
    + apply list_lookup_insert_eq. eapply lookup_lt_Some, Hi.
    + rewrite Hname. congruence.
  - exists s. split; [|exact Hsn]. rewrite list_lookup_insert_ne; assumption.
Qed.

Lemma write_at_sheetMap w row col value format sheet :
  sheetMap (write_at w row col value format sheet).2
  = sheetMap (_getOrCreateSheet w sheet).2.
Proof.
  unfold write_at.
  destruct (_getOrCreateSheet w sheet) as [[sheetIndex nm] w1]. cbn [snd].
  destruct (sheets w1 !! sheetIndex) as [sheetObj|]; [|reflexivity].
  destruct (row <? 0); [reflexivity|].
  match goal with
  | |- context [_processCell ?w' value format] =>
      pose proof (processCell_sheets w' value format) as [_ Hm];
      destruct (_processCell w' value format) as [cellData w2]
  end.
  cbn [snd] in Hm |- *. exact Hm.
Qed.

Lemma processCell_map_mono w value format :
  sharedStringsMap w ⊆ sharedStringsMap (_processCell w value format).2.
Proof.
  unfold _processCell. repeat case_match; cbn [snd]; try reflexivity.
  cbn [sharedStringsMap with_sharedStrings].
  apply insert_subseteq. assumption.
Qed.

(** Once a value has been processed, processing it again, in any later
    state of the table, gives the same cell. *)
Lemma processCell_stable w w' value format :
  sharedStringsMap (_processCell w value format).2 ⊆ sharedStringsMap w' ->
  (_processCell w' value format).1 = (_processCell w value format).1.
Proof.
  unfold _processCell.
  destruct value as [[| | | n | s | | |]|]; cbn [fst snd]; try reflexivity.
  - destruct n as [|[]| |]; reflexivity.
  - destruct (Str.startsWith "=" s); [reflexivity|].
    destruct (String.eqb s ""); [reflexivity|].
    destruct (sharedStringsMap w !! s) as [idx|] eqn:Hs; cbn [fst snd].
    + intros Hsub. rewrite (lookup_weaken _ _ _ _ Hs Hsub). reflexivity.
    + cbn [sharedStringsMap with_sharedStrings]. intros Hsub.
      rewrite (lookup_weaken _ _ s (length (sharedStrings w))
                 (lookup_insert_eq _ _ _) Hsub).
      reflexivity.
Qed.

Lemma write_at_map w row col value format sheet :
  (write_at w row col value format sheet).1 = Return tt ->
  sharedStringsMap (write_at w row col value format sheet).2
  = sharedStringsMap (_processCell w value format).2.
Proof.
  intros Hret. pose proof (write_at_table w row col value format sheet) as Ht.
  rewrite Hret in Ht. unfold table in Ht. congruence.
Qed.

Variables (format : Arg) (sheet : option SheetArg).

Definition target : string := sheet_name_of (sheet_or_default sheet).

(** One [write] at a position from 0 up. *)
Lemma write_step w row col value :
  sheetMap_sound w -> 0 <= row -> 0 <= col ->
  let r := write w (ByIndex row col) value format sheet in
  r.1 = Return tt /\ sheetMap_sound r.2 /\
  sharedStringsMap r.2 = sharedStringsMap (_processCell w value format).2 /\
  exists i sh,
    sheetMap r.2 !! target = Some i /\ sheets r.2 !! i = Some sh /\
    cell_at sh row col = Some (_processCell w value format).1 /\
    forall i0 sh0,
      sheetMap w !! target = Some i0 -> sheets w !! i0 = Some sh0 ->
      i = i0 /\
      forall row' col', (row', col') <> (row, col) ->
        cell_at sh row' col' = cell_at sh0 row' col'.
Proof.
  intros Hsound Hrow Hcol. cbn [write]. cbv zeta.
  destruct (getOrCreateSheet_lookup w (sheet_or_default sheet) Hsound)
    as (old & Hold & _).
  destruct (write_at_result w row col value format (sheet_or_default sheet)
              old Hold Hrow) as (Hret & sh & Hsh & Hname & Hdata & Hothers).
  split; [exact Hret|]. split; [|split].
  - intros n i Hn. rewrite write_at_sheetMap in Hn.
    destruct (sound_getOrCreateSheet w (sheet_or_default sheet) Hsound n i Hn)
      as (s & Hs & Hsn).
    destruct (decide (i = (_getOrCreateSheet w (sheet_or_default sheet)).1.1))
      as [->|Hne].
    + exists sh. split; [exact Hsh|]. congruence.
    + exists s. split; [|exact Hsn]. rewrite Hothers; assumption.
  - apply write_at_map, Hret.
  - exists (_getOrCreateSheet w (sheet_or_default sheet)).1.1, sh.
    split; [|split; [exact Hsh|split]].
    + rewrite write_at_sheetMap. apply getOrCreateSheet_named.
    + rewrite cell_at_in, Hdata by assumption. apply stored_same; assumption.
    + intros i0 sh0 Hm Hs0.
      rewrite (getOrCreateSheet_known w _ i0 Hm) in Hold |- *.
      cbn [fst snd] in Hold |- *. split; [reflexivity|].
      assert (old = sh0) as -> by congruence.
      intros row' col' Hne. unfold cell_at.
      destruct ((row' <? 0) || (col' <? 0)) eqn:Hneg; [reflexivity|].
      apply orb_false_elim in Hneg as [H1 H2].
      apply Z.ltb_ge in H1, H2. rewrite Hdata.
      apply (stored_other (data sh0) row col _
               (Z.to_nat row') (Z.to_nat col') Hrow Hcol).
      intros [= Hr Hc]. apply Hne. f_equal; lia.
Qed.

Variables (drow dcol : Z).
Hypothesis Hdrow : 0 <= drow.
Hypothesis Hdcol : 0 <= dcol.
Hypothesis Hstep : 0 < drow + dcol.

(** The loop of [writeRow] and [writeColumn]. *)
Lemma write_each_stores values :
  forall w row col,
    sheetMap_sound w -> 0 <= row -> 0 <= col ->
    let r := write_each w row col drow dcol values format sheet in
    r.1 = Return tt /\ sheetMap_sound r.2 /\
    sharedStringsMap w ⊆ sharedStringsMap r.2 /\
    (forall i0 sh0,
       sheetMap w !! target = Some i0 -> sheets w !! i0 = Some sh0 ->
       sheetMap r.2 !! target = Some i0 /\
       exists sh, sheets r.2 !! i0 = Some sh /\
         forall row' col', row' < row \/ col' < col ->
           cell_at sh row' col' = cell_at sh0 row' col') /\
    (forall k v, values !! k = Some v ->
       exists i sh,
         sheetMap r.2 !! target = Some i /\ sheets r.2 !! i = Some sh /\
         cell_at sh (row + Z.of_nat k * drow) (col + Z.of_nat k * dcol)
         = Some (_processCell r.2 (AVal v) format).1).
Proof.
  induction values as [|v rest IH]; intros w row col Hsound Hrow Hcol; cbv zeta.
  - cbn [write_each fst snd]. split; [reflexivity|]. split; [exact Hsound|].
    split; [reflexivity|]. split.
    + intros i0 sh0 Hm Hs. split; [exact Hm|]. exists sh0. split; [exact Hs|].
      reflexivity.
    + intros k v Hk. rewrite lookup_nil in Hk. discriminate.
  - cbn [write_each].
    destruct (write_step w row col (AVal v) Hsound Hrow Hcol)
      as (Hret & Hsound1 & Hmap1 & i & sh1 & Hi & Hsh1 & Hcell & Hprev).
    destruct (write w (ByIndex row col) (AVal v) format sheet) as [o w1].
    cbn [fst snd] in Hret, Hsound1, Hmap1, Hi, Hsh1. subst o.
    destruct (IH w1 (row + drow) (col + dcol) Hsound1 ltac:(lia) ltac:(lia))
      as (Hret' & Hsound' & Hmap' & Hkeep & Hcells).
    cbv zeta in Hret', Hsound', Hmap', Hkeep, Hcells.
    set (r := write_each w1 (row + drow) (col + dcol) drow dcol rest format
                sheet) in *.
    assert (Hsub : sharedStringsMap (_processCell w (AVal v) format).2
                   ⊆ sharedStringsMap r.2) by (rewrite <- Hmap1; exact Hmap').
    destruct (Hkeep i sh1 Hi Hsh1) as (Hi' & sh & Hsh & Hsame).
    split; [exact Hret'|]. split; [exact Hsound'|]. split; [|split].
    + etransitivity; [apply (processCell_map_mono w (AVal v) format)|exact Hsub].
    + intros i0 sh0 Hm Hs0. destruct (Hprev i0 sh0 Hm Hs0) as [<- Hother].
      split; [exact Hi'|]. exists sh. split; [exact Hsh|].
      intros row' col' Hlt. rewrite Hsame by lia. apply Hother.
      intros [= -> ->]. lia.
    + intros [|k] x Hk.
      * cbn in Hk. injection Hk as <-. exists i, sh.
        split; [exact Hi'|]. split; [exact Hsh|].
        change (Z.of_nat 0) with 0. rewrite !Z.mul_0_l, !Z.add_0_r.
        rewrite Hsame by lia. rewrite Hcell. f_equal. symmetry.
        apply processCell_stable, Hsub.
      * cbn in Hk. destruct (Hcells k x Hk) as (j & s & Hj & Hs & Hc).
        exists j, s. split; [exact Hj|]. split; [exact Hs|].
        replace (row + Z.of_nat (S k) * drow)
          with (row + drow + Z.of_nat k * drow) by lia.
        replace (col + Z.of_nat (S k) * dcol)
          with (col + dcol + Z.of_nat k * dcol) by lia.
        exact Hc.
Qed.

End RowsAndColumns.

(** X22.  [writeRow(row, col, values, format, sheet)] and [writeColumn],
    called with [row] and [col] from 0 up on a writer whose sheet map points
    at sheets with the names looked up, return, and afterwards every value
    can be read back from the sheet named: value number [k] is at
    [(row, col + k)] for [writeRow] and at [(row + k, col)] for
    [writeColumn], as the cell [_processCell] makes of it. *)
Theorem writeRow_writeColumn_store_values
    (w : Workbook.Writer) (row col : Z) (values : list Js.JsVal)
    (format : Workbook.Arg) (sheet : option Workbook.SheetArg) :
  sheetMap_sound w -> 0 <= row -> 0 <= col ->
  let name := Workbook.sheet_name_of (Workbook.sheet_or_default sheet) in
  let stores (r : Workbook.Outcome unit * Workbook.Writer) (drow dcol : Z) :=
    r.1 = Workbook.Return tt /\
    forall k v, values !! k = Some v ->
      exists i sh,
        Workbook.sheetMap r.2 !! name = Some i /\
        Workbook.sheets r.2 !! i = Some sh /\
        cell_at sh (row + Z.of_nat k * drow) (col + Z.of_nat k * dcol)
        = Some (Workbook._processCell r.2 (Workbook.AVal v) format).1 in
  stores (Workbook.writeRow w (Workbook.ByIndex row col) values format sheet)
    0 1 /\
  stores (Workbook.writeColumn w (Workbook.ByIndex row col) values format sheet)
    1 0.
Proof.
  intros Hsound Hrow Hcol name stores. unfold stores.
  unfold Workbook.writeRow, Workbook.writeColumn.
  cbn [Workbook.row_arguments]. split.
  - destruct (write_each_stores format sheet 0 1 ltac:(lia) ltac:(lia)
                ltac:(lia) values w row col Hsound Hrow Hcol)
      as (Hret & _ & _ & _ & Hcells).
    split; [exact Hret|exact Hcells].
  - destruct (write_each_stores format sheet 1 0 ltac:(lia) ltac:(lia)
                ltac:(lia) values w row col Hsound Hrow Hcol)
      as (Hret & _ & _ & _ & Hcells).
    split; [exact Hret|exact Hcells].
Qed.

Lemma writeRow_writeColumn_store_values_witness :
  let w := Workbook.new_XlsxWriter "out.xlsx" in
  let values := [Js.VStr "a"; Js.VNum (Js.ofZ 7); Js.VStr "a"] in
  (Workbook.writeRow w (Workbook.ByIndex 1 2) values Workbook.undefined None).1
  = Workbook.Return tt /\
  (Workbook.writeColumn w (Workbook.ByIndex 1 2) values Workbook.undefined
     None).1 = Workbook.Return tt.
Proof.
  cbv zeta.
  assert (Hsound : sheetMap_sound (Workbook.new_XlsxWriter "out.xlsx")).
  { intros n i H. vm_compute in H. discriminate. }
  destruct (writeRow_writeColumn_store_values
              (Workbook.new_XlsxWriter "out.xlsx") 1 2
              [Js.VStr "a"; Js.VNum (Js.ofZ 7); Js.VStr "a"]
              Workbook.undefined None Hsound ltac:(lia) ltac:(lia))
    as [[H1 _] [H2 _]].
  split; [exact H1|exact H2].
Defined.

(** ** Column and row settings *)

Section ColumnFacts.
Import Js Workbook.




End ColumnFacts.



(** ** Cell elements of the sheet data *)



Section SheetCells.
Import Js Xml Workbook.
Variable rt : Runtime.












End SheetCells.




(** ** Styles: fonts, fills, borders and cell formats *)

Module Styles.
Import Js Workbook Fmt Xml.

(** A step that may throw, followed by another. *)
Definition and_then {A B} (a : Outcome A) (f : A -> Outcome B) : Outcome B :=
  match a with
  | Return x => f x
  | Throw e => Throw e
  end.

(** [`FF${color.toUpperCase()}`] for a colour that is truthy: a value that
    is not a string has no [toUpperCase]. *)
Definition rgb_of (color : Scalar) : Outcome string :=
  match color with
  | SStr s => Return ("FF" +:+ Str.toUpperCase s)
  | _ => Throw type_error
  end.

(** [_buildFontKey(format)]: [format.strikeout] is [undefined] (the field
    of a [Format] is [fontStrikeout]), and [JSON.stringify] leaves such a
    member out. *)
Definition _buildFontKey (format : Format) : Key :=
  [ ("name", to_json (fontName format));
    ("size", to_json (fontSize format));
    ("bold", to_json (bold format));
    ("italic", to_json (italic format));
    ("underline", to_json (underline format));
    ("fontColor", to_json (fontColor format)) ].

(** [_buildFontXML(format)]; no [<strike/>], for the same reason. *)
Definition _buildFontXML (format : Format) : Outcome Xml.Node :=
  let flags : list Xml.Node :=
    ((if scalar_truthy (bold format) then [Empty "b" []] else []) ++
     (if scalar_truthy (italic format) then [Empty "i" []] else []) ++
     (if scalar_truthy (underline format) then [Empty "u" []] else []))%list in
  let size :=
    scalar_to_string (scalar_or (fontSize format) (SNum (ofZ 11))) in
  let fontName := scalar_or (fontName format) (SStr "Calibri") in
  let name_on : list Xml.Node :=
    ([Empty "name" [("val", scalar_to_string fontName)];
      Empty "family" [("val", "2")]] ++
     (if bool_decide (fontName = SStr "Calibri")
      then [Empty "scheme" [("val", "minor")]] else []))%list in
  and_then
    (if scalar_truthy (fontColor format)
     then and_then (rgb_of (fontColor format))
            (fun rgb => Return (Empty "color" [("rgb", rgb)]))
     else Return (Empty "color" [("theme", "1")]))
    (fun color =>
       Return (Elem "font" []
                 (flags ++ [Empty "sz" [("val", size)]; color] ++ name_on))).

(** [_buildFillKey(format)] *)
Definition _buildFillKey (format : Format) : Key :=
  [ ("bgColor", to_json (bgColor format));
    ("pattern", to_json (pattern format)) ].

(** [_buildFillXML(format)] *)
Definition _buildFillXML (format : Format) : Outcome Xml.Node :=
  if negb (scalar_truthy (bgColor format))
  then Return (Elem "fill" [] [Empty "patternFill" [("patternType", "none")]])
  else
    let pattern :=
      scalar_to_string (scalar_or (pattern format) (SStr "solid")) in
    and_then (rgb_of (bgColor format))
      (fun rgb =>
         Return (Elem "fill" []
                   [Elem "patternFill" [("patternType", pattern)]
                      [Empty "fgColor" [("rgb", rgb)]]])).

(** [_buildBorderKey(format)] *)
Definition _buildBorderKey (format : Format) : Key :=
  [ ("left", to_json (Fmt.left format)); ("right", to_json (Fmt.right format));
    ("top", to_json (Fmt.top format)); ("bottom", to_json (Fmt.bottom format));
    ("leftColor", to_json (leftColor format));
    ("rightColor", to_json (rightColor format));
    ("topColor", to_json (topColor format));
    ("bottomColor", to_json (bottomColor format)) ].

(** [styleMap] of [_buildBorderSideXML], keyed by the text of the number. *)
Definition styleMap : list (string * string) :=
  [ ("1", "thin"); ("2", "medium"); ("3", "dashed"); ("4", "dotted");
    ("5", "thick"); ("6", "double"); ("7", "hair"); ("8", "mediumDashed");
    ("9", "dashDot"); ("10", "mediumDashDot"); ("11", "dashDotDot");
    ("12", "mediumDashDotDot"); ("13", "slantDashDot") ].

(** [_buildBorderSideXML(side, style, color)]; [style === 0] is one of the
    falsy values. *)
Definition _buildBorderSideXML (side : string) (style color : Scalar)
  : Outcome Xml.Node :=
  if negb (scalar_truthy style) then Return (Empty side [])
  else
    let styleName :=
      match style with
      | SNum n =>
          match attr styleMap (numToString n) with
          | Some name => name
          | None => "thin"
          end
      | _ => scalar_to_string style
      end in
    and_then
      (if scalar_truthy color
       then and_then (rgb_of color)
              (fun rgb => Return (Empty "color" [("rgb", rgb)]))
       else Return (Empty "color" [("auto", "1")]))
      (fun c => Return (Elem side [("style", styleName)] [c])).

(** [_buildBorderXML(format)] *)
Definition _buildBorderXML (format : Format) : Outcome Xml.Node :=
  and_then (_buildBorderSideXML "left" (Fmt.left format) (leftColor format))
    (fun l =>
  and_then (_buildBorderSideXML "right" (Fmt.right format) (rightColor format))
    (fun r =>
  and_then (_buildBorderSideXML "top" (Fmt.top format) (topColor format))
    (fun t =>
  and_then (_buildBorderSideXML "bottom" (Fmt.bottom format) (bottomColor format))
    (fun b =>
  Return (Elem "border" [] [l; r; t; b; Empty "diagonal" []]))))).

(** The keys of [fontMap], [fillMap] and [borderMap]: one of the names
    given at the start (['default'], ['none'], ['gray125']), or the text of
    a key object, which starts with a brace and so is none of these
    names. *)
Abbreviation StyleKey := (string + Key)%type.

(** [_addUniqueStyle(collection, map, key, buildFn)] *)
Definition _addUniqueStyle (collection : list Xml.Node) (map : gmap StyleKey nat)
    (key : StyleKey) (buildFn : unit -> Outcome Xml.Node)
  : Outcome (list Xml.Node * gmap StyleKey nat) :=
  match map !! key with
  | Some _ => Return (collection, map)
  | None =>
      and_then (buildFn tt)
        (fun x =>
           Return ((collection ++ [x])%list, <[key := length collection]> map))
  end.

(** What [_buildStyleCollections] returns. *)
Record Collections := {
  fonts : list Xml.Node;
  fills : list Xml.Node;
  borders : list Xml.Node;
  fontMap : gmap StyleKey nat;
  fillMap : gmap StyleKey nat;
  borderMap : gmap StyleKey nat
}.

Definition initial : Collections :=
  {| fonts :=
       [Elem "font" []
          [Empty "sz" [("val", "11")]; Empty "color" [("theme", "1")];
           Empty "name" [("val", "Calibri")]; Empty "family" [("val", "2")];
           Empty "scheme" [("val", "minor")]]];
     fills :=
       [Elem "fill" [] [Empty "patternFill" [("patternType", "none")]];
        Elem "fill" [] [Empty "patternFill" [("patternType", "gray125")]]];
     borders :=
       [Elem "border" []
          [Empty "left" []; Empty "right" []; Empty "top" [];
           Empty "bottom" []; Empty "diagonal" []]];
     fontMap := {[ inl "default" := 0%nat ]};
     fillMap := {[ inl "none" := 0%nat; inl "gray125" := 1%nat ]};
     borderMap := {[ inl "default" := 0%nat ]} |}.

(** One pass of the loop of [_buildStyleCollections]. *)
Definition add_styles (c : Collections) (format : Format)
  : Outcome Collections :=
  and_then
    (_addUniqueStyle (fonts c) (fontMap c) (inr (_buildFontKey format))
       (fun _ => _buildFontXML format))
    (fun f =>
  and_then
    (_addUniqueStyle (fills c) (fillMap c) (inr (_buildFillKey format))
       (fun _ => _buildFillXML format))
    (fun l =>
  and_then
    (_addUniqueStyle (borders c) (borderMap c) (inr (_buildBorderKey format))
       (fun _ => _buildBorderXML format))
    (fun b =>
  Return {| fonts := f.1; fills := l.1; borders := b.1;
            fontMap := f.2; fillMap := l.2; borderMap := b.2 |}))).

Fixpoint style_loop (c : Collections) (formats : list Format)
  : Outcome Collections :=
  match formats with
  | [] => Return c
  | format :: rest => and_then (add_styles c format) (fun c => style_loop c rest)
  end.

(** [_buildStyleCollections()] *)
Definition _buildStyleCollections (w : Writer) : Outcome Collections :=
  style_loop initial (formats w).

(** [`${id}`] and [id !== 0] for what a look-up in one of the maps gives. *)
Definition id_text (id : option nat) : string :=
  match id with Some n => Str.ofNat n | None => "undefined" end.

Definition id_set (id : option nat) : bool :=
  match id with Some 0%nat => false | _ => true end.

(** One pass of the loop of [_addStyles] over the formats.  A [Format] has
    no [numFmtId] (its number format is in [numFormatIndex]), so that
    [format.numFmtId || 0] is 0. *)
Definition xf_of (c : Collections) (format : Format) : Xml.Node :=
  let fontId := fontMap c !! inr (_buildFontKey format) in
  let fillId := fillMap c !! inr (_buildFillKey format) in
  let borderId := borderMap c !! inr (_buildBorderKey format) in
  let numFmtId := Zero in
  let attrs : list (string * string) :=
    ([("numFmtId", numToString numFmtId); ("fontId", id_text fontId);
      ("fillId", id_text fillId); ("borderId", id_text borderId);
      ("xfId", "0")] ++
     (if negb (bool_decide (numFmtId = Zero))
      then [("applyNumberFormat", "1")] else []) ++
     (if id_set fontId then [("applyFont", "1")] else []) ++
     (if id_set fillId then [("applyFill", "1")] else []) ++
     (if id_set borderId then [("applyBorder", "1")] else []))%list in
  let hasAlignment :=
    scalar_truthy (align format) || scalar_truthy (valign format) ||
    scalar_truthy (textWrap format) || scalar_truthy (rotation format) ||
    scalar_truthy (indent format) in
  if hasAlignment
  then
    Elem "xf" (attrs ++ [("applyAlignment", "1")])
      [Empty "alignment"
         ((if scalar_truthy (align format)
           then [("horizontal", scalar_to_string (align format))] else []) ++
          (if scalar_truthy (valign format)
           then [("vertical", scalar_to_string (valign format))] else []) ++
          (if scalar_truthy (textWrap format) then [("wrapText", "1")] else []) ++
          (if scalar_truthy (rotation format)
           then [("textRotation", scalar_to_string (rotation format))]
           else []) ++
          (if scalar_truthy (indent format)
           then [("indent", scalar_to_string (indent format))] else []))]
  else Empty "xf" attrs.

(** The array [cellXfs] of [_addStyles]. *)
Definition cellXfs (c : Collections) (formats : list Format) : list Xml.Node :=
  Empty "xf"
    [("numFmtId", "0"); ("fontId", "0"); ("fillId", "0"); ("borderId", "0");
     ("xfId", "0")]
  :: List.map (xf_of c) formats.

End Styles.

Section StyleFacts.
Import Js Workbook Fmt Xml Styles.

(** A field that [JSON.stringify] writes as it is: not an infinite number,
    which is written as [null]. *)
Definition finite_field (v : Scalar) : bool :=
  match v with SNum (Inf _) => false | _ => true end.

(** The fields that the three keys are made of. *)
Definition key_fields (f : Format) : list Scalar :=
  [ fontName f; fontSize f; bold f; italic f; underline f; fontColor f;
    bgColor f; pattern f;
    Fmt.left f; Fmt.right f; Fmt.top f; Fmt.bottom f;
    leftColor f; rightColor f; topColor f; bottomColor f ].

Definition faithful (f : Format) : bool :=
  List.forallb finite_field (key_fields f).

(** A colour that can be written: a string, or a value that is falsy and so
    not written at all. *)
Definition colour_ok (v : Scalar) : bool :=
  match v with SStr _ => true | _ => negb (scalar_truthy v) end.

Definition side_ok (style color : Scalar) : bool :=
  negb (scalar_truthy style) || colour_ok color.

Definition colours_ok (f : Format) : bool :=
  colour_ok (fontColor f) && colour_ok (bgColor f) &&
  side_ok (Fmt.left f) (leftColor f) && side_ok (Fmt.right f) (rightColor f) &&
  side_ok (Fmt.top f) (topColor f) && side_ok (Fmt.bottom f) (bottomColor f).

(** Two fields with the same JSON text are the same value, or are both
    falsy. *)
Lemma same_json a b :
  finite_field a = true -> finite_field b = true ->
  to_json a = to_json b ->
  a = b \/ (scalar_truthy a = false /\ scalar_truthy b = false).
Proof.
  destruct a as [|x|[|neg| |neg s e]|s], b as [|y|[|neg'| |neg' s' e']|t];
    cbn; intros Ha Hb H; try discriminate; try (left; congruence);
    try (right; split; reflexivity).
Qed.

Ltac same H :=
  destruct H as [H|[H ?]];
  [rewrite H|unfold scalar_or; rewrite ?H; repeat match goal with
                      | E : scalar_truthy _ = false |- _ => rewrite E
                      end].

Lemma faithful_fields f v :
  faithful f = true -> In v (key_fields f) -> finite_field v = true.
Proof. unfold faithful. rewrite List.forallb_forall. auto. Qed.

Ltac field_same f g Hf Hg H :=
  apply same_json in H;
  [|apply (faithful_fields f _ Hf); cbn; tauto
   |apply (faithful_fields g _ Hg); cbn; tauto].

Lemma fontXML_key f g :
  faithful f = true -> faithful g = true ->
  _buildFontKey f = _buildFontKey g -> _buildFontXML f = _buildFontXML g.
Proof.
  intros Hf Hg [= H1 H2 H3 H4 H5 H6].
  field_same f g Hf Hg H1. field_same f g Hf Hg H2.
  field_same f g Hf Hg H3. field_same f g Hf Hg H4.
  field_same f g Hf Hg H5. field_same f g Hf Hg H6.
  unfold _buildFontXML. cbv zeta. unfold scalar_or.
  destruct H1 as [->|[-> ->]], H2 as [->|[-> ->]], H3 as [->|[-> ->]],
    H4 as [->|[-> ->]], H5 as [->|[-> ->]], H6 as [->|[-> ->]];
    reflexivity.
Qed.

Lemma fillXML_key f g :
  faithful f = true -> faithful g = true ->
  _buildFillKey f = _buildFillKey g -> _buildFillXML f = _buildFillXML g.
Proof.
  intros Hf Hg [= H1 H2].
  field_same f g Hf Hg H1. field_same f g Hf Hg H2.
  unfold _buildFillXML. cbv zeta. unfold scalar_or.
  destruct H1 as [->|[-> ->]], H2 as [->|[-> ->]]; reflexivity.
Qed.

Lemma sideXML_same side s s' c c' :
  s = s' \/ (scalar_truthy s = false /\ scalar_truthy s' = false) ->
  c = c' \/ (scalar_truthy c = false /\ scalar_truthy c' = false) ->
  _buildBorderSideXML side s c = _buildBorderSideXML side s' c'.
Proof.
  unfold _buildBorderSideXML. cbv zeta.
  intros [->|[-> ->]] [->|[-> ->]]; reflexivity.
Qed.

Lemma borderXML_key f g :
  faithful f = true -> faithful g = true ->
  _buildBorderKey f = _buildBorderKey g ->
  _buildBorderXML f = _buildBorderXML g.
Proof.
  intros Hf Hg [= H1 H2 H3 H4 H5 H6 H7 H8].
  field_same f g Hf Hg H1. field_same f g Hf Hg H2.
  field_same f g Hf Hg H3. field_same f g Hf Hg H4.
  field_same f g Hf Hg H5. field_same f g Hf Hg H6.
  field_same f g Hf Hg H7. field_same f g Hf Hg H8.
  unfold _buildBorderXML.
  rewrite (sideXML_same "left" _ _ _ _ H1 H5),
    (sideXML_same "right" _ _ _ _ H2 H6),
    (sideXML_same "top" _ _ _ _ H3 H7),
    (sideXML_same "bottom" _ _ _ _ H4 H8).
  reflexivity.
Qed.

(** Whether a builder returns. *)
Lemma rgb_of_ok v :
  scalar_truthy v = true ->
  (colour_ok v = true -> exists s, rgb_of v = Return s) /\
  (colour_ok v = false -> rgb_of v = Throw type_error).
Proof.
  destruct v as [|b|n|s]; cbn; intros Ht; split; intros H;
    try discriminate; try reflexivity; try (eexists; reflexivity);
    rewrite Ht in H; discriminate.
Qed.

Lemma fontXML_ok f :
  (colour_ok (fontColor f) = true -> exists x, _buildFontXML f = Return x) /\
  (colour_ok (fontColor f) = false -> _buildFontXML f = Throw type_error).
Proof.
  unfold _buildFontXML. cbv zeta.
  destruct (scalar_truthy (fontColor f)) eqn:Ht.
  - destruct (rgb_of_ok _ Ht) as [Hok Hbad]. split; intros H.
    + destruct (Hok H) as [s ->]. eexists. reflexivity.
    + rewrite (Hbad H). reflexivity.
  - split; intros H; [eexists; reflexivity|].
    destruct (fontColor f); cbn in Ht, H; try discriminate;
      rewrite Ht in H; discriminate.
Qed.

Lemma fillXML_ok f :
  (colour_ok (bgColor f) = true -> exists x, _buildFillXML f = Return x) /\
  (colour_ok (bgColor f) = false -> _buildFillXML f = Throw type_error).
Proof.
  unfold _buildFillXML. cbv zeta.
  destruct (scalar_truthy (bgColor f)) eqn:Ht; cbn [negb].
  - destruct (rgb_of_ok _ Ht) as [Hok Hbad]. split; intros H.
    + destruct (Hok H) as [s ->]. eexists. reflexivity.
    + rewrite (Hbad H). reflexivity.
  - split; intros H; [eexists; reflexivity|].
    destruct (bgColor f); cbn in Ht, H; try discriminate;
      rewrite Ht in H; discriminate.
Qed.

Lemma sideXML_ok side style color :
  (side_ok style color = true ->
   exists x, _buildBorderSideXML side style color = Return x) /\
  (side_ok style color = false ->
   _buildBorderSideXML side style color = Throw type_error).
Proof.
  unfold _buildBorderSideXML, side_ok. cbv zeta.
  destruct (scalar_truthy style) eqn:Hs; cbn [negb orb];
    [|split; intros H; [eexists; reflexivity|discriminate]].
  destruct (scalar_truthy color) eqn:Ht.
  - destruct (rgb_of_ok _ Ht) as [Hok Hbad]. split; intros H.
    + destruct (Hok H) as [s ->]. eexists. reflexivity.
    + rewrite (Hbad H). reflexivity.
  - split; intros H; [eexists; reflexivity|].
    destruct color; cbn in Ht, H; try discriminate;
      rewrite Ht in H; discriminate.
Qed.

Definition border_ok (f : Format) : bool :=
  side_ok (Fmt.left f) (leftColor f) && side_ok (Fmt.right f) (rightColor f) &&
  side_ok (Fmt.top f) (topColor f) && side_ok (Fmt.bottom f) (bottomColor f).

Lemma borderXML_ok f :
  (border_ok f = true -> exists x, _buildBorderXML f = Return x) /\
  (border_ok f = false -> _buildBorderXML f = Throw type_error).
Proof.
  unfold _buildBorderXML, border_ok.
  destruct (sideXML_ok "left" (Fmt.left f) (leftColor f)) as [L1 L2].
  destruct (sideXML_ok "right" (Fmt.right f) (rightColor f)) as [R1 R2].
  destruct (sideXML_ok "top" (Fmt.top f) (topColor f)) as [T1 T2].
  destruct (sideXML_ok "bottom" (Fmt.bottom f) (bottomColor f)) as [B1 B2].
  destruct (side_ok (Fmt.left f) (leftColor f));
    [destruct (L1 eq_refl) as [l ->]
    |rewrite (L2 eq_refl); split; [discriminate|reflexivity]].
  destruct (side_ok (Fmt.right f) (rightColor f));
    [destruct (R1 eq_refl) as [r ->]
    |rewrite (R2 eq_refl); split; [discriminate|reflexivity]].
  destruct (side_ok (Fmt.top f) (topColor f));
    [destruct (T1 eq_refl) as [t ->]
    |rewrite (T2 eq_refl); split; [discriminate|reflexivity]].
  destruct (side_ok (Fmt.bottom f) (bottomColor f));
    [destruct (B1 eq_refl) as [b ->]
    |rewrite (B2 eq_refl); split; [discriminate|reflexivity]].
  split; [eexists; reflexivity|discriminate].
Qed.

(** One collection and its map, as the loop goes over the formats. *)
Section Tracked.
Variables (key : Format -> Key) (build : Format -> Outcome Xml.Node).
Hypothesis Hsame :
  forall f g, faithful f = true -> faithful g = true ->
    key f = key g -> build f = build g.

Definition tracked (seen : list Format) (collection : list Xml.Node)
    (map : gmap StyleKey nat) : Prop :=
  (forall f, In f seen -> is_Some (map !! inr (key f))) /\
  (forall k i, map !! inr k = Some i ->
     exists g x, In g seen /\ key g = k /\
                 collection !! i = Some x /\ build g = Return x).

Lemma tracked_own seen collection map f :
  tracked seen collection map ->
  List.forallb faithful seen = true -> In f seen ->
  exists i x, map !! inr (key f) = Some i /\
              collection !! i = Some x /\ build f = Return x.
Proof.
  intros [H1 H2] Hall Hin. destruct (H1 f Hin) as [i Hi].
  destruct (H2 _ _ Hi) as (g & x & Hg & Hk & Hx & Hb).
  exists i, x. split; [exact Hi|]. split; [exact Hx|].
  rewrite List.forallb_forall in Hall.
  rewrite (Hsame f g (Hall f Hin) (Hall g Hg)) by congruence. exact Hb.
Qed.

Lemma tracked_returns seen collection map f x :
  tracked seen collection map -> build f = Return x ->
  exists collection' map',
    _addUniqueStyle collection map (inr (key f)) (fun _ => build f)
    = Return (collection', map') /\
    tracked (seen ++ [f]) collection' map'.
Proof.
  intros [H1 H2] Hb. unfold _addUniqueStyle.
  destruct (map !! inr (key f)) as [i|] eqn:Hk.
  - exists collection, map. split; [reflexivity|]. split.
    + intros g [Hg|[<-|[]]]%List.in_app_or; [apply H1, Hg|].
      rewrite Hk. eexists. reflexivity.
    + intros k j Hj. destruct (H2 k j Hj) as (g & y & Hg & Hkey & Hy & Hbg).
      exists g, y. split; [apply List.in_or_app; left; exact Hg|].
      split; [exact Hkey|]. split; [exact Hy|exact Hbg].
  - rewrite Hb. cbn [and_then]. eexists _, _. split; [reflexivity|]. split.
    + intros g [Hg|[<-|[]]]%List.in_app_or.
      * destruct (H1 g Hg) as [j Hj].
        destruct (decide (key g = key f)) as [Heq|Hne].
        -- rewrite Heq, lookup_insert_eq. eexists. reflexivity.
        -- rewrite lookup_insert_ne by congruence. eexists. exact Hj.
      * rewrite lookup_insert_eq. eexists. reflexivity.
    + intros k j. destruct (decide (k = key f)) as [->|Hne].
      * rewrite lookup_insert_eq. intros [= <-]. exists f, x.
        split; [apply List.in_or_app; right; left; reflexivity|].
        split; [reflexivity|]. split; [|exact Hb].
        rewrite lookup_app_r by lia. rewrite Nat.sub_diag. reflexivity.
      * rewrite lookup_insert_ne by congruence. intros Hj.
        destruct (H2 k j Hj) as (g & y & Hg & Hkey & Hy & Hbg).
        exists g, y. split; [apply List.in_or_app; left; exact Hg|].
        split; [exact Hkey|]. split; [|exact Hbg].
        apply lookup_app_l_Some, Hy.
Qed.

Lemma tracked_throws seen collection map f e :
  tracked seen collection map ->
  List.forallb faithful seen = true -> faithful f = true ->
  build f = Throw e ->
  _addUniqueStyle collection map (inr (key f)) (fun _ => build f) = Throw e.
Proof.
  intros [H1 H2] Hall Hf Hb. unfold _addUniqueStyle.
  destruct (map !! inr (key f)) as [i|] eqn:Hk.
  - destruct (H2 _ _ Hk) as (g & x & Hg & Hkey & _ & Hbg).
    rewrite List.forallb_forall in Hall.
    rewrite (Hsame f g Hf (Hall g Hg)) in Hb by congruence. congruence.
  - rewrite Hb. reflexivity.
Qed.

End Tracked.

Definition tracked_all (seen : list Format) (c : Collections) : Prop :=
  tracked _buildFontKey _buildFontXML seen (fonts c) (fontMap c) /\
  tracked _buildFillKey _buildFillXML seen (fills c) (fillMap c) /\
  tracked _buildBorderKey _buildBorderXML seen (borders c) (borderMap c).

Lemma tracked_initial : tracked_all [] initial.
Proof.
  unfold tracked_all, tracked.
  split; [|split]; (split; [intros f []|]);
    intros k i H; cbn [initial fontMap fillMap borderMap] in H;
    rewrite ?lookup_insert_ne, ?lookup_singleton_ne in H by discriminate;
    discriminate.
Qed.

Lemma colours_ok_parts f :
  colours_ok f =
  colour_ok (fontColor f) && colour_ok (bgColor f) && border_ok f.
Proof. unfold colours_ok, border_ok. rewrite !andb_assoc. reflexivity. Qed.

Lemma add_styles_returns seen c f :
  tracked_all seen c -> colours_ok f = true ->
  exists c', add_styles c f = Return c' /\ tracked_all (seen ++ [f]) c'.
Proof.
  intros (Hfont & Hfill & Hborder). rewrite colours_ok_parts.
  intros [[H1 H2]%andb_prop H3]%andb_prop.
  destruct (proj1 (fontXML_ok f) H1) as [x Hx].
  destruct (proj1 (fillXML_ok f) H2) as [y Hy].
  destruct (proj1 (borderXML_ok f) H3) as [z Hz].
  destruct (tracked_returns _ _ seen _ _ f x Hfont Hx) as (c1 & m1 & E1 & T1).
  destruct (tracked_returns _ _ seen _ _ f y Hfill Hy) as (c2 & m2 & E2 & T2).
  destruct (tracked_returns _ _ seen _ _ f z Hborder Hz) as (c3 & m3 & E3 & T3).
  unfold add_styles. rewrite E1, E2, E3. cbn [and_then fst snd].
  eexists. split; [reflexivity|]. split; [exact T1|split; [exact T2|exact T3]].
Qed.

Lemma add_styles_throws seen c f :
  tracked_all seen c ->
  List.forallb faithful seen = true -> faithful f = true ->
  colours_ok f = false ->
  add_styles c f = Throw type_error.
Proof.
  intros (Hfont & Hfill & Hborder) Hall Hf. rewrite colours_ok_parts.
  intros Hbad. unfold add_styles.
  destruct (colour_ok (fontColor f)) eqn:H1.
  - destruct (proj1 (fontXML_ok f) H1) as [x Hx].
    destruct (tracked_returns _ _ seen _ _ f x Hfont Hx) as (c1 & m1 & -> & _).
    cbn [and_then].
    destruct (colour_ok (bgColor f)) eqn:H2.
    + destruct (proj1 (fillXML_ok f) H2) as [y Hy].
      destruct (tracked_returns _ _ seen _ _ f y Hfill Hy)
        as (c2 & m2 & -> & _).
      cbn [and_then]. cbn [andb] in Hbad.
      rewrite (tracked_throws _ _ borderXML_key seen _ _ f _ Hborder Hall Hf
                 (proj2 (borderXML_ok f) Hbad)).
      reflexivity.
    + rewrite (tracked_throws _ _ fillXML_key seen _ _ f _ Hfill Hall Hf
                 (proj2 (fillXML_ok f) H2)).
      reflexivity.
  - rewrite (tracked_throws _ _ fontXML_key seen _ _ f _ Hfont Hall Hf
               (proj2 (fontXML_ok f) H1)).
    reflexivity.
Qed.

Lemma style_loop_returns formats :
  forall seen c,
    tracked_all seen c -> List.forallb colours_ok formats = true ->
    exists c', style_loop c formats = Return c' /\
               tracked_all (seen ++ formats) c'.
Proof.
  induction formats as [|f rest IH]; intros seen c Ht Hok.
  - exists c. rewrite app_nil_r. split; [reflexivity|exact Ht].
  - cbn [List.forallb] in Hok. apply andb_prop in Hok as [Hf Hrest].
    destruct (add_styles_returns seen c f Ht Hf) as (c1 & E1 & T1).
    destruct (IH (seen ++ [f])%list c1 T1 Hrest) as (c' & E' & T').
    exists c'. cbn [style_loop]. rewrite E1. cbn [and_then].
    split; [exact E'|]. rewrite <- app_assoc in T'. exact T'.
Qed.

Lemma style_loop_throws formats :
  forall seen c,
    tracked_all seen c ->
    List.forallb faithful (seen ++ formats) = true ->
    List.forallb colours_ok formats = false ->
    style_loop c formats = Throw type_error.
Proof.
  induction formats as [|f rest IH]; intros seen c Ht Hall Hbad;
    [discriminate|].
  cbn [style_loop]. rewrite List.forallb_app in Hall.
  apply andb_prop in Hall as [Hseen Hrest]. cbn [List.forallb] in Hrest, Hbad.
  apply andb_prop in Hrest as [Hf Hrest].
  destruct (colours_ok f) eqn:Hok.
  - destruct (add_styles_returns seen c f Ht Hok) as (c1 & -> & T1).
    cbn [and_then]. apply (IH (seen ++ [f])%list c1 T1); [|exact Hbad].
    rewrite !List.forallb_app, Hseen, Hrest. cbn [List.forallb].
    rewrite Hf. reflexivity.
  - rewrite (add_styles_throws seen c f Ht Hseen Hf Hok). reflexivity.
Qed.

End StyleFacts.

(** X25.  When no style field of a format is an infinite number, and every
    colour that gets written is a string, [_buildStyleCollections] returns,
    and every format finds its own font, fill and border: the id that the
    map gives for the key of the format is the position, in the collection,
    of the very element that [_buildFontXML], [_buildFillXML] or
    [_buildBorderXML] builds for that format. *)
Theorem style_ids_point_at_own_styles (w : Workbook.Writer) :
  List.forallb faithful (Workbook.formats w) = true ->
  List.forallb colours_ok (Workbook.formats w) = true ->
  exists c,
    Styles._buildStyleCollections w = Workbook.Return c /\
    forall f, In f (Workbook.formats w) ->
      (exists i x,
         Styles.fontMap c !! inr (Styles._buildFontKey f) = Some i /\
         Styles.fonts c !! i = Some x /\
         Styles._buildFontXML f = Workbook.Return x) /\
      (exists i x,
         Styles.fillMap c !! inr (Styles._buildFillKey f) = Some i /\
         Styles.fills c !! i = Some x /\
         Styles._buildFillXML f = Workbook.Return x) /\
      (exists i x,
         Styles.borderMap c !! inr (Styles._buildBorderKey f) = Some i /\
         Styles.borders c !! i = Some x /\
         Styles._buildBorderXML f = Workbook.Return x).
Proof.
  intros Hall Hok. unfold Styles._buildStyleCollections.
  destruct (style_loop_returns (Workbook.formats w) [] Styles.initial
              tracked_initial Hok) as (c & Hc & Hfont & Hfill & Hborder).
  cbn [app] in Hfont, Hfill, Hborder.
  exists c. split; [exact Hc|]. intros f Hf. split; [|split].
  - exact (tracked_own _ _ fontXML_key _ _ _ f Hfont Hall Hf).
  - exact (tracked_own _ _ fillXML_key _ _ _ f Hfill Hall Hf).
  - exact (tracked_own _ _ borderXML_key _ _ _ f Hborder Hall Hf).
Qed.

(** A writer with a bold red format added. *)
Definition bold_red : Workbook.Writer :=
  (Workbook.addFormat (Workbook.new_XlsxWriter "out.xlsx")
     [("bold", Js.SBool true); ("font_color", Js.SStr "ff0000")]).2.

Lemma style_ids_point_at_own_styles_witness :
  exists c, Styles._buildStyleCollections bold_red = Workbook.Return c.
Proof.
  destruct (style_ids_point_at_own_styles bold_red
              ltac:(vm_compute; reflexivity) ltac:(vm_compute; reflexivity))
    as (c & H & _).
  exists c. exact H.
Defined.

(** X26.  The array [cellXfs] has one element more than there are formats:
    a fixed first element, and then the element of each format, so that the
    format with handle [i] (its [xfIndex], which is what a cell refers to
    by) has its element at position [i + 1].  Every element has [numFmtId]
    0 and no [applyNumberFormat], whatever number format the format has. *)
Theorem cellXfs_layout (file : string) (l : list Call) (c : Styles.Collections) :
  let w := calls (Workbook.new_XlsxWriter file) l in
  let xfs := Styles.cellXfs c (Workbook.formats w) in
  length xfs = S (length (Workbook.formats w)) /\
  forall i f, Workbook.formats w !! i = Some f ->
    Fmt.xfIndex f = Some i /\
    xfs !! S i = Some (Styles.xf_of c f) /\
    Xml.attr (Xml.attrs_of (Styles.xf_of c f)) "numFmtId" = Some "0" /\
    Xml.attr (Xml.attrs_of (Styles.xf_of c f)) "applyNumberFormat" = None.
Proof.
  intros w xfs. unfold xfs, Styles.cellXfs. split.
  - cbn [length]. rewrite List.length_map. reflexivity.
  - intros i f Hi.
    destruct (calls_formats l (Workbook.new_XlsxWriter file)) as [Hok _].
    fold w in Hok.
    destruct (Hok (conj (registry_ok_new file) (numFormats_ok_new file)))
      as [[Hmap Hlist] _].
    split; [|split; [|split]].
    + pose proof (Hlist i f Hi) as Hk.
      destruct (Hmap _ _ Hk) as (f' & Hf' & _ & Hx). congruence.
    + transitivity ((Styles.xf_of c <$> Workbook.formats w) !! i);
        [reflexivity|].
      rewrite list_lookup_fmap, Hi. reflexivity.
    + unfold Styles.xf_of. cbv zeta. repeat case_match; reflexivity.
    + unfold Styles.xf_of. cbv zeta.
      rewrite (bool_decide_eq_true_2 (Js.Zero = Js.Zero) eq_refl).
      cbn [negb]. repeat case_match; reflexivity.
Qed.

Lemma cellXfs_layout_witness :
  let w :=
    calls (Workbook.new_XlsxWriter "out.xlsx")
      [CallAddFormat [("num_format", Js.SStr "0.000")]] in
  length (Styles.cellXfs Styles.initial (Workbook.formats w)) = 3%nat.
Proof.
  destruct (cellXfs_layout "out.xlsx"
              [CallAddFormat [("num_format", Js.SStr "0.000")]] Styles.initial)
    as [H _].
  exact H.
Defined.

(** X27.  When no style field of a format is an infinite number and some
    format has a colour to write that is not a string (a number, say),
    [_buildStyleCollections] throws a [TypeError]: no earlier format with
    the same key hides it. *)
Theorem style_collections_throw (w : Workbook.Writer) :
  List.forallb faithful (Workbook.formats w) = true ->
  List.forallb colours_ok (Workbook.formats w) = false ->
  Styles._buildStyleCollections w = Workbook.Throw Workbook.type_error.
Proof.
  intros Hall Hbad. unfold Styles._buildStyleCollections.
  apply (style_loop_throws (Workbook.formats w) [] Styles.initial
           tracked_initial Hall Hbad).
Qed.

(** A writer with a format whose font colour is a number. *)
Definition numeric_red : Workbook.Writer :=
  (Workbook.addFormat (Workbook.new_XlsxWriter "out.xlsx")
     [("font_color", Js.SNum (Js.ofZ 16711680))]).2.

Lemma style_collections_throw_witness :
  Styles._buildStyleCollections numeric_red
  = Workbook.Throw Workbook.type_error.
Proof.
  apply (style_collections_throw numeric_red);
    vm_compute; reflexivity.
Defined.

(** ** Merged ranges *)

Section MergeFacts2.
Import Js Workbook.






Lemma processCell_mergeCells w value format :
  mergeCells (_processCell w value format).2 = mergeCells w.
Proof. unfold _processCell. repeat case_match; reflexivity. Qed.

Lemma getOrCreateSheet_mergeCells w sheet :
  mergeCells (_getOrCreateSheet w sheet).2 = mergeCells w.
Proof.
  unfold _getOrCreateSheet.
  destruct (sheetMap w !! sheet_name_of sheet); reflexivity.
Qed.

Lemma write_mergeCells w pos value format sheet :
  mergeCells (write w pos value format sheet).2 = mergeCells w.
Proof.
  assert (H : forall row col value format sheet,
            mergeCells (write_at w row col value format sheet).2
            = mergeCells w).
  { clear. intros row col value format sheet. unfold write_at.
    pose proof (getOrCreateSheet_mergeCells w sheet) as H0.
    destruct (_getOrCreateSheet w sheet) as [[sheetIndex nm] w1].
    cbn [snd] in H0.
    destruct (sheets w1 !! sheetIndex) as [sheetObj|]; [|exact H0].
    destruct (row <? 0); [exact H0|].
    match goal with
    | |- context [_processCell ?w' value format] =>
        pose proof (processCell_mergeCells w' value format) as Hp;
        destruct (_processCell w' value format) as [cellData w2]
    end.
    cbn [snd] in Hp |- *. cbn [mergeCells set_sheet with_sheets] in Hp |- *.
    congruence. }
  destruct pos; cbn [write]; apply H.
Qed.

(** The merge that [mergeRange] records, whether the write that follows
    returns or throws. *)
Lemma mergeRange_records w r1 c1 r2 c2 value format sheet :
  let i := (_getOrCreateSheet w (sheet_or_default sheet)).1.1 in
  mergeCells (mergeRange w (MergeIndex r1 c1 r2 c2 value) format sheet).2 !! i
  = Some (default [] (mergeCells w !! i) ++
          [{| merge_startRow := r1 + 1; merge_startCol := c1 + 1;
              merge_endRow := r2 + 1; merge_endCol := c2 + 1 |}])%list.
Proof.
  cbv zeta. unfold mergeRange.
  pose proof (getOrCreateSheet_mergeCells w (sheet_or_default sheet)) as H0.
  destruct (_getOrCreateSheet w (sheet_or_default sheet))
    as [[sheetIndex nm] w1].
  cbn [fst snd] in H0 |- *. rewrite <- H0.
  destruct value as [[]|]; cbn [snd]; rewrite ?write_mergeCells;
    cbn [mergeCells with_mergeCells]; apply lookup_insert_eq.
Qed.

End MergeFacts2.



(** ** The typed variants of [write] *)

Module Writes.
Import Js Workbook.

Section WithRuntime.
Variable rt : Runtime.

(** [writeString(row, col, string, format, sheet)] *)
Definition writeString (w : Writer) (pos : Position) (string : JsVal)
    (format : Arg) (sheet : option SheetArg) : Outcome unit * Writer :=
  write w pos (AVal (VStr (toStringVal rt string))) format sheet.

(** [writeFormula(row, col, formula, format, sheet)]; a [formula] that is
    not a string has no [startsWith]. *)
Definition writeFormula (w : Writer) (pos : Position) (formula : Scalar)
    (format : Arg) (sheet : option SheetArg) : Outcome unit * Writer :=
  match formula with
  | SStr s =>
      let formulaStr := if Str.startsWith "=" s then s else "=" +:+ s in
      write w pos (AVal (VStr formulaStr)) format sheet
  | _ => (Throw type_error, w)
  end.

(** [writeBlank(row, col, format, sheet)] *)
Definition writeBlank (w : Writer) (pos : Position) (format : Arg)
    (sheet : option SheetArg) : Outcome unit * Writer :=
  write w pos (AVal (VStr "")) format sheet.

(** [writeBoolean(row, col, value, format, sheet)] *)
Definition writeBoolean (w : Writer) (pos : Position) (value : JsVal)
    (format : Arg) (sheet : option SheetArg) : Outcome unit * Writer :=
  write w pos (AVal (VBool (truthy value))) format sheet.

(** [writeUrl(row, col, url, format, displayText, sheet)] *)
Definition writeUrl (w : Writer) (pos : Position) (url : JsVal)
    (format : Arg) (displayText : JsVal) (sheet : option SheetArg)
  : Outcome unit * Writer :=
  let text := if truthy displayText then displayText else url in
  let formula :=
    "=HYPERLINK(" +:+ Xml.dquote +:+ toStringVal rt url +:+ Xml.dquote +:+
    "," +:+ Xml.dquote +:+ toStringVal rt text +:+ Xml.dquote +:+ ")" in
  writeFormula w pos (SStr formula) format sheet.

End WithRuntime.

End Writes.

Section FormulaFacts.
Import Js Workbook.

(** The text of a formula without its leading [=]. *)
Definition formula_body (f : string) : string :=
  if Str.startsWith "=" f
  then String.substring 1 (String.length f - 1) f else f.

Lemma formula_text f :
  (if Str.startsWith "=" f then f else "=" +:+ f) = String "=" (formula_body f).
Proof.
  unfold formula_body. destruct (Str.startsWith "=" f) eqn:Hs; [|reflexivity].
  apply startsWith_cons in Hs as (rest & -> & _).
  cbn [String.length String.substring Nat.sub].
  rewrite ?Nat.sub_0_r, substring_all. reflexivity.
Qed.

Lemma processCell_formula w body format :
  _processCell w (AVal (VStr (String "=" body))) format =
  ({| cell_value := AVal (VStr body); cell_type := "str";
      cell_isFormula := true; cell_format := format |}, w).
Proof.
  unfold _processCell. cbn [Str.startsWith Ascii.eqb Bool.eqb].
  cbn [String.length String.substring Nat.sub].
  rewrite ?Nat.sub_0_r, substring_all. reflexivity.
Qed.

End FormulaFacts.

(** X29.  [writeFormula] stores a formula whether or not the caller wrote
    the leading [=]: with [row] and [col] from 0 up it returns, the cell
    holds the text without that [=], marked as a formula, and no shared
    string is added.  [writeString] does not protect a text that starts
    with [=]: it does exactly what [writeFormula] does. *)
Theorem writeFormula_stores_formula
    (rt : Js.Runtime) (w : Workbook.Writer) (row col : Z) (f : string)
    (format : Workbook.Arg) (sheet : option Workbook.SheetArg) :
  sheetMap_sound w -> 0 <= row -> 0 <= col ->
  let name := Workbook.sheet_name_of (Workbook.sheet_or_default sheet) in
  let r :=
    Writes.writeFormula w (Workbook.ByIndex row col) (Js.SStr f) format sheet in
  r.1 = Workbook.Return tt /\
  (exists i sh,
     Workbook.sheetMap r.2 !! name = Some i /\
     Workbook.sheets r.2 !! i = Some sh /\
     cell_at sh row col =
     Some {| Workbook.cell_value := Workbook.AVal (Js.VStr (formula_body f));
             Workbook.cell_type := "str";
             Workbook.cell_isFormula := true;
             Workbook.cell_format := format |}) /\
  Workbook.sharedStrings r.2 = Workbook.sharedStrings w /\
  Writes.writeString rt w (Workbook.ByIndex row col)
    (Js.VStr (String "=" (formula_body f))) format sheet = r.
Proof.
  intros Hsound Hrow Hcol name r.
  unfold r, Writes.writeFormula, Writes.writeString. cbv zeta.
  rewrite formula_text. cbn [Js.toStringVal].
  destruct (write_step format sheet w row col
              (Workbook.AVal (Js.VStr (String "=" (formula_body f))))
              Hsound Hrow Hcol)
    as (Hret & _ & _ & i & sh & Hi & Hsh & Hcell & _).
  rewrite processCell_formula in Hcell. cbn [fst] in Hcell.
  split; [exact Hret|]. split; [exists i, sh; auto|]. split; [|reflexivity].
  pose proof (write_at_table w row col
                (Workbook.AVal (Js.VStr (String "=" (formula_body f))))
                format (Workbook.sheet_or_default sheet)) as Ht.
  cbn [Workbook.write] in Hret |- *. rewrite Hret in Ht.
  rewrite processCell_formula in Ht. unfold table in Ht. cbn [snd] in Ht.
  congruence.
Qed.

Lemma writeFormula_stores_formula_witness :
  let w := Workbook.new_XlsxWriter "out.xlsx" in
  Writes.writeString Js.decimal_runtime w (Workbook.ByIndex 0 0)
    (Js.VStr "=SUM(B1:B9)") Workbook.undefined None
  = Writes.writeFormula w (Workbook.ByIndex 0 0) (Js.SStr "SUM(B1:B9)")
      Workbook.undefined None.
Proof.
  cbv zeta.
  assert (Hsound : sheetMap_sound (Workbook.new_XlsxWriter "out.xlsx")).
  { intros n i H. vm_compute in H. discriminate. }
  destruct (writeFormula_stores_formula Js.decimal_runtime
              (Workbook.new_XlsxWriter "out.xlsx") 0 0 "SUM(B1:B9)"
              Workbook.undefined None Hsound ltac:(lia) ltac:(lia))
    as (_ & _ & _ & H).
  exact H.
Defined.

(** ** Saving more than once *)

Section SaveTwice.
Import Js Workbook.


(** The writer with its charts and its archive replaced. *)
Definition put (w : Writer) (c : list ChartInfo) (z : list string) : Writer :=
  with_zip (with_charts w c) z.

Lemma put_same w : put w (charts w) (zip w) = w.
Proof. destruct w; reflexivity. Qed.

Lemma put_put w c z c' z' : put (put w c z) c' z' = put w c' z'.
Proof. reflexivity. Qed.














End SaveTwice.

